(** * Reflex trainer: session state, scoring, spawning and settings validation

    Shallow embedding of [src/App.tsx], [src/services/storageService.ts]
    and the type declarations of the repository.

    Number model.  A JavaScript [number] that the code only ever counts
    with (score, combo, hits, misses, lives, level, millisecond clocks) is
    a [Z].  A number that is divided, scaled or drawn at random (bubble
    size, delays, durations, coordinates, accuracy, [Math.random()]) is an
    exact rational [Q]; binary64 rounding is not modelled, except in
    [hitPoints64], which computes the points of a hit as the code does and
    shows where the exact product rounds the other way.  Values parsed
    from storage may also be [NaN] or infinite, see [number]. *)

From Stdlib Require Import ZArith QArith Qround Qminmax Lia Lqa Bool.
From Stdlib Require Import Floats Uint63.
From stdpp Require Import base strings gmap sorting.

Local Open Scope Z_scope.

(** ** types.ts *)

Inductive GameMode := TIME_TRIAL | SURVIVAL.
Inductive ScreenMode := FULL | BOARD | COMPACT.
Inductive Difficulty := EASY | NORMAL | HARD | CUSTOM.

#[global] Instance GameMode_eq_dec : EqDecision GameMode.
Proof. solve_decision. Defined.

(** The string each enum member stands for at run time. *)
Definition GameMode_value (m : GameMode) : string :=
  match m with
  | TIME_TRIAL => "Contrarreloj"
  | SURVIVAL => "Supervivencia"
  end.

Definition ScreenMode_value (m : ScreenMode) : string :=
  match m with
  | FULL => "Pantalla Completa"
  | BOARD => "Pizarra (Estándar)"
  | COMPACT => "Compacto"
  end.

Definition Difficulty_value (d : Difficulty) : string :=
  match d with
  | EASY => "Easy"
  | NORMAL => "Normal"
  | HARD => "Hard"
  | CUSTOM => "Custom"
  end.

Record GameSettings := mkSettings {
  gameMode : GameMode;
  screenMode : ScreenMode;
  difficulty : Difficulty;
  bubbleSize : Q;
  spawnDelay : Q;
  duration : Q;
  soundEnabled : bool;
  sensitivity : Q;
  crosshairType : string;
  crosshairColor : string
}.

Record GameStats := mkStats {
  score : Z;
  combo : Z;
  maxCombo : Z;
  hits : Z;
  misses : Z;
  timeLeft : Q;
  lives : Z;
  level : Z;
  isPlaying : bool
}.

Record Position := mkPos { pos_x : Q; pos_y : Q }.

Record ScoreRecord := mkRecord {
  rec_id : Z;
  rec_score : Z;
  rec_maxCombo : Z;
  rec_accuracy : Q;
  rec_difficulty : Difficulty;
  rec_mode : GameMode;
  rec_tags : list string
}.

(** ** Untyped values, as [JSON.parse] hands them to the validator *)

Inductive number := Fin (q : Q) | PosInf | NegInf | NaN.

#[warnings="-register-all"]
Inductive JSValue :=
  | JUndefined
  | JNull
  | JBool (b : bool)
  | JNumber (n : number)
  | JString (s : string)
  | JArray (items : list JSValue)
  | JObject (props : gmap string JSValue).

(** [!v] *)
Definition falsy (v : JSValue) : bool :=
  match v with
  | JUndefined | JNull | JBool false | JString "" | JNumber NaN => true
  | JNumber (Fin q) => Qeq_bool q 0
  | _ => false
  end.

(** [typeof v === 'object'] *)
Definition typeof_object (v : JSValue) : bool :=
  match v with
  | JNull | JArray _ | JObject _ => true
  | _ => false
  end.

(** [data.key], for the property names the validator reads: an array has
    none of them, and every other value that reaches a property read is an
    object. *)
Definition get (data : JSValue) (key : string) : JSValue :=
  match data with
  | JObject props => default JUndefined (props !! key)
  | _ => JUndefined
  end.

(** ** services/storageService.ts *)

Module storageService.

Definition DEFAULT_SETTINGS : GameSettings :=
  {| gameMode := TIME_TRIAL;
     screenMode := BOARD;
     difficulty := NORMAL;
     bubbleSize := 60;
     spawnDelay := 200;
     duration := 60;
     soundEnabled := true;
     sensitivity := 1;
     crosshairType := "dot";
     crosshairColor := "#6366f1" |}.

(** [Object.values(enumObj).includes(val) ? val : defaultVal], with the
    enum object given by its members and their run-time strings. *)
Definition safeEnum {T} (val : JSValue) (members : list T)
    (value_of : T -> string) (defaultVal : T) : T :=
  match val with
  | JString s =>
      match List.find (fun m => bool_decide (value_of m = s)) members with
      | Some m => m
      | None => defaultVal
      end
  | _ => defaultVal
  end.

(** [Math.max(min, Math.min(max, val))] after the [typeof]/[isNaN] test. *)
Definition safeNum (val : JSValue) (min max defaultVal : Q) : Q :=
  match val with
  | JNumber NaN => defaultVal
  | JNumber PosInf => Qmax min max
  | JNumber NegInf => min
  | JNumber (Fin v) => Qmax min (Qmin max v)
  | _ => defaultVal
  end.

Definition crosshairTypes : list string := ["dot"; "cross"; "circle"; "plus"].

Definition startsWith (s p : string) : bool := String.prefix p s.

(** [s.length]: the number of UTF-16 code units of the text.  A [string]
    holds the text as its UTF-8 bytes: a byte below 128 is a character of
    its own, a byte from 128 to 191 continues a character, a byte from 192
    to 239 begins a character of one code unit, and a byte from 240 begins
    a character of two (a surrogate pair). *)
Definition code_units (c : Ascii.ascii) : nat :=
  let b := Ascii.nat_of_ascii c in
  if (b <? 128)%nat then 1%nat
  else if (b <? 192)%nat then 0%nat
  else if (b <? 240)%nat then 1%nat
  else 2%nat.

Fixpoint JS_length (s : string) : nat :=
  match s with
  | EmptyString => 0%nat
  | String c s' => (code_units c + JS_length s')%nat
  end.

Definition validateSettings (data : JSValue) : GameSettings :=
  if falsy data || negb (typeof_object data) then DEFAULT_SETTINGS
  else
    {| gameMode := safeEnum (get data "gameMode") [TIME_TRIAL; SURVIVAL]
                     GameMode_value (gameMode DEFAULT_SETTINGS);
       screenMode := safeEnum (get data "screenMode") [FULL; BOARD; COMPACT]
                       ScreenMode_value (screenMode DEFAULT_SETTINGS);
       difficulty := safeEnum (get data "difficulty") [EASY; NORMAL; HARD; CUSTOM]
                       Difficulty_value (difficulty DEFAULT_SETTINGS);
       bubbleSize := safeNum (get data "bubbleSize") 10 300 (bubbleSize DEFAULT_SETTINGS);
       spawnDelay := safeNum (get data "spawnDelay") 0 5000 (spawnDelay DEFAULT_SETTINGS);
       duration := safeNum (get data "duration") 5 3600 (duration DEFAULT_SETTINGS);
       soundEnabled := match get data "soundEnabled" with
                       | JBool b => b
                       | _ => soundEnabled DEFAULT_SETTINGS
                       end;
       sensitivity := safeNum (get data "sensitivity") (1 # 10) 10
                        (sensitivity DEFAULT_SETTINGS);
       crosshairType := match get data "crosshairType" with
                        | JString s =>
                            if bool_decide (s ∈ crosshairTypes) then s
                            else crosshairType DEFAULT_SETTINGS
                        | _ => crosshairType DEFAULT_SETTINGS
                        end;
       crosshairColor := match get data "crosshairColor" with
                         | JString s =>
                             if startsWith s "#" && (JS_length s <=? 7)%nat then s
                             else crosshairColor DEFAULT_SETTINGS
                         | _ => crosshairColor DEFAULT_SETTINGS
                         end |}.

(** The object a [GameSettings] value is at run time (what
    [JSON.parse (JSON.stringify settings)] gives back). *)
Definition toJS (s : GameSettings) : JSValue :=
  JObject (list_to_map
    [ ("gameMode", JString (GameMode_value (gameMode s)));
      ("screenMode", JString (ScreenMode_value (screenMode s)));
      ("difficulty", JString (Difficulty_value (difficulty s)));
      ("bubbleSize", JNumber (Fin (bubbleSize s)));
      ("spawnDelay", JNumber (Fin (spawnDelay s)));
      ("duration", JNumber (Fin (duration s)));
      ("soundEnabled", JBool (soundEnabled s));
      ("sensitivity", JNumber (Fin (sensitivity s)));
      ("crosshairType", JString (crosshairType s));
      ("crosshairColor", JString (crosshairColor s)) ]).

End storageService.

(** ** App.tsx *)

Module App.

Record Rect := mkRect { rect_x : Q; rect_y : Q; width : Q; height : Q }.

(** [Math.round]: the nearest integer, a tie going up. *)
Definition Math_round (q : Q) : Z := Qfloor (q + (1 # 2)).

(** [a < b] on rationals, as a boolean. *)
Definition Qlt_bool (a b : Q) : bool := negb (Qle_bool b a).

(** The component state: the [useState] cells and the timers. *)
Record AppState := mkApp {
  gameStats : GameStats;
  isPaused : bool;
  bubblePos : option Position;
  bubbleSpawnTime : Z;
  lastClickTime : Z;
  (** [timerRef]: the one-second countdown interval is running. *)
  timerRef : bool;
  (** The pending [setTimeout(spawnBubble, _)] calls in the order they
      were set, each with the [gameStats.level] its [spawnBubble] closed
      over.  Nothing keeps their handles, so nothing cancels them. *)
  respawns : list Z;
  (** Counts the position objects made so far: [bubblePos] is compared by
      identity in dependency arrays. *)
  bubbleGen : nat;
  (** The [gameStats] that the memoised [handleGlobalClick], and so the
      [handleHit] it calls, closed over. *)
  clickStats : GameStats
}.

Definition set_gameStats (g : GameStats) (st : AppState) : AppState :=
  mkApp g (isPaused st) (bubblePos st) (bubbleSpawnTime st) (lastClickTime st)
        (timerRef st) (respawns st) (bubbleGen st) (clickStats st).
Definition set_isPaused (b : bool) (st : AppState) : AppState :=
  mkApp (gameStats st) b (bubblePos st) (bubbleSpawnTime st) (lastClickTime st)
        (timerRef st) (respawns st) (bubbleGen st) (clickStats st).
Definition set_bubblePos (p : option Position) (st : AppState) : AppState :=
  mkApp (gameStats st) (isPaused st) p (bubbleSpawnTime st) (lastClickTime st)
        (timerRef st) (respawns st)
        (match p with Some _ => S (bubbleGen st) | None => bubbleGen st end)
        (clickStats st).
Definition set_spawnTimes (now : Z) (st : AppState) : AppState :=
  mkApp (gameStats st) (isPaused st) (bubblePos st) now now
        (timerRef st) (respawns st) (bubbleGen st) (clickStats st).
Definition set_timerRef (b : bool) (st : AppState) : AppState :=
  mkApp (gameStats st) (isPaused st) (bubblePos st) (bubbleSpawnTime st) (lastClickTime st)
        b (respawns st) (bubbleGen st) (clickStats st).
Definition set_respawns (l : list Z) (st : AppState) : AppState :=
  mkApp (gameStats st) (isPaused st) (bubblePos st) (bubbleSpawnTime st) (lastClickTime st)
        (timerRef st) l (bubbleGen st) (clickStats st).
Definition set_clickStats (g : GameStats) (st : AppState) : AppState :=
  mkApp (gameStats st) (isPaused st) (bubblePos st) (bubbleSpawnTime st) (lastClickTime st)
        (timerRef st) (respawns st) (bubbleGen st) g.

(** The initial [useState] values. *)
Definition initialStats : GameStats :=
  {| score := 0; combo := 0; maxCombo := 0; hits := 0; misses := 0;
     timeLeft := 0; lives := 3; level := 1; isPlaying := false |}.

Definition initialApp : AppState :=
  mkApp initialStats false None 0 0 false [] 0 initialStats.

Section Component.

(** The settings and the board do not change while a session runs: the
    sidebar that edits them is out of reach then. *)
Context (settings : GameSettings) (boardRect : Rect) (isMobile : bool).

Definition survival : bool := bool_decide (gameMode settings = SURVIVAL).

(** *** spawnBubble *)

(** The [size] local of [spawnBubble]. *)
Definition spawnSize (level : Z) : Q :=
  if survival then Qmax 30 (bubbleSize settings - inject_Z (level * 2))%Q
  else bubbleSize settings.

(** The position handed to [setBubblePos]; [rx] and [ry] are the two
    [Math.random()] draws. *)
Definition spawnBubble (level : Z) (rx ry : Q) : Position :=
  let bx := rect_x boardRect in
  let byy := rect_y boardRect in
  let size := spawnSize level in
  let maxX := (bx + width boardRect - size)%Q in
  let maxY := (byy + height boardRect - size)%Q in
  {| pos_x := Qmax bx (rx * (maxX - bx) + bx)%Q;
     pos_y := Qmax byy (ry * (maxY - byy) + byy)%Q |}.

(** [spawnBubble] as a state change. *)
Definition doSpawn (level : Z) (now : Z) (rx ry : Q) (st : AppState) : AppState :=
  set_spawnTimes now (set_bubblePos (Some (spawnBubble level rx ry)) st).

(** *** startGame, startTimer, endGame *)

Definition startGame_stats : GameStats :=
  {| score := 0; combo := 0; maxCombo := 0; hits := 0; misses := 0;
     timeLeft := duration settings; lives := 3; level := 1; isPlaying := true |}.

Definition startTimer (st : AppState) : AppState :=
  set_timerRef (negb survival) st.

Definition startGame (st : AppState) : AppState :=
  startTimer
    (set_respawns (respawns st ++ [level (gameStats st)])
       (set_gameStats startGame_stats (set_isPaused false st))).

Definition endGame (st : AppState) : AppState :=
  set_isPaused false (set_bubblePos None (set_timerRef false st)).

(** *** The countdown *)

Definition timer_ends (prev : GameStats) : bool := Qle_bool (timeLeft prev) 1.

Definition timer_update (prev : GameStats) : GameStats :=
  if timer_ends prev then
    mkStats (score prev) (combo prev) (maxCombo prev) (hits prev) (misses prev)
            0 (lives prev) (level prev) false
  else
    mkStats (score prev) (combo prev) (maxCombo prev) (hits prev) (misses prev)
            (timeLeft prev - 1)%Q (lives prev) (level prev) (isPlaying prev).

(** The interval body; the updater calls [endGame] when it ends the
    session. *)
Definition tick (st : AppState) : AppState :=
  if timerRef st then
    let prev := gameStats st in
    let st' := set_gameStats (timer_update prev) st in
    if timer_ends prev then endGame st' else st'
  else st.

(** *** handleSurrender *)

Definition surrender_update (prev : GameStats) : GameStats :=
  mkStats (score prev) (combo prev) (maxCombo prev) (hits prev) (misses prev)
          0 (lives prev) (level prev) false.

Definition handleSurrender (st : AppState) : AppState :=
  endGame (set_gameStats (surrender_update (gameStats st)) st).

(** *** handleHit *)

(** [points], computed from [gameStats.combo] of the render that made the
    handler (the updater below works on [prev]).  [reactionTime] is a
    difference of two [Date.now()] readings, so [Math.floor] of its tenth
    is the quotient rounded down.  [bubbleSize] is positive in every
    validated setting; for 0, where JavaScript gives [Infinity], [Q]
    gives 0. *)
Definition hitPoints (view : GameStats) (reactionTime : Z) : Z :=
  let speedBonus := Z.max 0 (100 - reactionTime / 10) in
  let sizeMultiplier := (150 / bubbleSize settings)%Q in
  let comboMultiplier := (1 + inject_Z (combo view) * (1 # 10))%Q in
  Math_round (inject_Z (100 + speedBonus) * sizeMultiplier * comboMultiplier)%Q.

(** The same in binary64, as the code computes it: every operation is
    rounded to the nearest double, 0.1 is the double next to one tenth,
    and [Math.round] takes the exact value of the product.  The counters
    are below 2^53 and convert exactly; [bubbleSize] is the double next to
    its rational.  [None] stands for [NaN] or an infinity. *)
Definition Z2float (z : Z) : float :=
  if z <? 0 then PrimFloat.opp (PrimFloat.of_uint63 (Uint63.of_Z (- z)))
  else PrimFloat.of_uint63 (Uint63.of_Z z).

Definition Q2float (q : Q) : float :=
  PrimFloat.div (Z2float (Qnum q)) (Z2float (Zpos (Qden q))).

Definition float2Q (x : float) : option Q :=
  match Prim2SF x with
  | S754_zero _ => Some 0%Q
  | S754_finite s m e =>
      let v := if 0 <=? e then inject_Z (Zpos m * 2 ^ e)
               else Zpos m # Pos.shiftl 1 (Z.to_N (- e)) in
      Some (if s then Qopp v else v)
  | _ => None
  end.

Definition hitPoints64 (view : GameStats) (reactionTime : Z) : option Z :=
  let speedBonus := Z.max 0 (100 - reactionTime / 10) in
  let sizeMultiplier := PrimFloat.div 150%float (Q2float (bubbleSize settings)) in
  let comboMultiplier :=
    PrimFloat.add 1%float
      (PrimFloat.mul (Z2float (combo view)) 0x1.999999999999ap-4%float) in
  option_map Math_round
    (float2Q (PrimFloat.mul (PrimFloat.mul (Z2float (100 + speedBonus)) sizeMultiplier)
                            comboMultiplier)).

(** The updater handed to [setGameStats]. *)
Definition hit_update (points : Z) (prev : GameStats) : GameStats :=
  let newCombo := combo prev + 1 in
  let newLevel :=
    if survival && (Z.rem newCombo 10 =? 0) then level prev + 1 else level prev in
  mkStats (score prev + points) newCombo (Z.max (maxCombo prev) newCombo)
          (hits prev + 1) (misses prev) (timeLeft prev) (lives prev) newLevel
          (isPlaying prev).

Definition nextDelay (view : GameStats) : Q :=
  if survival then Qmax 0 (500 - inject_Z (level view * 50))%Q
  else spawnDelay settings.

(** [view] is the [gameStats] the handler closed over.  Its
    [lastClickTime] is the current one: only [spawnBubble] sets it, along
    with [bubblePos], and a new [bubblePos] makes a new handler. *)
Definition handleHit (view : GameStats) (now : Z) (rx ry : Q) (st : AppState) : AppState :=
  let reactionTime := now - lastClickTime st in
  let points := hitPoints view reactionTime in
  let st' := set_bubblePos None (set_gameStats (hit_update points (gameStats st)) st) in
  if Qlt_bool 0 (nextDelay view) then
    set_respawns (respawns st' ++ [level view]) st'
  else doSpawn (level view) now rx ry st'.

(** *** handleMiss *)

Definition miss_ends (prev : GameStats) : bool :=
  survival && (lives prev - 1 <=? 0).

Definition miss_update (prev : GameStats) : GameStats :=
  let newLives := lives prev - 1 in
  if miss_ends prev then
    mkStats (score prev) (combo prev) (maxCombo prev) (hits prev) (misses prev + 1)
            (timeLeft prev) 0 (level prev) false
  else
    mkStats (Z.max 0 (score prev - 50)) 0 (maxCombo prev) (hits prev) (misses prev + 1)
            (timeLeft prev) newLives (level prev) (isPlaying prev).

(** The updater calls [endGame] in its game-over branch. *)
Definition handleMiss (st : AppState) : AppState :=
  let prev := gameStats st in
  let st' := set_gameStats (miss_update prev) st in
  if miss_ends prev then endGame st' else st'.

(** *** The survival expiry poll *)

Definition maxLifespan (level : Z) : Z := Z.max 600 (3000 - level * 150).

(** The effect keeps its interval only while this holds. *)
Definition expiry_watch (st : AppState) : bool :=
  survival && isPlaying (gameStats st) && negb (isPaused st)
  && bool_decide (bubblePos st <> None).

(** The interval body: [handleMiss()] and then [spawnBubble()], without a
    test in between.  [handleMiss] only queues its updater; React runs it
    when it works the queue off, after the interval body has returned.  So
    the setters of [spawnBubble] come first and the [endGame] of the last
    life comes after them: it clears the target that was just put up, and
    the two clocks stay set. *)
Definition expiryPoll (now : Z) (rx ry : Q) (st : AppState) : AppState :=
  if expiry_watch st then
    if maxLifespan (level (gameStats st)) <? now - bubbleSpawnTime st then
      handleMiss (doSpawn (level (gameStats st)) now rx ry st)
    else st
  else st.

(** *** togglePause and the pointer-lock listener *)

Definition pause (st : AppState) : AppState :=
  set_timerRef false (set_isPaused true st).

Definition togglePause (st : AppState) : AppState :=
  if negb (isPlaying (gameStats st)) then st
  else if isPaused st then startTimer (set_isPaused false st)
  else pause st.

Definition handleLockChange (st : AppState) : AppState :=
  if isPlaying (gameStats st) && negb (isPaused st) && negb isMobile then pause st
  else st.

(** *** Clicks and taps *)

(** The size the live target is drawn and hit-tested with. *)
Definition currentSize (level : Z) : Q :=
  if survival then Qmax 30 (bubbleSize settings - inject_Z (level * 2))%Q
  else bubbleSize settings.

(** [dist <= radius], compared on the squares. *)
Definition hitTest (cx cy : Q) (p : Position) (level : Z) : bool :=
  let radius := (currentSize level / 2)%Q in
  let bubbleCenterX := (pos_x p + radius)%Q in
  let bubbleCenterY := (pos_y p + radius)%Q in
  Qle_bool 0 radius
  && Qle_bool ((cx - bubbleCenterX) ^ 2 + (cy - bubbleCenterY) ^ 2)%Q (radius ^ 2)%Q.

Definition handleGlobalClick (cx cy : Q) (now : Z) (rx ry : Q) (st : AppState) : AppState :=
  if negb (isPlaying (gameStats st)) || isPaused st || isMobile then st
  else
    match bubblePos st with
    | Some p =>
        if hitTest cx cy p (level (gameStats st))
        then handleHit (clickStats st) now rx ry st
        else handleMiss st
    | None => handleMiss st
    end.

Definition handleMobileBackgroundClick (st : AppState) : AppState :=
  if negb (isPlaying (gameStats st)) || isPaused st || negb isMobile then st
  else handleMiss st.

(** This handler is made anew by every render, so its [handleHit] sees
    the current [gameStats]. *)
Definition handleMobileBubbleInteract (now : Z) (rx ry : Q) (st : AppState) : AppState :=
  if negb (isPlaying (gameStats st)) || isPaused st then st
  else handleHit (gameStats st) now rx ry st.

(** *** Renders *)

(** The dependency array of [handleGlobalClick], as far as the state
    goes. *)
Definition clickDeps (st : AppState) : bool * bool * option nat * Z :=
  (isPlaying (gameStats st), isPaused st,
   match bubblePos st with Some _ => Some (bubbleGen st) | None => None end,
   level (gameStats st)).

(** The render after an event: [useCallback] keeps the old
    [handleGlobalClick] unless one of its dependencies changed. *)
Definition render (old new : AppState) : AppState :=
  if decide (clickDeps old = clickDeps new) then new
  else set_clickStats (gameStats new) new.

(** *** Events *)

Inductive Event :=
  | StartGame
  | SpawnTimeout (now : Z) (rx ry : Q)
  | MouseDown (cx cy : Q) (now : Z) (rx ry : Q)
  | TouchBubble (now : Z) (rx ry : Q)
  | TouchBackground
  | Tick
  | ExpiryPoll (now : Z) (rx ry : Q)
  | Surrender
  | TogglePause
  | PointerLockLost
  | SpawnTimeoutAt (k : nat) (now : Z) (rx ry : Q).

(** What an event does before the next render.  An event whose button,
    element or timer does not exist in the state leaves it as it is.

    [SpawnTimeout] is the pending [setTimeout(spawnBubble, _)] that was set
    first.  The delays differ (100 ms on a start, [spawnDelay] or
    [500 - 50 * level] after a hit), so one that was set later can be due
    earlier: [SpawnTimeoutAt k] is the one set [k] places after the first.
    The model lets any pending one fire, which covers every order the
    delays allow. *)
Definition handle (e : Event) (st : AppState) : AppState :=
  match e with
  | StartGame =>
      if isPlaying (gameStats st) then st else startGame st
  | SpawnTimeout now rx ry =>
      match respawns st with
      | lvl :: rest => doSpawn lvl now rx ry (set_respawns rest st)
      | [] => st
      end
  | MouseDown cx cy now rx ry => handleGlobalClick cx cy now rx ry st
  | TouchBubble now rx ry =>
      if isMobile && isPlaying (gameStats st) && bool_decide (bubblePos st <> None)
      then handleMobileBubbleInteract now rx ry st else st
  | TouchBackground => handleMobileBackgroundClick st
  | Tick => tick st
  | ExpiryPoll now rx ry => expiryPoll now rx ry st
  | Surrender =>
      if isPlaying (gameStats st) || isPaused st then handleSurrender st else st
  | TogglePause => togglePause st
  | PointerLockLost => handleLockChange st
  | SpawnTimeoutAt k now rx ry =>
      match respawns st !! k with
      | Some lvl => doSpawn lvl now rx ry (set_respawns (delete k (respawns st)) st)
      | None => st
      end
  end.

Definition step (st : AppState) (e : Event) : AppState :=
  render st (handle e st).

Definition run (st : AppState) (es : list Event) : AppState :=
  fold_left step es st.

(** The states of a session: it starts from any state that is not
    playing, and goes on by events. *)
Inductive reachable : AppState -> Prop :=
  | reach_start st0 :
      isPlaying (gameStats st0) = false ->
      reachable (step st0 StartGame)
  | reach_step st e :
      reachable st -> reachable (step st e).

(** *** The effect that runs when [isPlaying] changes *)

Definition accuracy_of (g : GameStats) : Q :=
  (inject_Z (hits g) / inject_Z (hits g + misses g) * 100)%Q.

Definition tags_of (accuracy : Q) (g : GameStats) : list string :=
  (if Qle_bool 95 accuracy then ["Cirujano"] else [])
  ++ (if 30 <=? maxCombo g then ["Ninja"] else [])
  ++ (if 50000 <? score g then ["Leyenda"] else [])
  ++ (if Qlt_bool 2 (inject_Z (hits g)
                     / (if Qeq_bool (duration settings) 0 then 1 else duration settings))%Q
      then ["Flash"] else []).

(** The record handed to [saveScore], if any; [now] is [Date.now()]. *)
Definition gameEndEffect (now : Z) (g : GameStats) : option ScoreRecord :=
  if negb (isPlaying g) && (0 <? hits g) then
    let accuracy := if 0 <? hits g + misses g then accuracy_of g else 0%Q in
    Some {| rec_id := now; rec_score := score g; rec_maxCombo := maxCombo g;
            rec_accuracy := accuracy; rec_difficulty := difficulty settings;
            rec_mode := gameMode settings; rec_tags := tags_of accuracy g |}
  else None.

(** The accuracy shown by the HUD and the end report. *)
Definition accuracy (g : GameStats) : Q :=
  if hits g + misses g =? 0 then 100%Q else accuracy_of g.

End Component.

End App.

(** * Predicates and scenarios *)

(** ** Validated settings *)

Module Validation.
Import storageService.
Local Open Scope Q_scope.

(** Equality of settings as values: numbers compared as numbers. *)
Definition settings_eq (a b : GameSettings) : Prop :=
  gameMode a = gameMode b /\ screenMode a = screenMode b
  /\ difficulty a = difficulty b
  /\ bubbleSize a == bubbleSize b /\ spawnDelay a == spawnDelay b
  /\ duration a == duration b /\ soundEnabled a = soundEnabled b
  /\ sensitivity a == sensitivity b
  /\ crosshairType a = crosshairType b /\ crosshairColor a = crosshairColor b.

(** What the validator guarantees of its result (the enums are
    whitelisted by their type). *)
Definition in_range (s : GameSettings) : Prop :=
  10 <= bubbleSize s <= 300 /\ 0 <= spawnDelay s <= 5000
  /\ 5 <= duration s <= 3600 /\ (1 # 10) <= sensitivity s <= 10
  /\ crosshairType s ∈ crosshairTypes
  /\ startsWith (crosshairColor s) "#" = true
  /\ (JS_length (crosshairColor s) <= 7)%nat.

(** The numeric fields with their bounds. *)
Definition numeric_fields : list (string * (GameSettings -> Q) * Q * Q) :=
  [ ("bubbleSize"%string, bubbleSize, 10, 300);
    ("spawnDelay"%string, spawnDelay, 0, 5000);
    ("duration"%string, duration, 5, 3600);
    ("sensitivity"%string, sensitivity, 1 # 10, 10) ].

(** An object keeps each numeric property clamped to the field's bounds
    (an infinity becomes the bound on its side), and takes the default for
    one that is not a number. *)
Definition numeric_policy (data : JSValue) : Prop :=
  Forall (fun '(key, field, lo, hi) =>
            (forall q, get data key = JNumber (Fin q) ->
                       field (validateSettings data) == Qmax lo (Qmin hi q))
            /\ (get data key = JNumber PosInf -> field (validateSettings data) == hi)
            /\ (get data key = JNumber NegInf -> field (validateSettings data) == lo)
            /\ ((forall n, get data key = JNumber n -> n = NaN) ->
                field (validateSettings data) = field DEFAULT_SETTINGS))
         numeric_fields.

(** An object keeps a whitelisted enum member or flag, and takes the
    default for anything else. *)
Definition whitelist_policy (data : JSValue) : Prop :=
  let s := validateSettings data in
  ((forall m, get data "gameMode" = JString (GameMode_value m) -> gameMode s = m)
   /\ ((forall m, get data "gameMode" <> JString (GameMode_value m)) ->
       gameMode s = gameMode DEFAULT_SETTINGS))
  /\ ((forall m, get data "screenMode" = JString (ScreenMode_value m) -> screenMode s = m)
      /\ ((forall m, get data "screenMode" <> JString (ScreenMode_value m)) ->
          screenMode s = screenMode DEFAULT_SETTINGS))
  /\ ((forall m, get data "difficulty" = JString (Difficulty_value m) -> difficulty s = m)
      /\ ((forall m, get data "difficulty" <> JString (Difficulty_value m)) ->
          difficulty s = difficulty DEFAULT_SETTINGS))
  /\ ((forall b, get data "soundEnabled" = JBool b -> soundEnabled s = b)
      /\ ((forall b, get data "soundEnabled" <> JBool b) ->
          soundEnabled s = soundEnabled DEFAULT_SETTINGS)).

(** An object keeps a crosshair type of the list and a colour that is a
    string beginning with # of at most 7 code units, and takes the default
    for anything else. *)
Definition crosshair_policy (data : JSValue) : Prop :=
  let s := validateSettings data in
  ((forall t, get data "crosshairType" = JString t -> t ∈ crosshairTypes ->
              crosshairType s = t)
   /\ ((forall t, t ∈ crosshairTypes -> get data "crosshairType" <> JString t) ->
       crosshairType s = crosshairType DEFAULT_SETTINGS))
  /\ ((forall c, get data "crosshairColor" = JString c ->
                 startsWith c "#" = true -> (JS_length c <= 7)%nat ->
                 crosshairColor s = c)
      /\ ((forall c, get data "crosshairColor" = JString c ->
                     startsWith c "#" = false \/ (7 < JS_length c)%nat) ->
          crosshairColor s = crosshairColor DEFAULT_SETTINGS)).

(** An object whose only property is [bubbleSize: 1000]. *)
Definition oversized : JSValue :=
  JObject (list_to_map [("bubbleSize"%string, JNumber (Fin 1000))]).

(** An object whose colour has five characters and nine bytes. *)
Definition accented : JSValue :=
  JObject (list_to_map [("crosshairColor"%string, JString "#éééé")]).

End Validation.

(** ** Sessions as changes of [GameStats] *)

Module Session.
Import App.

Section Changes.

Context (settings : GameSettings) (boardRect : Rect) (isMobile : bool).

(** One event changes the statistics in one of these ways. *)
Inductive stats_change (g : GameStats) : GameStats -> Prop :=
  | ch_none : stats_change g g
  | ch_hit points :
      isPlaying g = true -> stats_change g (hit_update settings points g)
  | ch_miss :
      isPlaying g = true -> stats_change g (miss_update settings g)
  | ch_tick :
      isPlaying g = true -> survival settings = false ->
      stats_change g (timer_update g)
  | ch_surrender : stats_change g (surrender_update g).

(** What holds of the timers and the pause flag in a session. *)
Definition control_inv (st : AppState) : Prop :=
  (isPaused st = true -> isPlaying (gameStats st) = true)
  /\ timerRef st
     = isPlaying (gameStats st) && negb (isPaused st) && negb (survival settings).

(** What holds of the statistics in a session. *)
Definition stats_inv (g : GameStats) : Prop :=
  lives g <= 3
  /\ (survival settings = true ->
      0 <= lives g /\ (isPlaying g = true -> 1 <= lives g))
  /\ 0 <= combo g <= maxCombo g
  /\ 1 <= level g
  /\ 0 <= hits g /\ 0 <= misses g.

(** The countdown of a time trial: the session runs while time is left. *)
Definition countdown_inv (g : GameStats) : Prop :=
  (0 <= timeLeft g)%Q /\ (isPlaying g = true <-> (0 < timeLeft g)%Q).

(** The countdown of a time trial that lasts a whole number of seconds. *)
Definition whole_countdown_inv (g : GameStats) : Prop :=
  exists k : Z,
    (timeLeft g == inject_Z k)%Q /\ 0 <= k /\ (isPlaying g = true <-> 1 <= k).

(** The event is a click or a tap that the handlers take for a hit: the
    session runs, is not paused, and on the desktop the click is within
    the target, on a touch device the tap is on the target. *)
Definition is_hit (st : AppState) (e : Event) : bool :=
  match e with
  | MouseDown cx cy _ _ _ =>
      isPlaying (gameStats st) && negb (isPaused st) && negb isMobile
      && match bubblePos st with
         | Some p => hitTest settings cx cy p (level (gameStats st))
         | None => false
         end
  | TouchBubble _ _ _ =>
      isPlaying (gameStats st) && negb (isPaused st) && isMobile
      && bool_decide (bubblePos st <> None)
  | _ => false
  end.

(** The event is one that the handlers take for a miss: a click beside
    the target or with no target up, a tap on the background, or a poll
    that finds the target expired. *)
Definition is_miss (st : AppState) (e : Event) : bool :=
  match e with
  | MouseDown cx cy _ _ _ =>
      isPlaying (gameStats st) && negb (isPaused st) && negb isMobile
      && match bubblePos st with
         | Some p => negb (hitTest settings cx cy p (level (gameStats st)))
         | None => true
         end
  | TouchBackground =>
      isPlaying (gameStats st) && negb (isPaused st) && isMobile
  | ExpiryPoll now _ _ =>
      expiry_watch settings st
      && (maxLifespan (level (gameStats st)) <? now - bubbleSpawnTime st)
  | _ => false
  end.

(** The points of the hit that [e] is in [st]: a click is scored by the
    memoised handler, a tap by the handler of the current render. *)
Definition points_of (st : AppState) (e : Event) : Z :=
  match e with
  | MouseDown _ _ now _ _ =>
      hitPoints settings (clickStats st) (now - lastClickTime st)
  | TouchBubble now _ _ =>
      hitPoints settings (gameStats st) (now - lastClickTime st)
  | _ => 0
  end.

Definition is_start (e : Event) : bool :=
  match e with StartGame => true | _ => false end.

(** How many events of the run from [st] are hits. *)
Fixpoint hits_in (st : AppState) (es : list Event) : Z :=
  match es with
  | [] => 0
  | e :: es' =>
      (if is_hit st e then 1 else 0)
      + hits_in (step settings boardRect isMobile st e) es'
  end.

(** The run from [st] has no miss and no new start: its hits follow one
    another. *)
Fixpoint unbroken (st : AppState) (es : list Event) : bool :=
  match es with
  | [] => true
  | e :: es' =>
      negb (is_miss st e) && negb (is_start e)
      && unbroken (step settings boardRect isMobile st e) es'
  end.

(** Consecutive hits, each with its points. *)
Definition hits_from (g : GameStats) (points : list Z) : GameStats :=
  fold_left (fun prev p => hit_update settings p prev) points g.

(** Consecutive misses. *)
Fixpoint misses_from (g : GameStats) (n : nat) : GameStats :=
  match n with
  | O => g
  | S n' => misses_from (miss_update settings g) n'
  end.

(** The largest [combo] seen from [st] on, along the events [es]. *)
Fixpoint best_combo (st : AppState) (es : list Event) : Z :=
  match es with
  | [] => combo (gameStats st)
  | e :: es' =>
      Z.max (combo (gameStats st))
            (best_combo (step settings boardRect isMobile st e) es')
  end.

End Changes.

End Session.

(** ** Concrete sessions *)

Module Scenarios.
Import App storageService.

Definition board : Rect := mkRect 0 0 800 600.

Definition timeTrial : GameSettings := DEFAULT_SETTINGS.

Definition survivalGame : GameSettings :=
  {| gameMode := SURVIVAL;
     screenMode := BOARD;
     difficulty := NORMAL;
     bubbleSize := 60;
     spawnDelay := 200;
     duration := 60;
     soundEnabled := true;
     sensitivity := 1;
     crosshairType := "dot";
     crosshairColor := "#6366f1" |}.

(** A desktop session from the first load of the page. *)
Definition desktop (settings : GameSettings) (es : list Event) : AppState :=
  run settings board false initialApp es.

(** The same on a touch device. *)
Definition mobile (settings : GameSettings) (es : list Event) : AppState :=
  run settings board true initialApp es.

(** With both random draws 0 the target sits in the corner of the board;
    a click at (30,30) is on it, one at (500,500) is not. *)
Definition firstSpawn : Event := SpawnTimeout 1000 0 0.
Definition onTarget (now : Z) : Event := MouseDown 30 30 now 0 0.
Definition offTarget : Event := MouseDown 500 500 0 0 0.

(** A hit, the respawn 200 ms later, then a click beside the target. *)
Definition after_a_miss : AppState :=
  desktop timeTrial
    [StartGame; firstSpawn; onTarget 1100; SpawnTimeout 2000 0 0; offTarget].

Definition after_a_miss_mobile : AppState :=
  mobile timeTrial
    [StartGame; firstSpawn; TouchBubble 1100 0 0; SpawnTimeout 2000 0 0;
     TouchBackground].

(** Survival: two misses, a hit, the respawn; one life is left. *)
Definition last_life : AppState :=
  desktop survivalGame
    [StartGame; firstSpawn; offTarget; offTarget; onTarget 1100;
     SpawnTimeout 2000 0 0].

(** Survival: two misses with the first target still on the board. *)
Definition last_life_waiting : AppState :=
  desktop survivalGame [StartGame; firstSpawn; offTarget; offTarget].

(** A time trial with four clicks beside the target. *)
Definition four_misses : AppState :=
  desktop timeTrial [StartGame; firstSpawn; offTarget; offTarget; offTarget; offTarget].

(** Survival lost without a single hit. *)
Definition only_misses : AppState :=
  desktop survivalGame [StartGame; firstSpawn; offTarget; offTarget; offTarget].

(** A hit schedules the respawn 200 ms later; the player gives up first. *)
Definition gave_up : AppState :=
  desktop timeTrial [StartGame; firstSpawn; onTarget 1100; Surrender].

(** Survival: a hit 100 ms after the target came up, and the respawn. *)
Definition hit_and_respawn (i : nat) : list Event :=
  let t := 1000 + 1000 * Z.of_nat i in
  [onTarget (t + 100); SpawnTimeout (t + 1000) 0 0].

Definition hits_and_respawns (n : nat) : list Event :=
  flat_map hit_and_respawn (seq 0 n).

(** Survival: nine hits, with the tenth target up. *)
Definition nine_hits : AppState :=
  desktop survivalGame (StartGame :: firstSpawn :: hits_and_respawns 9).

(** Survival: ten hits (level 2), the player gives up and starts again. *)
Definition restarted : AppState :=
  desktop survivalGame
    (StartGame :: firstSpawn :: hits_and_respawns 10 ++ [Surrender; StartGame]).

(** The first target of the new session, drawn far to the right. *)
Definition spawn_at_the_edge : Event := SpawnTimeout 12000 (999 # 1000) 0.

(** A time trial of five and a half seconds, after five ticks. *)
Definition halfSecond : GameSettings :=
  {| gameMode := TIME_TRIAL;
     screenMode := BOARD;
     difficulty := CUSTOM;
     bubbleSize := 60;
     spawnDelay := 200;
     duration := 11 # 2;
     soundEnabled := true;
     sensitivity := 1;
     crosshairType := "dot";
     crosshairColor := "#6366f1" |}.

Definition half_a_second_left : AppState :=
  desktop halfSecond [StartGame; Tick; Tick; Tick; Tick; Tick].

End Scenarios.

(** * The rest of the storage service and of the component *)

(** ** services/storageService.ts: the three stored items *)

Module Ledger.
Import storageService.

(** What [localStorage.getItem] and [JSON.parse] make of one key: no text
    (or the empty one), a text that does not parse, or a value. *)
Inductive Item (A : Type) := NoItem | NotJSON | Parsed (v : A).
Arguments NoItem {A}.
Arguments NotJSON {A}.
Arguments Parsed {A} v.

(** The value under the scores key: an array of records, as [saveScore]
    writes it, or anything else. *)
Inductive ScoresJSON := NotAnArray | Records (l : list ScoreRecord).

(** The store.  The challenges item, when it parses, is taken to be the
    array of ids that [markChallengeComplete] writes. *)
Record LocalStorage := mkStorage {
  scoresItem : Item ScoresJSON;
  settingsItem : Item JSValue;
  challengesItem : Item (list string)
}.

Definition emptyStorage : LocalStorage := mkStorage NoItem NoItem NoItem.

Definition getStoredScores (ls : LocalStorage) : list ScoreRecord :=
  match scoresItem ls with
  | Parsed (Records parsed) => take 50 parsed
  | _ => []
  end.

(** [sort((a, b) => b.score - a.score)]: [Array.prototype.sort] is stable,
    and a stable sort by a total preorder has one result, the one that
    insertion from the right gives. *)
Fixpoint insert_desc (r : ScoreRecord) (l : list ScoreRecord) : list ScoreRecord :=
  match l with
  | [] => [r]
  | x :: l' =>
      if rec_score x <=? rec_score r then r :: x :: l'
      else x :: insert_desc r l'
  end.

Definition sort_desc (l : list ScoreRecord) : list ScoreRecord :=
  foldr insert_desc [] l.

(** Best score first. *)
Definition desc (a b : ScoreRecord) : Prop := rec_score b <= rec_score a.

(** [writable] tells whether [setItem] takes the write; when it throws
    (quota), the [catch] leaves the store as it was. *)
Definition saveScore (record : ScoreRecord) (writable : bool) (ls : LocalStorage)
    : LocalStorage :=
  let current := getStoredScores ls in
  let updated := take 50 (sort_desc (record :: current)) in
  if writable
  then mkStorage (Parsed (Records updated)) (settingsItem ls) (challengesItem ls)
  else ls.

(** [Math.max(...xs)] of a list that is not empty. *)
Definition Math_max (x : Z) (xs : list Z) : Z := fold_left Z.max xs x.

Definition getBestStreak (ls : LocalStorage) : Z :=
  match map (fun s => if rec_maxCombo s =? 0 then 0 else rec_maxCombo s)
            (getStoredScores ls) with
  | [] => 0
  | x :: xs => Math_max x xs
  end.

Definition getStoredSettings (ls : LocalStorage) : option GameSettings :=
  match settingsItem ls with
  | Parsed parsed => Some (validateSettings parsed)
  | _ => None
  end.

Definition saveStoredSettings (settings : GameSettings) (writable : bool)
    (ls : LocalStorage) : LocalStorage :=
  if writable
  then mkStorage (scoresItem ls) (Parsed (toJS settings)) (challengesItem ls)
  else ls.

(** The initialisation effect of the component:
    [{ ...DEFAULT_SETTINGS, ...stored }] is [stored], which has every
    key. *)
Definition initialSettings (ls : LocalStorage) : GameSettings :=
  match getStoredSettings ls with
  | Some stored => stored
  | None => DEFAULT_SETTINGS
  end.

Definition getCompletedChallenges (ls : LocalStorage) : list string :=
  match challengesItem ls with
  | Parsed parsed => parsed
  | _ => []
  end.

(** A [Set] of strings as the list of its members in insertion order. *)
Definition Set_add (s : list string) (x : string) : list string :=
  if bool_decide (x ∈ s) then s else s ++ [x].

Definition new_Set (l : list string) : list string := fold_left Set_add l [].

Definition markChallengeComplete (id : string) (writable : bool) (ls : LocalStorage)
    : LocalStorage :=
  let completed := Set_add (new_Set (getCompletedChallenges ls)) id in
  if writable
  then mkStorage (scoresItem ls) (settingsItem ls) (Parsed completed)
  else ls.

End Ledger.

(** ** App.tsx: challenges and the end of a game *)

Module Challenges.
Import App Ledger.

Definition novice_survivor (s : GameStats) (c : GameSettings) : bool :=
  bool_decide (gameMode c = SURVIVAL) && (5 <=? level s).

Definition precision_master (s : GameStats) (c : GameSettings) : bool :=
  (20 <? hits s + misses s)
  && Qle_bool (95 # 100) (inject_Z (hits s) / inject_Z (hits s + misses s)).

Definition combo_king (s : GameStats) (c : GameSettings) : bool :=
  50 <=? maxCombo s.

Definition marathon (s : GameStats) (c : GameSettings) : bool :=
  bool_decide (gameMode c = TIME_TRIAL) && Qle_bool 120 (duration c) && (0 <? hits s).

Definition DEFINED_CHALLENGES : list (string * (GameStats -> GameSettings -> bool)) :=
  [ ("novice_survivor"%string, novice_survivor);
    ("precision_master"%string, precision_master);
    ("combo_king"%string, combo_king);
    ("marathon"%string, marathon) ].

(** The effect on [isPlaying]: when the game is over and had a hit, the
    record is saved and each challenge whose condition holds is marked.
    [writable] and [marks] tell which writes the store takes. *)
Definition onGameEnd (settings : GameSettings) (now : Z) (writable : bool)
    (marks : string -> bool) (g : GameStats) (ls : LocalStorage) : LocalStorage :=
  match gameEndEffect settings now g with
  | Some record =>
      fold_left
        (fun ls' '(id, condition) =>
           if condition g settings : bool
           then markChallengeComplete id (marks id) ls' else ls')
        DEFINED_CHALLENGES (saveScore record writable ls)
  | None => ls
  end.

End Challenges.

(** ** App.tsx: the board and the cursor *)

Module Viewport.
Import App.

(** [updateBoardDimensions], for a window of [w] by [h]. *)
Definition updateBoardDimensions (w h : Q) (mode : ScreenMode) : Rect :=
  match mode with
  | BOARD =>
      let width := Qmin (w * (9 # 10)) 800 in
      let height := Qmin (h * (8 # 10)) 600 in
      mkRect ((w - width) / 2) ((h - height) / 2) width height
  | COMPACT =>
      let width := Qmin (w * (8 # 10)) 500 in
      let height := Qmin (h * (6 # 10)) 400 in
      mkRect ((w - width) / 2) ((h - height) / 2) width height
  | FULL => mkRect 0 0 w h
  end%Q.

(** [handleMouseMove]: [locked] tells whether the pointer is locked to the
    game area. *)
Definition handleMouseMove (settings : GameSettings) (g : GameStats) (paused locked : bool)
    (movementX movementY clientX clientY innerWidth innerHeight : Q)
    (cursorPos : Position) : Position :=
  if negb (isPlaying g) || paused then cursorPos
  else if locked then
    let moveX := (movementX * sensitivity settings)%Q in
    let moveY := (movementY * sensitivity settings)%Q in
    {| pos_x := Qmin (Qmax 0 (pos_x cursorPos + moveX)) innerWidth;
       pos_y := Qmin (Qmax 0 (pos_y cursorPos + moveY)) innerHeight |}
  else {| pos_x := clientX; pos_y := clientY |}.

End Viewport.

(** ** The sidebar: presets and sliders *)

Module Sidebar.

Definition with_difficulty (d : Difficulty) (s : GameSettings) : GameSettings :=
  mkSettings (gameMode s) (screenMode s) d (bubbleSize s) (spawnDelay s)
             (duration s) (soundEnabled s) (sensitivity s) (crosshairType s)
             (crosshairColor s).

Definition with_sizes (size delay : Q) (s : GameSettings) : GameSettings :=
  mkSettings (gameMode s) (screenMode s) (difficulty s) size delay
             (duration s) (soundEnabled s) (sensitivity s) (crosshairType s)
             (crosshairColor s).

Definition handleDifficultyChange (diff : Difficulty) (settings : GameSettings)
    : GameSettings :=
  let newSettings := with_difficulty diff settings in
  match diff with
  | EASY => with_sizes 90 400 newSettings
  | NORMAL => with_sizes 60 200 newSettings
  | HARD => with_sizes 40 0 newSettings
  | CUSTOM => newSettings
  end.

(** The three sliders that go through [handleSliderChange], each with the
    [min] and [max] of its input. *)
Inductive Slider := bubbleSizeSlider | spawnDelaySlider | durationSlider.

Definition slider_range (k : Slider) : Z * Z :=
  match k with
  | bubbleSizeSlider => (20, 150)
  | spawnDelaySlider => (0, 1000)
  | durationSlider => (10, 120)
  end.

(** [value] is the [parseInt] of the slider's position. *)
Definition handleSliderChange (key : Slider) (value : Z) (settings : GameSettings)
    : GameSettings :=
  let v := inject_Z value in
  match key with
  | bubbleSizeSlider =>
      mkSettings (gameMode settings) (screenMode settings) CUSTOM v
                 (spawnDelay settings) (duration settings) (soundEnabled settings)
                 (sensitivity settings) (crosshairType settings)
                 (crosshairColor settings)
  | spawnDelaySlider =>
      mkSettings (gameMode settings) (screenMode settings) CUSTOM
                 (bubbleSize settings) v (duration settings) (soundEnabled settings)
                 (sensitivity settings) (crosshairType settings)
                 (crosshairColor settings)
  | durationSlider =>
      mkSettings (gameMode settings) (screenMode settings) CUSTOM
                 (bubbleSize settings) (spawnDelay settings) v (soundEnabled settings)
                 (sensitivity settings) (crosshairType settings)
                 (crosshairColor settings)
  end.

End Sidebar.

(** ** Counting events *)

Module Counting.
Import App.

(** The ticks among the events. *)
Definition is_tick (e : Event) : bool :=
  match e with Tick => true | _ => false end.

(** Events that neither start, pause nor give up. *)
Definition plays_on (e : Event) : Prop :=
  match e with
  | StartGame | Surrender | TogglePause | PointerLockLost => False
  | _ => True
  end.

(** Lives and misses add up, streaks are made of hits, and in Survival
    each level past the first took ten hits in a row. *)
Definition counts_inv (settings : GameSettings) (g : GameStats) : Prop :=
  Session.stats_inv settings g
  /\ lives g + misses g = 3
  /\ maxCombo g <= hits g
  /\ (survival settings = true -> 10 * (level g - 1) + combo g mod 10 <= hits g)
  /\ (survival settings = false -> level g = 1).

(** How many of the events are ticks. *)
Definition ticks (es : list Event) : Z :=
  Z.of_nat (length (List.filter is_tick es)).

End Counting.

(** ** Where the target is *)

Module Placement.
Import App.

(** The square of side [size] at [p] lies on the board. *)
Definition on_board (boardRect : Rect) (p : Position) (size : Q) : Prop :=
  (rect_x boardRect <= pos_x p
   /\ pos_x p + size <= rect_x boardRect + width boardRect
   /\ rect_y boardRect <= pos_y p
   /\ pos_y p + size <= rect_y boardRect + height boardRect)%Q.

(** The target that is up, if any, lies on the board with the size it is
    drawn and hit-tested with. *)
Definition target_on_board (settings : GameSettings) (boardRect : Rect)
    (st : AppState) : Prop :=
  forall p, bubblePos st = Some p ->
            on_board boardRect p (currentSize settings (level (gameStats st))).

(** The two [Math.random()] draws that an event brings are in [0,1). *)
Definition draws_in_range (e : Event) : Prop :=
  match e with
  | SpawnTimeout _ rx ry | SpawnTimeoutAt _ _ rx ry | MouseDown _ _ _ rx ry
  | TouchBubble _ rx ry | ExpiryPoll _ rx ry => (0 <= rx < 1 /\ 0 <= ry < 1)%Q
  | _ => True
  end.

End Placement.

(** ** A full ledger *)

Module LedgerScenarios.
Import Ledger.

(** A store that holds 50 scores of 1000 points. *)
Definition full_ledger : LocalStorage :=
  mkStorage
    (Parsed (Records (repeat (mkRecord 0 1000 5 100 NORMAL TIME_TRIAL []) 50)))
    NoItem NoItem.

End LedgerScenarios.

(** * Settings validation *)

Module ValidationProofs.
Import storageService Validation.
Local Open Scope Q_scope.

Lemma safeNum_range v min max d :
  min <= max -> min <= d <= max -> min <= safeNum v min max d <= max.
Proof.
  intros Hmm Hd. unfold safeNum.
  destruct v as [| | |[q| | |]| | |]; try exact Hd; split;
    try apply Q.le_max_l; try apply Qle_refl; try exact Hmm.
  - apply Q.max_lub; [exact Hmm | apply Q.le_min_l].
  - apply Q.max_lub; [exact Hmm | apply Qle_refl].
Qed.

Lemma safeNum_not_number v min max d :
  (forall n, v = JNumber n -> n = NaN) -> safeNum v min max d = d.
Proof.
  intros Hv. destruct v as [| | |n| | |]; try reflexivity.
  rewrite (Hv n eq_refl). reflexivity.
Qed.

Lemma safeNum_fixed q min max d :
  min <= q <= max -> safeNum (JNumber (Fin q)) min max d == q.
Proof.
  intros [Hlo Hhi]. simpl.
  rewrite (Q.min_r max q Hhi). apply Q.max_r, Hlo.
Qed.

Lemma validateSettings_object data :
  falsy data || negb (typeof_object data) = true ->
  validateSettings data = DEFAULT_SETTINGS.
Proof. intros H. unfold validateSettings. rewrite H. reflexivity. Qed.

Lemma DEFAULT_SETTINGS_in_range : in_range DEFAULT_SETTINGS.
Proof.
  unfold in_range; simpl.
  repeat split; try (apply Qle_bool_iff; reflexivity); try (simpl; lia).
  unfold crosshairTypes. set_solver.
Qed.

Lemma validateSettings_in_range data : in_range (validateSettings data).
Proof.
  unfold validateSettings.
  destruct (falsy data || negb (typeof_object data)); [apply DEFAULT_SETTINGS_in_range|].
  unfold in_range; simpl.
  split; [apply safeNum_range; try split; apply Qle_bool_iff; reflexivity|].
  split; [apply safeNum_range; try split; apply Qle_bool_iff; reflexivity|].
  split; [apply safeNum_range; try split; apply Qle_bool_iff; reflexivity|].
  split; [apply safeNum_range; try split; apply Qle_bool_iff; reflexivity|].
  split.
  - destruct (get data "crosshairType") as [| | | |s| |]; try (unfold crosshairTypes; set_solver).
    case_bool_decide; [assumption | unfold crosshairTypes; set_solver].
  - destruct (get data "crosshairColor") as [| | | |s| |]; try (split; [reflexivity | simpl; lia]).
    destruct (startsWith s "#" && (JS_length s <=? 7)%nat) eqn:E.
    + apply andb_true_iff in E as [E1 E2]. split; [exact E1 | apply Nat.leb_le, E2].
    + split; [reflexivity | simpl; lia].
Qed.


Lemma validateSettings_numeric_policy data :
  falsy data || negb (typeof_object data) = false -> numeric_policy data.
Proof.
  intros Hobj. unfold numeric_policy, numeric_fields, validateSettings.
  rewrite Hobj.
  repeat constructor; simpl; intros; try (apply safeNum_not_number; assumption);
    match goal with H : get _ _ = _ |- _ => rewrite H end; reflexivity.
Qed.

Lemma safeEnum_GameMode m d :
  safeEnum (JString (GameMode_value m)) [TIME_TRIAL; SURVIVAL] GameMode_value d = m.
Proof. destruct m; reflexivity. Qed.

Lemma safeEnum_ScreenMode m d :
  safeEnum (JString (ScreenMode_value m)) [FULL; BOARD; COMPACT] ScreenMode_value d = m.
Proof. destruct m; reflexivity. Qed.

Lemma safeEnum_Difficulty m d :
  safeEnum (JString (Difficulty_value m)) [EASY; NORMAL; HARD; CUSTOM] Difficulty_value d = m.
Proof. destruct m; reflexivity. Qed.

Lemma safeEnum_default {T} val (members : list T) value_of d :
  (forall m, val <> JString (value_of m)) -> safeEnum val members value_of d = d.
Proof.
  intros Hno. destruct val as [| | | |s| |]; try reflexivity. simpl.
  destruct (find _ members) as [m|] eqn:E; [|reflexivity].
  apply find_some in E as [_ E]. apply bool_decide_eq_true_1 in E.
  destruct (Hno m). congruence.
Qed.

Lemma validateSettings_whitelist_policy data :
  falsy data || negb (typeof_object data) = false -> whitelist_policy data.
Proof.
  intros Hobj. unfold whitelist_policy, validateSettings. rewrite Hobj.
  cbn [gameMode screenMode difficulty soundEnabled].
  repeat split; intros;
    try (match goal with H : get _ _ = _ |- _ => rewrite H end;
         first [apply safeEnum_GameMode | apply safeEnum_ScreenMode
               | apply safeEnum_Difficulty | reflexivity]);
    try (apply safeEnum_default; assumption).
  destruct (get data "soundEnabled") as [| |b| | | |]; try reflexivity.
  destruct (H b); reflexivity.
Qed.

Lemma validateSettings_crosshair_policy data :
  falsy data || negb (typeof_object data) = false -> crosshair_policy data.
Proof.
  intros Hobj. unfold crosshair_policy, validateSettings. rewrite Hobj.
  cbn [crosshairType crosshairColor]. split; split.
  - intros t Ht Hin. rewrite Ht, (bool_decide_eq_true_2 _ Hin). reflexivity.
  - intros Hno. destruct (get data "crosshairType") as [| | | |t| |]; try reflexivity.
    case_bool_decide as Hin; [|reflexivity]. destruct (Hno t Hin). reflexivity.
  - intros c Hc Hp Hl. apply Nat.leb_le in Hl. rewrite Hc, Hp, Hl. reflexivity.
  - intros Hbad. destruct (get data "crosshairColor") as [| | | |c| |]; try reflexivity.
    destruct (Hbad c eq_refl) as [Hp|Hl].
    + rewrite Hp. reflexivity.
    + apply Nat.leb_gt in Hl. rewrite Hl, andb_false_r. reflexivity.
Qed.

Lemma validateSettings_fixed s :
  in_range s -> settings_eq (validateSettings (toJS s)) s.
Proof.
  intros (Hb & Hs & Hd & Hse & Ht & Hc1 & Hc2).
  unfold settings_eq, validateSettings. simpl falsy. simpl typeof_object.
  cbn [orb negb].
  change (get (toJS s) "gameMode") with (JString (GameMode_value (gameMode s))).
  change (get (toJS s) "screenMode") with (JString (ScreenMode_value (screenMode s))).
  change (get (toJS s) "difficulty") with (JString (Difficulty_value (difficulty s))).
  change (get (toJS s) "bubbleSize") with (JNumber (Fin (bubbleSize s))).
  change (get (toJS s) "spawnDelay") with (JNumber (Fin (spawnDelay s))).
  change (get (toJS s) "duration") with (JNumber (Fin (duration s))).
  change (get (toJS s) "soundEnabled") with (JBool (soundEnabled s)).
  change (get (toJS s) "sensitivity") with (JNumber (Fin (sensitivity s))).
  change (get (toJS s) "crosshairType") with (JString (crosshairType s)).
  change (get (toJS s) "crosshairColor") with (JString (crosshairColor s)).
  cbn [gameMode screenMode difficulty bubbleSize spawnDelay duration soundEnabled
       sensitivity crosshairType crosshairColor].
  rewrite safeEnum_GameMode, safeEnum_ScreenMode, safeEnum_Difficulty.
  repeat split; try (apply safeNum_fixed; assumption).
  - rewrite bool_decide_eq_true_2 by assumption. reflexivity.
  - rewrite Hc1. apply Nat.leb_le in Hc2. rewrite Hc2. reflexivity.
Qed.

(** C8, as amended.  For every value the validator returns settings
    within the ranges; a value that is not an object gives the defaults;
    an object has each field treated on its own: a numeric field is
    clamped to its bounds when it is a number (not replaced by the default
    when out of range; an infinity becomes the bound on its side) and
    defaulted when it is not; an enum or the sound flag is kept when
    whitelisted and defaulted when not; the crosshair type is kept when it
    is one of the four and defaulted when not; the crosshair colour is
    kept when it is a string that begins with # and has at most 7 code
    units, and defaulted when not.  Validating the result again changes
    nothing. *)
Theorem validateSettings_clamps_and_is_idempotent (data : JSValue) :
  in_range (validateSettings data)
  /\ (if falsy data || negb (typeof_object data)
      then validateSettings data = DEFAULT_SETTINGS
      else numeric_policy data /\ whitelist_policy data /\ crosshair_policy data)
  /\ settings_eq (validateSettings (toJS (validateSettings data)))
                 (validateSettings data).
Proof.
  split; [apply validateSettings_in_range|]. split.
  - destruct (falsy data || negb (typeof_object data)) eqn:E.
    + apply validateSettings_object, E.
    + split; [apply validateSettings_numeric_policy, E|].
      split; [apply validateSettings_whitelist_policy, E
             | apply validateSettings_crosshair_policy, E].
  - apply validateSettings_fixed, validateSettings_in_range.
Qed.

(** C8 fails as stated: the out-of-range [bubbleSize] 1000 comes back as
    the bound 300, not as the default 60. *)
Lemma out_of_range_is_not_defaulted :
  ~ (10 <= 1000 <= 300)
  /\ bubbleSize (validateSettings oversized) == 300
  /\ ~ bubbleSize (validateSettings oversized) == bubbleSize DEFAULT_SETTINGS.
Proof.
  split; [intros [_ H]; apply Qle_bool_iff in H; discriminate|].
  split; [reflexivity | intros H; apply Qeq_bool_iff in H; discriminate].
Qed.

(** The length of a colour is counted in code units, not in bytes. *)
Lemma accented_colour_is_kept :
  String.length "#éééé" = 9%nat /\ JS_length "#éééé" = 5%nat
  /\ crosshairColor (validateSettings accented) = "#éééé"%string.
Proof. repeat split. Qed.

End ValidationProofs.

Module SessionProofs.
Import App Session.

Section Proofs.

Context (settings : GameSettings) (boardRect : Rect) (isMobile : bool).

Local Abbreviation step := (App.step settings boardRect isMobile).
Local Abbreviation handle := (App.handle settings boardRect isMobile).
Local Abbreviation reachable := (App.reachable settings boardRect isMobile).
Local Abbreviation stats_change := (Session.stats_change settings).
Local Abbreviation hits_from := (Session.hits_from settings).
Local Abbreviation misses_from := (Session.misses_from settings).
Local Abbreviation best_combo := (Session.best_combo settings boardRect isMobile).
Local Abbreviation run := (App.run settings boardRect isMobile).
Local Abbreviation control_inv := (Session.control_inv settings).
Local Abbreviation stats_inv := (Session.stats_inv settings).
Local Abbreviation is_hit := (Session.is_hit settings isMobile).
Local Abbreviation is_miss := (Session.is_miss settings isMobile).
Local Abbreviation points_of := (Session.points_of settings).
Local Abbreviation hits_in := (Session.hits_in settings boardRect isMobile).
Local Abbreviation unbroken := (Session.unbroken settings boardRect isMobile).

(** A render changes nothing but the memoised click handler. *)
Lemma render_gameStats old new : gameStats (render old new) = gameStats new.
Proof. unfold render. case_decide; reflexivity. Qed.

Lemma render_isPaused old new : isPaused (render old new) = isPaused new.
Proof. unfold render. case_decide; reflexivity. Qed.

Lemma render_timerRef old new : timerRef (render old new) = timerRef new.
Proof. unfold render. case_decide; reflexivity. Qed.

Lemma render_bubblePos old new : bubblePos (render old new) = bubblePos new.
Proof. unfold render. case_decide; reflexivity. Qed.

Lemma step_gameStats st e : gameStats (step st e) = gameStats (handle e st).
Proof. apply render_gameStats. Qed.

Ltac case_if :=
  match goal with
  | |- context [if ?b then _ else _] => destruct b eqn:?
  | |- context [match ?b with Some _ => _ | None => _ end] => destruct b eqn:?
  end.

(** Each handler changes the statistics as a session does. *)
Lemma handleMiss_change st :
  isPlaying (gameStats st) = true ->
  stats_change (gameStats st) (gameStats (handleMiss settings st)).
Proof.
  intros Hp. unfold handleMiss.
  destruct (miss_ends settings (gameStats st)); cbn; apply ch_miss; exact Hp.
Qed.

Lemma handleHit_change view now rx ry st :
  isPlaying (gameStats st) = true ->
  stats_change (gameStats st)
               (gameStats (handleHit settings boardRect view now rx ry st)).
Proof.
  intros Hp. unfold handleHit.
  destruct (Qlt_bool 0 (nextDelay settings view)); cbn; apply ch_hit; exact Hp.
Qed.

Lemma handle_change e st :
  control_inv st -> e <> StartGame ->
  stats_change (gameStats st) (gameStats (handle e st)).
Proof.
  intros [Hpa Htm] He. destruct e; cbn [App.handle]; try congruence.
  - destruct (respawns st); cbn; constructor.
  - unfold handleGlobalClick.
    destruct (isPlaying (gameStats st)) eqn:Hp; cbn [negb orb]; [|constructor].
    destruct (isPaused st || isMobile); [constructor|].
    destruct (bubblePos st) as [p|]; [|apply handleMiss_change, Hp].
    destruct (hitTest settings cx cy p (level (gameStats st)));
      [apply handleHit_change, Hp | apply handleMiss_change, Hp].
  - case_if; [|constructor].
    unfold handleMobileBubbleInteract.
    destruct (isPlaying (gameStats st)) eqn:Hp; cbn [negb orb]; [|constructor].
    destruct (isPaused st); [constructor | apply handleHit_change, Hp].
  - unfold handleMobileBackgroundClick.
    destruct (isPlaying (gameStats st)) eqn:Hp; cbn [negb orb]; [|constructor].
    destruct (isPaused st || negb isMobile); [constructor | apply handleMiss_change, Hp].
  - unfold tick. destruct (timerRef st) eqn:Ht; [|constructor].
    symmetry in Htm. apply andb_true_iff in Htm as [Htm Hs].
    apply andb_true_iff in Htm as [Hp _]. apply negb_true_iff in Hs.
    destruct (timer_ends (gameStats st)); cbn; apply ch_tick; assumption.
  - unfold expiryPoll, expiry_watch.
    destruct (survival settings); cbn [andb]; [|constructor].
    destruct (isPlaying (gameStats st)) eqn:Hp; cbn [andb]; [|constructor].
    destruct (negb (isPaused st) && bool_decide (bubblePos st <> None)); [|constructor].
    case_if; [|constructor].
    apply (handleMiss_change
             (doSpawn settings boardRect (level (gameStats st)) now rx ry st)), Hp.
  - destruct (isPlaying (gameStats st) || isPaused st); cbn; constructor.
  - unfold togglePause. destruct (negb (isPlaying (gameStats st))); [constructor|].
    destruct (isPaused st); cbn; constructor.
  - unfold handleLockChange. case_if; cbn; constructor.
  - destruct (respawns st !! k); cbn; constructor.
Qed.

(** The timers and the pause flag stay consistent. *)
Ltac fields :=
  cbn [gameStats isPaused timerRef bubblePos respawns isPlaying
       set_gameStats set_isPaused set_bubblePos set_spawnTimes set_timerRef
       set_respawns set_clickStats doSpawn endGame startTimer pause].

Lemma startGame_control st : control_inv (startGame settings st).
Proof. split; cbn; [discriminate | reflexivity]. Qed.

Lemma control_inv_same st st' :
  isPlaying (gameStats st') = isPlaying (gameStats st) ->
  isPaused st' = isPaused st -> timerRef st' = timerRef st ->
  control_inv st -> control_inv st'.
Proof. unfold Session.control_inv. intros -> -> ->. trivial. Qed.

Lemma control_inv_ended st' :
  isPlaying (gameStats st') = false -> isPaused st' = false ->
  timerRef st' = false -> control_inv st'.
Proof. unfold Session.control_inv. intros -> -> ->. split; [discriminate | reflexivity]. Qed.

Lemma handleHit_control view now rx ry st :
  control_inv st -> control_inv (handleHit settings boardRect view now rx ry st).
Proof.
  apply control_inv_same; unfold handleHit;
    destruct (Qlt_bool 0 (nextDelay settings view)); reflexivity.
Qed.

Lemma handleMiss_control st :
  control_inv st -> control_inv (handleMiss settings st).
Proof.
  unfold handleMiss, miss_update.
  destruct (miss_ends settings (gameStats st)).
  - intros _. apply control_inv_ended; reflexivity.
  - apply control_inv_same; reflexivity.
Qed.

Lemma doSpawn_control lvl now rx ry st :
  control_inv st -> control_inv (doSpawn settings boardRect lvl now rx ry st).
Proof. apply control_inv_same; reflexivity. Qed.

Lemma handle_control e st : control_inv st -> control_inv (handle e st).
Proof.
  intros Hc. destruct e; cbn [App.handle].
  - destruct (isPlaying (gameStats st)); [exact Hc | apply startGame_control].
  - destruct (respawns st); [exact Hc|].
    apply doSpawn_control. revert Hc. apply control_inv_same; reflexivity.
  - unfold handleGlobalClick.
    destruct (negb (isPlaying (gameStats st)) || isPaused st || isMobile); [exact Hc|].
    destruct (bubblePos st) as [p|]; [|apply handleMiss_control, Hc].
    destruct (hitTest settings cx cy p (level (gameStats st)));
      [apply handleHit_control, Hc | apply handleMiss_control, Hc].
  - destruct (isMobile && isPlaying (gameStats st) && bool_decide (bubblePos st <> None));
      [|exact Hc].
    unfold handleMobileBubbleInteract.
    destruct (negb (isPlaying (gameStats st)) || isPaused st);
      [exact Hc | apply handleHit_control, Hc].
  - unfold handleMobileBackgroundClick.
    destruct (negb (isPlaying (gameStats st)) || isPaused st || negb isMobile);
      [exact Hc | apply handleMiss_control, Hc].
  - unfold tick. destruct (timerRef st) eqn:Ht; [|exact Hc].
    unfold timer_update. destruct (timer_ends (gameStats st)).
    + apply control_inv_ended; reflexivity.
    + revert Hc. apply control_inv_same; reflexivity.
  - unfold expiryPoll. destruct (expiry_watch settings st); [|exact Hc].
    destruct (maxLifespan (level (gameStats st)) <? now - bubbleSpawnTime st); [|exact Hc].
    apply handleMiss_control, doSpawn_control, Hc.
  - destruct (isPlaying (gameStats st) || isPaused st); [|exact Hc].
    apply control_inv_ended; reflexivity.
  - unfold togglePause. destruct (isPlaying (gameStats st)) eqn:Hp; cbn [negb]; [|exact Hc].
    destruct (isPaused st) eqn:Hpa; split; fields; rewrite ?Hp; auto; discriminate.
  - unfold handleLockChange.
    destruct (isPlaying (gameStats st)) eqn:Hp; cbn [andb]; [|exact Hc].
    destruct (negb (isPaused st) && negb isMobile); [|exact Hc].
    split; fields; rewrite ?Hp; auto.
  - destruct (respawns st !! k); [|exact Hc].
    apply doSpawn_control. revert Hc. apply control_inv_same; reflexivity.
Qed.

(** The statistics stay within their bounds. *)
Lemma survival_true : survival settings = true <-> gameMode settings = SURVIVAL.
Proof. unfold survival. apply bool_decide_eq_true. Qed.

Lemma survival_false : survival settings = false <-> gameMode settings = TIME_TRIAL.
Proof.
  unfold survival. rewrite bool_decide_eq_false.
  destruct (gameMode settings); split; congruence.
Qed.

Lemma startGame_stats_inv : stats_inv (startGame_stats settings).
Proof. unfold Session.stats_inv; cbn. repeat split; lia. Qed.

Lemma stats_change_inv g g' : stats_change g g' -> stats_inv g -> stats_inv g'.
Proof.
  intros Hch (Hl3 & Hsv & Hco & Hlv & Hh & Hm).
  destruct Hch as [|points Hp|Hp|Hp Hs|]; unfold Session.stats_inv.
  - repeat split; tauto || lia.
  - unfold hit_update. cbn [lives combo maxCombo level hits misses isPlaying].
    repeat split; try tauto; try lia.
    destruct (survival settings && (Z.rem (combo g + 1) 10 =? 0)); lia.
  - unfold miss_update, miss_ends.
    destruct (survival settings) eqn:Hs; cbn [andb].
    + destruct (Hsv eq_refl) as [Hl0 Hl1]. specialize (Hl1 Hp).
      destruct (lives g - 1 <=? 0) eqn:Hz;
        cbn [lives combo maxCombo level hits misses isPlaying];
        [|apply Z.leb_gt in Hz]; repeat split; try discriminate; lia.
    + cbn [lives combo maxCombo level hits misses isPlaying].
      repeat split; try discriminate; lia.
  - unfold timer_update.
    destruct (timer_ends g); cbn [lives combo maxCombo level hits misses isPlaying];
      repeat split; try congruence; try lia.
  - unfold surrender_update. cbn [lives combo maxCombo level hits misses isPlaying].
    repeat split; try discriminate; try lia. apply Hsv; assumption.
Qed.

Lemma handle_StartGame st :
  isPlaying (gameStats st) = false -> handle StartGame st = startGame settings st.
Proof. intros H. cbn [App.handle]. rewrite H. reflexivity. Qed.

Lemma render_control old new : control_inv new -> control_inv (render old new).
Proof.
  unfold Session.control_inv.
  rewrite render_gameStats, render_isPaused, render_timerRef. trivial.
Qed.

Lemma StartGame_or_not (e : Event) : e = StartGame \/ e <> StartGame.
Proof. destruct e; (left; reflexivity) || (right; discriminate). Qed.

Lemma reachable_inv st :
  reachable st -> control_inv st /\ stats_inv (gameStats st).
Proof.
  induction 1 as [st0 H0 | st e Hr [Hc Hs]].
  - unfold App.step. rewrite render_gameStats, (handle_StartGame _ H0). split.
    + apply render_control, startGame_control.
    + apply startGame_stats_inv.
  - split; [apply render_control, handle_control, Hc|].
    rewrite step_gameStats.
    destruct (StartGame_or_not e) as [->|He].
    + cbn [App.handle]. destruct (isPlaying (gameStats st)); [exact Hs|].
      apply startGame_stats_inv.
    + eapply stats_change_inv; [apply handle_change|]; assumption.
Qed.

Lemma reachable_run es : forall st, reachable st -> reachable (run st es).
Proof.
  induction es as [|e es IH]; intros st Hr; [exact Hr|].
  cbn [App.run fold_left]. apply IH. apply reach_step, Hr.
Qed.

(** A run that begins with a start, from a state that is not playing. *)
Lemma reachable_session st0 es :
  isPlaying (gameStats st0) = false -> reachable (run st0 (StartGame :: es)).
Proof. intros H0. apply (reachable_run es), reach_start, H0. Qed.

(** *** Hits and misses as events *)

Lemma is_start_false (e : Event) : is_start e = false <-> e <> StartGame.
Proof. destruct e; cbn; split; congruence. Qed.

Lemma handleMiss_stats st :
  gameStats (handleMiss settings st) = miss_update settings (gameStats st).
Proof. unfold handleMiss. destruct (miss_ends settings (gameStats st)); reflexivity. Qed.

Lemma is_hit_playing st e :
  is_hit st e = true -> isPlaying (gameStats st) = true /\ isPaused st = false.
Proof.
  destruct e; cbn [Session.is_hit]; try discriminate; intros H;
    apply andb_true_iff in H as [H _]; apply andb_true_iff in H as [H _];
    apply andb_true_iff in H as [H1 H2]; apply negb_true_iff in H2; auto.
Qed.

Lemma is_miss_playing st e :
  is_miss st e = true -> isPlaying (gameStats st) = true /\ isPaused st = false.
Proof.
  destruct e; cbn [Session.is_miss]; try discriminate; intros H.
  - apply andb_true_iff in H as [H _]. apply andb_true_iff in H as [H _].
    apply andb_true_iff in H as [H1 H2]. apply negb_true_iff in H2. auto.
  - apply andb_true_iff in H as [H _].
    apply andb_true_iff in H as [H1 H2]. apply negb_true_iff in H2. auto.
  - apply andb_true_iff in H as [H _]. unfold expiry_watch in H.
    apply andb_true_iff in H as [H _]. apply andb_true_iff in H as [H H2].
    apply andb_true_iff in H as [_ H1]. apply negb_true_iff in H2. auto.
Qed.

Lemma hit_or_miss st e : is_hit st e = true -> is_miss st e = false.
Proof.
  destruct e; cbn [Session.is_hit Session.is_miss]; try discriminate; try reflexivity.
  intros H. apply andb_true_iff in H as [_ H].
  destruct (bubblePos st) as [p|]; [|discriminate]. rewrite H, andb_false_r. reflexivity.
Qed.

(** A hit event changes the statistics by the updater of [handleHit]. *)
Lemma step_hit st e :
  is_hit st e = true ->
  gameStats (step st e) = hit_update settings (points_of st e) (gameStats st).
Proof.
  intros H. rewrite step_gameStats.
  destruct e; cbn [Session.is_hit] in H; try discriminate;
    apply andb_true_iff in H as [H H4]; apply andb_true_iff in H as [H H3];
    apply andb_true_iff in H as [H1 H2]; apply negb_true_iff in H2;
    cbn [App.handle Session.points_of].
  - apply negb_true_iff in H3.
    unfold handleGlobalClick, handleHit. rewrite H1, H2, H3. cbn [negb orb].
    destruct (bubblePos st) as [p|]; [|discriminate]. rewrite H4.
    destruct (Qlt_bool 0 _); reflexivity.
  - rewrite H3, H1, H4. cbn [andb].
    unfold handleMobileBubbleInteract, handleHit. rewrite H1, H2. cbn [negb orb].
    destruct (Qlt_bool 0 _); reflexivity.
Qed.

(** A miss event changes them by the updater of [handleMiss]. *)
Lemma step_miss st e :
  is_miss st e = true ->
  gameStats (step st e) = miss_update settings (gameStats st).
Proof.
  intros H. rewrite step_gameStats.
  destruct e; cbn [Session.is_miss] in H; try discriminate; cbn [App.handle].
  - apply andb_true_iff in H as [H H4]. apply andb_true_iff in H as [H H3].
    apply andb_true_iff in H as [H1 H2]. apply negb_true_iff in H2, H3.
    unfold handleGlobalClick. rewrite H1, H2, H3. cbn [negb orb].
    destruct (bubblePos st) as [p|]; [|apply handleMiss_stats].
    apply negb_true_iff in H4. rewrite H4. apply handleMiss_stats.
  - apply andb_true_iff in H as [H H3].
    apply andb_true_iff in H as [H1 H2]. apply negb_true_iff in H2.
    unfold handleMobileBackgroundClick. rewrite H1, H2, H3. cbn [negb orb].
    apply handleMiss_stats.
  - apply andb_true_iff in H as [Hw He].
    unfold expiryPoll. rewrite Hw, He. rewrite handleMiss_stats. reflexivity.
Qed.

(** Any other event but a start leaves the counters as they are: only
    [timeLeft] and [isPlaying] can change, by a tick or a surrender. *)
Lemma step_quiet st e :
  is_start e = false -> is_hit st e = false -> is_miss st e = false ->
  score (gameStats (step st e)) = score (gameStats st)
  /\ combo (gameStats (step st e)) = combo (gameStats st)
  /\ maxCombo (gameStats (step st e)) = maxCombo (gameStats st)
  /\ hits (gameStats (step st e)) = hits (gameStats st)
  /\ misses (gameStats (step st e)) = misses (gameStats st)
  /\ lives (gameStats (step st e)) = lives (gameStats st)
  /\ level (gameStats (step st e)) = level (gameStats st).
Proof.
  intros Hs Hh Hm. rewrite step_gameStats.
  destruct e; cbn [Session.is_start] in Hs; try discriminate;
    cbn [Session.is_hit Session.is_miss] in Hh, Hm; cbn [App.handle].
  - destruct (respawns st); cbn; repeat split; reflexivity.
  - unfold handleGlobalClick.
    destruct (isPlaying (gameStats st)); cbn [negb orb andb] in *;
      [|repeat split; reflexivity].
    destruct (isPaused st); cbn [negb orb andb] in *; [repeat split; reflexivity|].
    destruct isMobile; cbn [negb orb andb] in *; [repeat split; reflexivity|].
    destruct (bubblePos st) as [p|]; [|discriminate].
    destruct (hitTest settings cx cy p (level (gameStats st))); discriminate.
  - destruct isMobile; cbn [andb] in *; [|repeat split; reflexivity].
    destruct (isPlaying (gameStats st)) eqn:Hp; cbn [negb orb andb] in *;
      [|repeat split; reflexivity].
    destruct (bool_decide (bubblePos st <> None)); [|repeat split; reflexivity].
    unfold handleMobileBubbleInteract. rewrite Hp. cbn [negb orb].
    destruct (isPaused st); [repeat split; reflexivity | discriminate].
  - unfold handleMobileBackgroundClick.
    destruct (isPlaying (gameStats st)); cbn [negb orb andb] in *;
      [|repeat split; reflexivity].
    destruct (isPaused st); cbn [negb orb andb] in *; [repeat split; reflexivity|].
    destruct isMobile; [discriminate | repeat split; reflexivity].
  - unfold tick. destruct (timerRef st); [|repeat split; reflexivity].
    unfold timer_update. destruct (timer_ends (gameStats st)); repeat split; reflexivity.
  - unfold expiryPoll. destruct (expiry_watch settings st); [|repeat split; reflexivity].
    cbn [andb] in Hm. rewrite Hm. repeat split; reflexivity.
  - destruct (isPlaying (gameStats st) || isPaused st); repeat split; reflexivity.
  - unfold togglePause. destruct (negb (isPlaying (gameStats st)));
      [repeat split; reflexivity|].
    destruct (isPaused st); repeat split; reflexivity.
  - unfold handleLockChange. case_if; repeat split; reflexivity.
  - destruct (respawns st !! k); repeat split; reflexivity.
Qed.

(** *** Lives *)

Lemma stats_change_lives g g' :
  stats_change g g' -> stats_inv g ->
  lives g' = lives g
  \/ (g' = miss_update settings g /\ lives g' = lives g - 1).
Proof.
  intros Hch (_ & Hsv & _).
  destruct Hch as [|points Hp|Hp|Hp Hs|]; try (left; reflexivity).
  - right. split; [reflexivity|]. unfold miss_update, miss_ends.
    destruct (survival settings) eqn:Hs; cbn [andb]; [|reflexivity].
    destruct (Hsv eq_refl) as [_ Hl1]. specialize (Hl1 Hp).
    destruct (lives g - 1 <=? 0) eqn:Hz; cbn [lives]; [|reflexivity].
    apply Z.leb_le in Hz. lia.
  - left. unfold timer_update. destruct (timer_ends g); reflexivity.
Qed.

Lemma miss_update_survival g :
  survival settings = true -> 1 <= lives g -> isPlaying g = true ->
  (isPlaying (miss_update settings g) = false <-> lives (miss_update settings g) = 0).
Proof.
  intros Hs Hl Hp. unfold miss_update, miss_ends. rewrite Hs. cbn [andb].
  destruct (lives g - 1 <=? 0) eqn:Hz; cbn [lives isPlaying].
  - tauto.
  - apply Z.leb_gt in Hz. rewrite Hp. split; [discriminate | lia].
Qed.

Lemma miss_update_time_trial g :
  survival settings = false ->
  miss_update settings g
  = mkStats (Z.max 0 (score g - 50)) 0 (maxCombo g) (hits g) (misses g + 1)
            (timeLeft g) (lives g - 1) (level g) (isPlaying g).
Proof. intros Hs. unfold miss_update, miss_ends. rewrite Hs. reflexivity. Qed.

Lemma miss_update_lives g :
  stats_inv g -> isPlaying g = true ->
  lives (miss_update settings g) = lives g - 1
  /\ misses (miss_update settings g) = misses g + 1.
Proof.
  intros (_ & Hsv & _) Hp. unfold miss_update, miss_ends.
  destruct (survival settings) eqn:Hs; cbn [andb]; [|split; reflexivity].
  destruct (Hsv eq_refl) as [_ Hl1]. specialize (Hl1 Hp).
  destruct (lives g - 1 <=? 0) eqn:Hz; cbn [lives misses]; [|split; reflexivity].
  apply Z.leb_le in Hz. split; [lia | reflexivity].
Qed.

(** C3, as amended.  In a session [lives] never exceeds 3.  A miss (a
    click beside the target or with no target up, a tap on the
    background, an expired target) changes the statistics by the updater
    of [handleMiss], which takes exactly one life and counts one miss, in
    either mode; any other event but a new start leaves [lives] and
    [misses] as they are; so no such event raises [lives].  In Survival
    [lives] stays within [0,3] and is at least 1 while the session runs,
    and a miss ends the session exactly when it brings [lives] to 0.  In
    a time trial a miss never ends the session. *)
Theorem lives_in_session st e :
  reachable st ->
  let prev := gameStats st in
  let next := gameStats (step st e) in
  lives prev <= 3
  /\ (is_miss st e = true ->
      next = miss_update settings prev
      /\ lives next = lives prev - 1 /\ misses next = misses prev + 1)
  /\ (e <> StartGame -> is_miss st e = false ->
      lives next = lives prev /\ misses next = misses prev)
  /\ (e <> StartGame -> lives next <= lives prev)
  /\ (gameMode settings = SURVIVAL ->
      0 <= lives prev <= 3
      /\ (isPlaying prev = true -> 1 <= lives prev)
      /\ (is_miss st e = true -> (isPlaying next = false <-> lives next = 0)))
  /\ (gameMode settings = TIME_TRIAL ->
      is_miss st e = true -> isPlaying next = true).
Proof.
  intros Hr prev next. destruct (reachable_inv st Hr) as [Hc Hs].
  pose proof Hs as (Hl3 & Hsv & _).
  assert (Hmiss : is_miss st e = true ->
                  next = miss_update settings prev
                  /\ lives next = lives prev - 1 /\ misses next = misses prev + 1).
  { intros Hm. destruct (is_miss_playing st e Hm) as [Hp _].
    assert (Hn : next = miss_update settings prev) by (apply step_miss, Hm).
    split; [exact Hn|]. rewrite Hn. apply miss_update_lives; assumption. }
  assert (Hother : e <> StartGame -> is_miss st e = false ->
                   lives next = lives prev /\ misses next = misses prev).
  { intros He Hm. apply is_start_false in He.
    destruct (is_hit st e) eqn:Hh.
    - subst next. rewrite (step_hit st e Hh). split; reflexivity.
    - destruct (step_quiet st e He Hh Hm) as (_ & _ & _ & _ & Hmi & Hli & _).
      split; assumption. }
  split; [exact Hl3|]. split; [exact Hmiss|]. split; [exact Hother|].
  split; [|split].
  - intros He. destruct (is_miss st e) eqn:Hm.
    + destruct (Hmiss eq_refl) as (_ & Hl & _). lia.
    + destruct (Hother He eq_refl) as [Hl _]. lia.
  - intros Hmode. apply survival_true in Hmode. destruct (Hsv Hmode) as [Hl0 Hl1].
    split; [unfold prev; lia|]. split; [exact Hl1|].
    intros Hm. destruct (is_miss_playing st e Hm) as [Hp _].
    destruct (Hmiss Hm) as (Hn & _). rewrite Hn.
    apply miss_update_survival; auto.
  - intros Hmode Hm. apply survival_false in Hmode.
    destruct (is_miss_playing st e Hm) as [Hp _].
    destruct (Hmiss Hm) as (Hn & _). rewrite Hn.
    rewrite (miss_update_time_trial _ Hmode). exact Hp.
Qed.

(** *** The countdown *)

Local Open Scope Q_scope.

Lemma timer_ends_true g : timer_ends g = true <-> timeLeft g <= 1.
Proof. apply Qle_bool_iff. Qed.

Lemma timer_ends_false g : timer_ends g = false <-> 1 < timeLeft g.
Proof.
  rewrite <- not_true_iff_false, timer_ends_true.
  split; [apply Qnot_le_lt | apply Qlt_not_le].
Qed.

Lemma timer_ends_whole g k :
  timeLeft g == inject_Z k -> (timer_ends g = true <-> (k <= 1)%Z).
Proof.
  intros Hk. rewrite timer_ends_true, Hk.
  change 1 with (inject_Z 1). rewrite <- Zle_Qle. reflexivity.
Qed.

Lemma startGame_countdown :
  0 < duration settings -> countdown_inv (startGame_stats settings).
Proof. intros Hd. split; cbn; [lra | tauto]. Qed.

Lemma stats_change_countdown g g' :
  survival settings = false ->
  stats_change g g' -> countdown_inv g -> countdown_inv g'.
Proof.
  intros Hs Hch [H0 Hp0].
  destruct Hch as [|points Hp|Hp|Hp _|]; unfold Session.countdown_inv.
  - tauto.
  - unfold hit_update. cbn [timeLeft isPlaying]. tauto.
  - rewrite (miss_update_time_trial _ Hs). cbn [timeLeft isPlaying]. tauto.
  - unfold timer_update. destruct (timer_ends g) eqn:E; cbn [timeLeft isPlaying].
    + split; [lra|]. split; [discriminate | lra].
    + apply timer_ends_false in E. split; [lra|]. split; [lra | intros _; exact Hp].
  - cbn. split; [lra|]. split; [discriminate | lra].
Qed.

Lemma startGame_whole_countdown d :
  duration settings == inject_Z d -> (1 <= d)%Z ->
  whole_countdown_inv (startGame_stats settings).
Proof.
  intros Hd H1. exists d. cbn. split; [exact Hd|]. split; [lia | tauto].
Qed.

Lemma stats_change_whole_countdown g g' :
  survival settings = false ->
  stats_change g g' -> whole_countdown_inv g -> whole_countdown_inv g'.
Proof.
  intros Hs Hch (k & Hk & Hk0 & Hkp).
  destruct Hch as [|points Hp|Hp|Hp _|].
  - exists k. tauto.
  - exists k. unfold hit_update. cbn [timeLeft isPlaying]. tauto.
  - exists k. rewrite (miss_update_time_trial _ Hs). cbn [timeLeft isPlaying]. tauto.
  - pose proof (timer_ends_whole g k Hk) as Hte. unfold timer_update.
    destruct (timer_ends g) eqn:E; cbn [timeLeft isPlaying].
    + exists 0%Z. split; [reflexivity|]. split; [lia|]. split; [discriminate | lia].
    + exists (k - 1)%Z. cbn [timeLeft isPlaying]. split.
      * rewrite Hk. unfold Zminus. rewrite inject_Z_plus. reflexivity.
      * assert (~ (k <= 1)%Z) by (intros Hle; apply Hte in Hle; discriminate).
        split; [lia|]. split; [lia | intros _; exact Hp].
  - exists 0%Z. cbn. split; [reflexivity|]. split; [lia|]. split; [discriminate | lia].
Qed.

(** An invariant of the statistics that a start sets up and every change
    keeps holds in every state of a session. *)
Lemma reachable_stats_invariant (P : GameStats -> Prop) st :
  P (startGame_stats settings) ->
  (forall g g', stats_change g g' -> P g -> P g') ->
  reachable st -> P (gameStats st).
Proof.
  intros Hstart Hkeep.
  induction 1 as [st0 H0 | st e Hr IH].
  - rewrite step_gameStats, (handle_StartGame _ H0). exact Hstart.
  - rewrite step_gameStats. destruct (StartGame_or_not e) as [->|He].
    + cbn [App.handle]. destruct (isPlaying (gameStats st)); [exact IH | exact Hstart].
    + eapply Hkeep; [apply handle_change | exact IH];
        [apply reachable_inv, Hr | exact He].
Qed.

Lemma countdown_inv_ended g :
  countdown_inv g -> (isPlaying g = false <-> timeLeft g == 0).
Proof.
  intros [H0 Hp]. destruct (isPlaying g); split; intros H; try discriminate;
    try reflexivity.
  - assert (0 < timeLeft g) by (apply Hp; reflexivity). lra.
  - destruct (Qlt_le_dec 0 (timeLeft g)) as [Hlt|Hle]; [|lra].
    apply Hp in Hlt. discriminate.
Qed.

(** C4, as amended.  In a time trial, in every state of a session
    [timeLeft] is not negative and the session has ended exactly when
    [timeLeft] is 0.  While the session runs and is not paused the
    countdown is on; its tick takes 1 from [timeLeft] when more than 1 is
    left, and otherwise sets it to 0 and ends the session.  When the
    duration is a whole number of seconds every tick takes exactly 1. *)
Theorem countdown_in_time_trial st :
  gameMode settings = TIME_TRIAL -> 0 < duration settings ->
  reachable st ->
  let prev := gameStats st in
  let next := gameStats (step st Tick) in
  0 <= timeLeft prev
  /\ (isPlaying prev = false <-> timeLeft prev == 0)
  /\ (isPlaying prev = true -> isPaused st = false ->
      timerRef st = true
      /\ (1 < timeLeft prev ->
          timeLeft next == timeLeft prev - 1 /\ isPlaying next = true)
      /\ (timeLeft prev <= 1 -> timeLeft next == 0 /\ isPlaying next = false)
      /\ (forall d : Z, duration settings == inject_Z d ->
                        timeLeft next == timeLeft prev - 1)).
Proof.
  intros Hm Hd Hr prev next. apply survival_false in Hm.
  assert (Hcd : countdown_inv prev).
  { apply (reachable_stats_invariant (Session.countdown_inv)); trivial.
    - apply startGame_countdown, Hd.
    - intros g g'. apply stats_change_countdown, Hm. }
  split; [apply Hcd|]. split; [apply countdown_inv_ended, Hcd|].
  intros Hp Hpa. destruct (reachable_inv st Hr) as [[_ Htm] _].
  fold prev in Htm. rewrite Hp, Hpa, Hm in Htm. cbn in Htm.
  assert (Hnext : next = timer_update prev).
  { subst next. rewrite step_gameStats. cbn [App.handle]. unfold tick.
    rewrite Htm. fold prev. destruct (timer_ends prev); reflexivity. }
  split; [exact Htm|]. rewrite Hnext. unfold timer_update.
  split; [|split].
  - intros H1. apply timer_ends_false in H1. rewrite H1. cbn.
    split; [reflexivity | exact Hp].
  - intros H1. apply timer_ends_true in H1. rewrite H1. cbn. split; reflexivity.
  - intros d Hdur.
    assert (H1 : (1 <= d)%Z).
    { rewrite Hdur in Hd. change 0 with (inject_Z 0) in Hd.
      rewrite <- Zlt_Qlt in Hd. lia. }
    assert (Hw : whole_countdown_inv prev).
    { apply (reachable_stats_invariant (Session.whole_countdown_inv)); trivial.
      - apply (startGame_whole_countdown d Hdur H1).
      - intros g g'. apply stats_change_whole_countdown, Hm. }
    destruct Hw as (k & Hk & Hk0 & Hkp).
    pose proof (timer_ends_whole _ k Hk) as Hte.
    destruct (timer_ends prev) eqn:E; cbn; [|reflexivity].
    assert (k <= 1)%Z by (apply Hte; reflexivity).
    assert (1 <= k)%Z by (apply Hkp; exact Hp).
    assert (k = 1)%Z as Hk1 by lia. rewrite Hk, Hk1. reflexivity.
Qed.

Local Close Scope Q_scope.

(** *** Combo and level *)

Lemma hit_update_level points prev :
  level (hit_update settings points prev)
  = if survival settings && (Z.rem (combo prev + 1) 10 =? 0)
    then level prev + 1 else level prev.
Proof. reflexivity. Qed.

Lemma stats_change_level g g' : stats_change g g' -> level g <= level g'.
Proof.
  intros [|points Hp|Hp|Hp Hs|]; try reflexivity.
  - rewrite hit_update_level. destruct (_ && _); lia.
  - unfold miss_update. destruct (miss_ends settings g); reflexivity.
  - unfold timer_update. destruct (timer_ends g); reflexivity.
Qed.

Lemma hits_from_survival pts : forall g,
  survival settings = true -> 0 <= combo g ->
  combo (hits_from g pts) = combo g + Z.of_nat (length pts)
  /\ level (hits_from g pts)
     = level g + (combo g + Z.of_nat (length pts)) / 10 - combo g / 10.
Proof.
  induction pts as [|p pts IH]; intros g Hs Hc.
  - cbn [Session.hits_from fold_left length Z.of_nat]. rewrite Z.add_0_r. lia.
  - cbn [Session.hits_from fold_left length].
    destruct (IH (hit_update settings p g) Hs) as [IHc IHl]; [cbn; lia|].
    change (fold_left _ pts ?x) with (hits_from x pts).
    rewrite IHc, IHl, hit_update_level, Hs. cbn [andb].
    change (combo (hit_update settings p g)) with (combo g + 1).
    split; [lia|].
    replace (combo g + 1 + Z.of_nat (length pts))
      with (combo g + Z.of_nat (S (length pts))) by lia.
    rewrite Z.rem_mod_nonneg by lia.
    destruct (Z.eqb_spec ((combo g + 1) mod 10) 0) as [E|E];
      Z.div_mod_to_equations; lia.
Qed.

(** What the updater of [handleHit] does to combo and level. *)
Lemma hit_update_combo_and_level points prev :
  combo (hit_update settings points prev) = combo prev + 1
  /\ (gameMode settings = SURVIVAL ->
      (level (hit_update settings points prev) = level prev + 1
       <-> (10 | combo (hit_update settings points prev)))
      /\ (level (hit_update settings points prev) = level prev
          <-> ~ (10 | combo (hit_update settings points prev))))
  /\ (gameMode settings = TIME_TRIAL ->
      level (hit_update settings points prev) = level prev).
Proof.
  split; [reflexivity|]. split.
  - intros Hm. apply survival_true in Hm.
    rewrite hit_update_level, Hm. cbn [combo andb].
    rewrite <- (Z.rem_divide (combo prev + 1) 10) by lia.
    destruct (Z.eqb_spec (Z.rem (combo prev + 1) 10) 0) as [E|E];
      split; split; intros; try tauto; try lia.
  - intros Hm. apply survival_false in Hm.
    rewrite hit_update_level, Hm. reflexivity.
Qed.

(** One event of a run without a miss or a new start. *)
Lemma step_combo_level st e :
  reachable st -> survival settings = true ->
  is_start e = false -> is_miss st e = false ->
  let h := if is_hit st e then 1 else 0 in
  combo (gameStats (step st e)) = combo (gameStats st) + h
  /\ level (gameStats (step st e))
     = level (gameStats st)
       + (combo (gameStats st) + h) / 10 - combo (gameStats st) / 10.
Proof.
  intros Hr Hs He Hm h. subst h.
  destruct (reachable_inv st Hr) as [_ (_ & _ & Hco & _)].
  destruct (is_hit st e) eqn:Hh.
  - rewrite (step_hit st e Hh), hit_update_level, Hs. cbn [combo andb].
    split; [reflexivity|].
    rewrite Z.rem_mod_nonneg by lia.
    destruct (Z.eqb_spec ((combo (gameStats st) + 1) mod 10) 0) as [E|E];
      Z.div_mod_to_equations; lia.
  - destruct (step_quiet st e He Hh Hm) as (_ & Hc & _ & _ & _ & _ & Hl).
    rewrite Hc, Hl, Z.add_0_r. lia.
Qed.

(** A run without a miss or a new start: the combo grows by the hits, and
    the level by the multiples of 10 that the combo passes. *)
Lemma run_combo_level es : forall st,
  reachable st -> survival settings = true -> unbroken st es = true ->
  combo (gameStats (run st es)) = combo (gameStats st) + hits_in st es
  /\ level (gameStats (run st es))
     = level (gameStats st)
       + (combo (gameStats st) + hits_in st es) / 10 - combo (gameStats st) / 10.
Proof.
  induction es as [|e es IH]; intros st Hr Hs Hu.
  - cbn [App.run fold_left Session.hits_in]. rewrite Z.add_0_r. lia.
  - cbn [Session.unbroken] in Hu. apply andb_true_iff in Hu as [Hu Hu'].
    apply andb_true_iff in Hu as [Hm He]. apply negb_true_iff in Hm, He.
    cbn [App.run fold_left Session.hits_in].
    change (fold_left _ es ?x) with (run x es).
    destruct (IH (step st e) (reach_step _ _ _ st e Hr) Hs Hu') as [IHc IHl].
    destruct (step_combo_level st e Hr Hs He Hm) as [Hc Hl].
    rewrite IHc, IHl, Hc, Hl. split; [lia|].
    replace (combo (gameStats st) + (if is_hit st e then 1 else 0) + hits_in (step st e) es)
      with (combo (gameStats st) + ((if is_hit st e then 1 else 0) + hits_in (step st e) es))
      by lia.
    lia.
Qed.

(** C5.  A hit (a click within the target on the desktop, a tap on it on
    a touch device, while the session runs and is not paused) changes the
    statistics by the updater of [handleHit]: it adds exactly 1 to
    [combo] and to [hits]; in Survival it adds 1 to [level] exactly when
    the new combo is a multiple of 10 and leaves it otherwise; in a time
    trial it leaves [level] alone.  No other event but a new start changes
    [hits].  Along events without a miss or a new start the combo
    grows by the number of hits and the level by the multiples of 10 the
    combo passes, so from level 1 and combo 0 the level is 1 up to the
    ninth hit and 2 at the tenth.  No event of a session lowers
    [level]. *)
Theorem combo_and_level_on_hit st :
  reachable st ->
  let prev := gameStats st in
  (forall e, is_hit st e = true ->
     let next := gameStats (step st e) in
     next = hit_update settings (points_of st e) prev
     /\ combo next = combo prev + 1 /\ hits next = hits prev + 1
     /\ (gameMode settings = SURVIVAL ->
         (level next = level prev + 1 <-> (10 | combo next))
         /\ (level next = level prev <-> ~ (10 | combo next)))
     /\ (gameMode settings = TIME_TRIAL -> level next = level prev))
  /\ (forall e, e <> StartGame -> is_hit st e = false ->
        hits (gameStats (step st e)) = hits prev)
  /\ (forall es, gameMode settings = SURVIVAL -> unbroken st es = true ->
        combo (gameStats (run st es)) = combo prev + hits_in st es
        /\ level (gameStats (run st es))
           = level prev + (combo prev + hits_in st es) / 10 - combo prev / 10)
  /\ (forall es, gameMode settings = SURVIVAL -> unbroken st es = true ->
        combo prev = 0 -> level prev = 1 ->
        (hits_in st es < 10 -> level (gameStats (run st es)) = 1)
        /\ (hits_in st es = 10 -> level (gameStats (run st es)) = 2))
  /\ (forall e, e <> StartGame -> level prev <= level (gameStats (step st e))).
Proof.
  intros Hr prev.
  assert (Hin : forall st' es', 0 <= hits_in st' es').
  { intros st' es'. revert st'. induction es' as [|e' es' IH]; intros st'; cbn; [lia|].
    specialize (IH (step st' e')). destruct (is_hit st' e'); lia. }
  split; [|split; [|split; [|split]]].
  - intros e Hh next. subst next. rewrite (step_hit st e Hh).
    split; [reflexivity|].
    destruct (hit_update_combo_and_level (points_of st e) prev) as (Hc & Hs & Ht).
    split; [exact Hc|]. split; [reflexivity|]. split; assumption.
  - intros e He Hh. apply is_start_false in He.
    destruct (is_miss st e) eqn:Hm.
    + rewrite (step_miss st e Hm). unfold miss_update.
      destruct (miss_ends settings (gameStats st)); reflexivity.
    + apply (step_quiet st e He Hh Hm).
  - intros es Hm Hu. apply survival_true in Hm. apply run_combo_level; assumption.
  - intros es Hm Hu Hc Hl. apply survival_true in Hm.
    destruct (run_combo_level es st Hr Hm Hu) as [_ Hlv].
    fold prev in Hlv. rewrite Hlv, Hc, Hl. specialize (Hin st es).
    split; intros Hn.
    + rewrite Z.add_0_l, Z.div_small by lia. reflexivity.
    + rewrite Hn. reflexivity.
  - intros e He. rewrite step_gameStats.
    apply stats_change_level, handle_change; [apply reachable_inv, Hr | exact He].
Qed.

(** *** The largest combo of a session *)

Lemma stats_change_maxCombo g g' :
  stats_change g g' -> stats_inv g ->
  maxCombo g' = Z.max (maxCombo g) (combo g').
Proof.
  intros Hch (_ & _ & Hco & _).
  destruct Hch as [|points Hp|Hp|Hp Hs|]; try (cbn; lia).
  - unfold miss_update. destruct (miss_ends settings g); cbn; lia.
  - unfold timer_update. destruct (timer_ends g); cbn; lia.
Qed.

(** X19.  In a session [combo] never exceeds [maxCombo]; no event lowers
    [maxCombo]; a hit makes it the larger of itself and the new combo; a
    miss leaves it alone; a start resets it. *)
Lemma maxCombo_in_session st e :
  reachable st ->
  0 <= combo (gameStats st) <= maxCombo (gameStats st)
  /\ (e <> StartGame ->
      maxCombo (gameStats st) <= maxCombo (gameStats (step st e)))
  /\ (forall points,
        maxCombo (hit_update settings points (gameStats st))
        = Z.max (maxCombo (gameStats st)) (combo (gameStats st) + 1))
  /\ maxCombo (miss_update settings (gameStats st)) = maxCombo (gameStats st)
  /\ maxCombo (startGame_stats settings) = 0.
Proof.
  intros Hr. destruct (reachable_inv st Hr) as [Hc Hs].
  pose proof Hs as (_ & _ & Hco & _).
  split; [exact Hco|]. split; [|split; [|split]].
  - intros He. rewrite step_gameStats.
    rewrite (stats_change_maxCombo (gameStats st) (gameStats (handle e st)));
      [lia | apply handle_change; assumption | assumption].
  - reflexivity.
  - unfold miss_update. destruct (miss_ends settings (gameStats st)); reflexivity.
  - reflexivity.
Qed.

(** X20.  So [maxCombo] is the largest combo reached since the start. *)
Lemma maxCombo_is_best_combo es : forall st,
  reachable st -> Forall (fun e => e <> StartGame) es ->
  maxCombo (gameStats (run st es))
  = Z.max (maxCombo (gameStats st)) (best_combo st es).
Proof.
  induction es as [|e es IH]; intros st Hr Hes.
  - cbn. destruct (reachable_inv st Hr) as [_ (_ & _ & Hco & _)]. lia.
  - apply Forall_cons in Hes as [He Hes].
    cbn [App.run fold_left Session.best_combo].
    change (fold_left _ es ?x) with (run x es).
    rewrite (IH _ (reach_step _ _ _ st e Hr) Hes).
    destruct (reachable_inv st Hr) as [Hc Hs].
    pose proof Hs as (_ & _ & Hco & _).
    assert (Hstep : maxCombo (gameStats (step st e))
                    = Z.max (maxCombo (gameStats st)) (combo (gameStats (step st e)))).
    { rewrite step_gameStats. apply stats_change_maxCombo;
        [apply handle_change|]; assumption. }
    assert (Hin : combo (gameStats (step st e)) <= best_combo (step st e) es).
    { destruct es; cbn; lia. }
    lia.
Qed.

(** *** Misses *)

(** A miss that does not end the session resets the combo and takes 50
    points, the score stopping at 0. *)
Lemma miss_update_running g :
  miss_ends settings g = false ->
  combo (miss_update settings g) = 0
  /\ score (miss_update settings g) = Z.max 0 (score g - 50).
Proof. intros H. unfold miss_update. rewrite H. split; reflexivity. Qed.

(** The miss that ends a Survival session leaves combo and score alone. *)
Lemma miss_update_last g :
  miss_ends settings g = true ->
  combo (miss_update settings g) = combo g
  /\ score (miss_update settings g) = score g
  /\ isPlaying (miss_update settings g) = false.
Proof. intros H. unfold miss_update. rewrite H. repeat split; reflexivity. Qed.

(** No run of misses takes the score below 0. *)
Lemma misses_keep_score n : forall g,
  0 <= score g -> 0 <= score (misses_from g n).
Proof.
  induction n as [|n IH]; intros g Hg; [exact Hg|].
  cbn [Session.misses_from]. apply IH. unfold miss_update.
  destruct (miss_ends settings g); cbn [score]; lia.
Qed.

(** *** Points *)

(** When the handler's [gameStats] is the current one, the hit adds the
    points of the formula, with the combo as it is before the hit. *)
Lemma hit_points_current view prev reactionTime :
  combo view = combo prev ->
  score (hit_update settings (hitPoints settings view reactionTime) prev)
  = score prev
    + Math_round
        (inject_Z (100 + Z.max 0 (100 - reactionTime / 10))
         * (150 / bubbleSize settings)
         * (1 + inject_Z (combo prev) * (1 # 10)))%Q.
Proof. intros Hc. unfold hitPoints. rewrite Hc. reflexivity. Qed.

(** A tap on the target is scored with the current [gameStats]. *)
Lemma tap_stats now rx ry st :
  isMobile = true -> isPlaying (gameStats st) = true -> isPaused st = false ->
  bubblePos st <> None ->
  gameStats (step st (TouchBubble now rx ry))
  = hit_update settings
      (hitPoints settings (gameStats st) (now - lastClickTime st)) (gameStats st).
Proof.
  intros Hm Hp Hpa Hb. rewrite step_gameStats. cbn [App.handle].
  rewrite Hm, Hp, (bool_decide_eq_true_2 _ Hb). cbn [andb].
  unfold handleMobileBubbleInteract, handleHit. rewrite Hp, Hpa. cbn [negb orb].
  destruct (Qlt_bool 0 _); reflexivity.
Qed.

(** A click on the target is scored with the [gameStats] its handler
    closed over. *)
Lemma click_stats cx cy now rx ry st p :
  isMobile = false -> isPlaying (gameStats st) = true -> isPaused st = false ->
  bubblePos st = Some p -> hitTest settings cx cy p (level (gameStats st)) = true ->
  gameStats (step st (MouseDown cx cy now rx ry))
  = hit_update settings
      (hitPoints settings (clickStats st) (now - lastClickTime st)) (gameStats st).
Proof.
  intros Hm Hp Hpa Hb Hh. rewrite step_gameStats. cbn [App.handle].
  unfold handleGlobalClick, handleHit. rewrite Hm, Hp, Hpa, Hb, Hh. cbn [negb orb].
  destruct (Qlt_bool 0 _); reflexivity.
Qed.

(** A click beside the target that does not end the session changes none
    of the dependencies of [handleGlobalClick]: the next click runs the
    same handler, with the [gameStats] it closed over before the miss. *)
Lemma miss_keeps_click_handler cx cy now rx ry st :
  isMobile = false -> isPlaying (gameStats st) = true -> isPaused st = false ->
  miss_ends settings (gameStats st) = false ->
  (forall p, bubblePos st = Some p ->
             hitTest settings cx cy p (level (gameStats st)) = false) ->
  gameStats (step st (MouseDown cx cy now rx ry)) = miss_update settings (gameStats st)
  /\ clickStats (step st (MouseDown cx cy now rx ry)) = clickStats st.
Proof.
  intros Hm Hp Hpa He Hoff.
  assert (Hh : App.handle settings boardRect isMobile (MouseDown cx cy now rx ry) st
               = handleMiss settings st).
  { cbn [App.handle]. unfold handleGlobalClick. rewrite Hm, Hp, Hpa. cbn [negb orb].
    destruct (bubblePos st) as [p|] eqn:Hb; [|reflexivity].
    rewrite (Hoff p eq_refl). reflexivity. }
  unfold App.step. rewrite Hh. unfold handleMiss. rewrite He.
  assert (Hd : clickDeps st = clickDeps (set_gameStats (miss_update settings (gameStats st)) st)).
  { unfold clickDeps, miss_update. rewrite He. cbn. rewrite Hp. reflexivity. }
  unfold render. rewrite (decide_True_pi Hd). split; reflexivity.
Qed.

(** *** Pending respawns *)

(** Giving up leaves the pending respawns pending. *)
Lemma surrender_keeps_respawns st :
  respawns (step st Surrender) = respawns st.
Proof.
  unfold App.step, render. cbn [App.handle].
  destruct (isPlaying (gameStats st) || isPaused st); case_decide; reflexivity.
Qed.

(** A pending respawn puts its target up when it fires, whether the
    session runs or not. *)
Lemma respawn_ignores_isPlaying now rx ry st lvl rest :
  respawns st = lvl :: rest ->
  bubblePos (step st (SpawnTimeout now rx ry))
  = Some (spawnBubble settings boardRect lvl rx ry)
  /\ gameStats (step st (SpawnTimeout now rx ry)) = gameStats st.
Proof.
  intros Hr. unfold App.step. rewrite render_bubblePos, render_gameStats.
  cbn [App.handle]. rewrite Hr. split; reflexivity.
Qed.


(** *** The record of a finished session *)

Local Open Scope Q_scope.

(** When a session has ended, a record is handed to [saveScore] exactly
    when the session had at least one hit; its accuracy is
    hits / (hits + misses) * 100.  A session without any hit or miss
    hands nothing over; the accuracy on display is 100 then. *)
Lemma record_handed_iff_a_hit st now :
  reachable st -> isPlaying (gameStats st) = false ->
  (is_Some (gameEndEffect settings now (gameStats st)) <-> (0 < hits (gameStats st))%Z)
  /\ (forall r, gameEndEffect settings now (gameStats st) = Some r ->
        rec_accuracy r
        = inject_Z (hits (gameStats st))
          / inject_Z (hits (gameStats st) + misses (gameStats st)) * 100
        /\ rec_score r = score (gameStats st)
        /\ rec_maxCombo r = maxCombo (gameStats st))
  /\ ((hits (gameStats st) + misses (gameStats st) = 0)%Z ->
      gameEndEffect settings now (gameStats st) = None
      /\ accuracy (gameStats st) = 100).
Proof.
  intros Hr Hp. destruct (reachable_inv st Hr) as [_ (_ & _ & _ & _ & Hh & Hm)].
  unfold gameEndEffect, accuracy. rewrite Hp. cbn [negb andb].
  destruct (Z.ltb_spec 0 (hits (gameStats st))) as [Hpos|Hzero].
  - split; [split; [intros _; exact Hpos | intros _; eexists; reflexivity]|].
    split.
    + intros r [= <-]. cbn [rec_accuracy rec_score rec_maxCombo].
      destruct (Z.ltb_spec 0 (hits (gameStats st) + misses (gameStats st)));
        [repeat split | lia].
    + intros H0. lia.
  - split; [split; [intros [r Hr']; discriminate | lia]|].
    split; [intros r Hr'; discriminate|].
    intros H0. rewrite H0. split; reflexivity.
Qed.

(** *** Where a target appears *)

Lemma spawn_coordinate (b w size r : Q) :
  0 <= r < 1 ->
  let maxX := b + w - size in
  let x := Qmax b (r * (maxX - b) + b) in
  (b <= maxX -> b <= x <= maxX) /\ (maxX < b -> x == b).
Proof.
  intros [Hr0 Hr1] maxX x. subst x.
  destruct (Q.max_spec b (r * (maxX - b) + b)) as [[Hlt ->]|[Hle ->]].
  - split; intros H.
    + split; [lra | nra].
    + exfalso. nra.
  - split; intros H; [|reflexivity]. split; [lra | exact H].
Qed.

(** X25.  [spawnBubble] works with the size [bubbleSize] in a time trial
    and [max(30, bubbleSize - level*2)] in Survival, for the level it was
    made with.  For draws in [0,1) its position keeps a target of that
    size on the board, x within [x0, x0 + width - size] and y likewise,
    when that range is not empty; when it is empty the coordinate is the
    board's own. *)
Theorem spawnBubble_on_board level rx ry :
  0 <= rx < 1 -> 0 <= ry < 1 ->
  let size := spawnSize settings level in
  let p := spawnBubble settings boardRect level rx ry in
  let maxX := rect_x boardRect + width boardRect - size in
  let maxY := rect_y boardRect + height boardRect - size in
  (gameMode settings = TIME_TRIAL -> size = bubbleSize settings)
  /\ (gameMode settings = SURVIVAL ->
      size = Qmax 30 (bubbleSize settings - inject_Z (level * 2)))
  /\ (rect_x boardRect <= maxX -> rect_x boardRect <= pos_x p <= maxX)
  /\ (maxX < rect_x boardRect -> pos_x p == rect_x boardRect)
  /\ (rect_y boardRect <= maxY -> rect_y boardRect <= pos_y p <= maxY)
  /\ (maxY < rect_y boardRect -> pos_y p == rect_y boardRect).
Proof.
  intros Hrx Hry size p maxX maxY.
  split; [intros Hm; apply survival_false in Hm; subst size; unfold spawnSize;
          rewrite Hm; reflexivity|].
  split; [intros Hm; apply survival_true in Hm; subst size; unfold spawnSize;
          rewrite Hm; reflexivity|].
  destruct (spawn_coordinate (rect_x boardRect) (width boardRect) size rx Hrx)
    as [Hx1 Hx2].
  destruct (spawn_coordinate (rect_y boardRect) (height boardRect) size ry Hry)
    as [Hy1 Hy2].
  repeat split; try apply Hx1; try apply Hx2; try apply Hy1; try apply Hy2;
    assumption.
Qed.

Local Close Scope Q_scope.

End Proofs.
End SessionProofs.

(** * Concrete sessions *)

Module ScenarioProofs.
Import App storageService Session Scenarios SessionProofs.

Lemma desktop_reachable settings es :
  reachable settings board false (desktop settings (StartGame :: es)).
Proof. apply reachable_session. reflexivity. Qed.

(** ** Points after a miss *)

(** C1 fails on the code.  On the desktop, after a hit, the respawn and a
    click beside the target, the combo is 0 and a hit 100 ms after the
    spawn should add 475 points; the click handler still holds the
    [gameStats] of the render that put the target up, with combo 1, and
    the hit adds 523. *)
Theorem stale_combo_scores_the_hit :
  let before := gameStats after_a_miss in
  let after := gameStats (step timeTrial board false after_a_miss (onTarget 2100)) in
  isPlaying before = true /\ combo before = 0
  /\ lastClickTime after_a_miss = 2000
  /\ hitPoints timeTrial before (2100 - 2000) = 475
  /\ combo (clickStats after_a_miss) = 1
  /\ score after = score before + 523
  /\ combo after = 1.
Proof. vm_compute. repeat split. Qed.

(** The same session on a touch device adds the 475 points. *)
Lemma current_combo_scores_the_tap :
  let before := gameStats after_a_miss_mobile in
  let after :=
    gameStats (step timeTrial board true after_a_miss_mobile (TouchBubble 2100 0 0)) in
  combo before = 0 /\ score after = score before + 475.
Proof. vm_compute. repeat split. Qed.

(** The numbers of this session are the same in binary64. *)
Lemma stale_combo_in_binary64 :
  hitPoints64 timeTrial (gameStats after_a_miss) (2100 - 2000) = Some 475
  /\ hitPoints64 timeTrial (clickStats after_a_miss) (2100 - 2000) = Some 523.
Proof. vm_compute. split; reflexivity. Qed.

(** Where the exact product is a tie and the binary64 one is just below
    it, the two round apart: with combo 4 and a reaction time of 710 ms
    the product is 129 * 2.5 * 1.4 = 451.5. *)
Lemma binary64_rounds_a_tie_down :
  let view := mkStats 0 4 4 4 0 60 3 1 true in
  hitPoints timeTrial view 710 = 452
  /\ hitPoints64 timeTrial view 710 = Some 451.
Proof. vm_compute. split; reflexivity. Qed.

(** The first hit of a session, 100 ms after the spawn, adds 475. *)
Lemma first_hit_scores_475 :
  score (gameStats (desktop timeTrial [StartGame; firstSpawn; onTarget 1100])) = 475.
Proof. vm_compute. reflexivity. Qed.

(** ** The miss that ends a Survival session *)

(** C2 fails on the code.  With one life left, combo 1 and 475 points, a
    click beside the target ends the session and is counted as a miss, but
    the combo stays 1 and the score stays 475: neither the reset nor the
    50 points of the other misses. *)
Theorem last_miss_keeps_combo_and_score :
  let before := gameStats last_life in
  let after := gameStats (step survivalGame board false last_life offTarget) in
  isPlaying before = true /\ lives before = 1
  /\ combo before = 1 /\ score before = 475
  /\ misses after = misses before + 1 /\ isPlaying after = false
  /\ combo after = 1 /\ score after = 475.
Proof. vm_compute. repeat split. Qed.

(** C10 fails on the code in one clause.  With one life left and combo 1
    the target expires; the poll's miss ends the session and leaves
    [maxCombo] alone, but it leaves the combo at 1 as well instead of
    resetting it. *)
Theorem last_miss_leaves_combo :
  let before := gameStats last_life in
  let after := gameStats (step survivalGame board false last_life (ExpiryPoll 9000 0 0)) in
  after = miss_update survivalGame before
  /\ combo before = 1 /\ maxCombo before = 1
  /\ maxCombo after = 1 /\ combo after = 1.
Proof. vm_compute. repeat split. Qed.

(** ** Lives in a time trial *)

(** C3 fails as stated: in a time trial every miss takes a life, and
    after four of them [lives] is -1. *)
Lemma time_trial_lives_go_negative :
  reachable timeTrial board false four_misses
  /\ gameMode timeTrial = TIME_TRIAL
  /\ isPlaying (gameStats four_misses) = true
  /\ lives (gameStats four_misses) = -1.
Proof. split; [apply desktop_reachable | vm_compute; repeat split]. Qed.

(** ** The record of a lost session *)

(** C6 fails as stated: a Survival session lost by three misses has
    ended with [hits + misses = 3], and nothing is saved: no record is
    made and the store is left as it is. *)
Lemma only_misses_saves_nothing :
  reachable survivalGame board false only_misses
  /\ isPlaying (gameStats only_misses) = false
  /\ hits (gameStats only_misses) + misses (gameStats only_misses) = 3
  /\ (forall now, gameEndEffect survivalGame now (gameStats only_misses) = None)
  /\ (forall now writable marks ls,
        Challenges.onGameEnd survivalGame now writable marks (gameStats only_misses) ls
        = ls).
Proof.
  split; [apply desktop_reachable|]. split; [reflexivity|]. split; [reflexivity|].
  split; [intros now; reflexivity | intros now writable marks ls; reflexivity].
Qed.

(** ** Timers after the end *)

(** C9 fails on the code.  A hit leaves a respawn pending; the player
    gives up, which ends the session and clears the target; the pending
    respawn then fires all the same and puts a target up. *)
Theorem respawn_fires_after_the_end :
  let later := step timeTrial board false gave_up (SpawnTimeout 1300 0 0) in
  isPlaying (gameStats gave_up) = false
  /\ bubblePos gave_up = None
  /\ respawns gave_up = [1]
  /\ isPlaying (gameStats later) = false
  /\ bubblePos later = Some (mkPos 0 0)
  /\ bubbleSpawnTime later = 1300
  /\ lastClickTime later = 1300.
Proof. vm_compute. repeat split. Qed.

(** The expiry poll, too: when its miss takes the last life it still
    goes on to spawn, which sets the two clocks; the target is cleared
    only because the [endGame] of the miss runs after it. *)
Lemma expiry_sets_the_clocks_after_the_last_life :
  let later := step survivalGame board false last_life_waiting (ExpiryPoll 5000 0 0) in
  isPlaying (gameStats last_life_waiting) = true
  /\ lives (gameStats last_life_waiting) = 1
  /\ bubbleSpawnTime last_life_waiting = 1000
  /\ isPlaying (gameStats later) = false
  /\ bubblePos later = None
  /\ bubbleSpawnTime later = 5000
  /\ lastClickTime later = 5000.
Proof. vm_compute. repeat split. Qed.

(** Once the session has ended the poll itself is off. *)
Lemma expiry_watch_off settings st :
  isPlaying (gameStats st) = false -> expiry_watch settings st = false.
Proof.
  intros H. unfold expiry_watch. rewrite H.
  destruct (survival settings); reflexivity.
Qed.

(** ** The first target after a restart *)

(** C7 fails on the code.  A Survival session reaches level 2 with its
    tenth hit and is given up.  The start of the next session sets its
    first respawn with the [spawnBubble] of the render it runs in, which
    holds level 2, and resets the level to 1.  The respawn places the
    target for the size of level 2, which is 56, and the target is drawn
    and hit-tested with the size of level 1, which is 58: with a draw of
    0.999 it lies at x = 743.256 and reaches 801.256 on a board that ends
    at 800. *)
Theorem restart_places_for_the_old_level :
  let ended :=
    desktop survivalGame
      (StartGame :: firstSpawn :: hits_and_respawns 10 ++ [Surrender]) in
  let st := step survivalGame board false restarted spawn_at_the_edge in
  let drawn := currentSize survivalGame (level (gameStats st)) in
  level (gameStats ended) = 2
  /\ respawns restarted = [2]
  /\ isPlaying (gameStats st) = true /\ level (gameStats st) = 1
  /\ (spawnSize survivalGame 2 == 56)%Q
  /\ (drawn == 58)%Q
  /\ (drawn <= width board)%Q
  /\ bubblePos st = Some (mkPos (743256 # 1000) 0)
  /\ (rect_x board + width board < (743256 # 1000) + drawn)%Q.
Proof. vm_compute. repeat split; discriminate. Qed.

(** In the first session after the page has loaded the same draw keeps
    the target on the board. *)
Lemma first_start_places_for_level_1 :
  let st :=
    step survivalGame board false (desktop survivalGame [StartGame]) spawn_at_the_edge in
  let drawn := currentSize survivalGame (level (gameStats st)) in
  bubblePos st = Some (mkPos (741258 # 1000) 0)
  /\ ((741258 # 1000) + drawn <= rect_x board + width board)%Q.
Proof. vm_compute. repeat split; discriminate. Qed.

(** ** A countdown that is not a whole number of seconds *)

(** C4 fails as stated: the validator lets a duration of 5.5 seconds
    through; the sixth tick then finds half a second and takes only
    that. *)
Lemma fractional_last_tick :
  let later := step halfSecond board false half_a_second_left Tick in
  Validation.in_range halfSecond
  /\ reachable halfSecond board false half_a_second_left
  /\ isPlaying (gameStats half_a_second_left) = true
  /\ isPaused half_a_second_left = false
  /\ (timeLeft (gameStats half_a_second_left) == 1 # 2)%Q
  /\ (timeLeft (gameStats later) == 0)%Q
  /\ ~ (timeLeft (gameStats later) == timeLeft (gameStats half_a_second_left) - 1)%Q.
Proof.
  split; [|split].
  - unfold Validation.in_range, halfSecond; cbn.
    repeat split; try (apply Qle_bool_iff; reflexivity);
      try (apply Nat.leb_le; reflexivity).
    unfold crosshairTypes. set_solver.
  - apply desktop_reachable.
  - vm_compute. repeat split; discriminate.
Qed.

(** ** The theorems at work *)

Lemma lives_in_session_witness :
  let st := last_life_waiting in
  let next := gameStats (step survivalGame board false st offTarget) in
  reachable survivalGame board false st
  /\ is_miss survivalGame false st offTarget = true
  /\ lives (gameStats st) = 1
  /\ next = miss_update survivalGame (gameStats st)
  /\ lives next = lives (gameStats st) - 1
  /\ (isPlaying next = false <-> lives next = 0)
  /\ isPlaying next = false.
Proof.
  intros st next.
  assert (Hr : reachable survivalGame board false st) by apply desktop_reachable.
  assert (Hm : is_miss survivalGame false st offTarget = true) by reflexivity.
  destruct (lives_in_session survivalGame board false st offTarget Hr)
    as (_ & Hmiss & _ & _ & Hs & _).
  destruct (Hmiss Hm) as (Hn & Hl & _).
  destruct (Hs eq_refl) as (_ & _ & Hiff).
  split; [exact Hr|]. split; [exact Hm|]. split; [reflexivity|].
  split; [exact Hn|]. split; [exact Hl|]. split; [exact (Hiff Hm)|].
  apply (Hiff Hm). rewrite Hl. reflexivity.
Defined.

Lemma countdown_in_time_trial_witness :
  let st := desktop timeTrial [StartGame; firstSpawn] in
  gameMode timeTrial = TIME_TRIAL
  /\ (0 < duration timeTrial)%Q
  /\ reachable timeTrial board false st
  /\ (0 <= timeLeft (gameStats st))%Q
  /\ (timeLeft (gameStats (step timeTrial board false st Tick))
      == timeLeft (gameStats st) - 1)%Q.
Proof.
  intros st.
  assert (Hr : reachable timeTrial board false st) by apply desktop_reachable.
  assert (Hd : (0 < duration timeTrial)%Q) by reflexivity.
  destruct (countdown_in_time_trial timeTrial board false st eq_refl Hd Hr)
    as (H0 & _ & Ht).
  destruct (Ht eq_refl eq_refl) as (_ & _ & _ & Hdec).
  split; [reflexivity|]. split; [exact Hd|]. split; [exact Hr|].
  split; [exact H0|]. apply (Hdec 60%Z). reflexivity.
Defined.

Lemma combo_and_level_on_hit_witness :
  let st := nine_hits in
  let e := onTarget 10100 in
  let next := gameStats (step survivalGame board false st e) in
  let st1 := desktop survivalGame [StartGame; firstSpawn] in
  reachable survivalGame board false st
  /\ is_hit survivalGame false st e = true
  /\ combo (gameStats st) = 9
  /\ combo next = combo (gameStats st) + 1
  /\ (level next = level (gameStats st) + 1 <-> (10 | combo next))
  /\ level (gameStats (run survivalGame board false st1 (hits_and_respawns 9))) = 1
  /\ level (gameStats (run survivalGame board false st1 (hits_and_respawns 10))) = 2.
Proof.
  intros st e next st1.
  assert (Hr : reachable survivalGame board false st) by apply desktop_reachable.
  assert (Hr1 : reachable survivalGame board false st1) by apply desktop_reachable.
  assert (Hh : is_hit survivalGame false st e = true) by (vm_compute; reflexivity).
  destruct (combo_and_level_on_hit survivalGame board false st Hr) as (Hhit & _).
  destruct (Hhit e Hh) as (_ & Hc & _ & Hl & _). destruct (Hl eq_refl) as [Hup _].
  destruct (combo_and_level_on_hit survivalGame board false st1 Hr1)
    as (_ & _ & _ & Hten & _).
  assert (Hu9 : unbroken survivalGame board false st1 (hits_and_respawns 9) = true)
    by (vm_compute; reflexivity).
  assert (Hu10 : unbroken survivalGame board false st1 (hits_and_respawns 10) = true)
    by (vm_compute; reflexivity).
  destruct (Hten _ eq_refl Hu9 eq_refl eq_refl) as [H9 _].
  destruct (Hten _ eq_refl Hu10 eq_refl eq_refl) as [_ H10].
  split; [exact Hr|]. split; [exact Hh|]. split; [vm_compute; reflexivity|].
  split; [exact Hc|]. split; [exact Hup|].
  split; [apply H9; vm_compute; reflexivity | apply H10; vm_compute; reflexivity].
Defined.


Lemma spawnBubble_on_board_witness :
  let p := spawnBubble timeTrial board 1 (1 # 2) (1 # 4) in
  (0 <= 1 # 2 < 1)%Q /\ (0 <= 1 # 4 < 1)%Q
  /\ (0 <= pos_x p <= 800 - 60)%Q /\ (0 <= pos_y p <= 600 - 60)%Q.
Proof.
  intros p.
  assert (Hx : (0 <= 1 # 2 < 1)%Q) by (split; [apply Qle_bool_iff | apply Qlt_alt]; reflexivity).
  assert (Hy : (0 <= 1 # 4 < 1)%Q) by (split; [apply Qle_bool_iff | apply Qlt_alt]; reflexivity).
  destruct (spawnBubble_on_board timeTrial board 1 (1 # 2) (1 # 4) Hx Hy)
    as (_ & _ & Hpx & _ & Hpy & _).
  split; [exact Hx|]. split; [exact Hy|]. split.
  - apply Hpx. apply Qle_bool_iff. reflexivity.
  - apply Hpy. apply Qle_bool_iff. reflexivity.
Defined.

End ScenarioProofs.

(** * The score ledger, the stored settings and the challenges *)

Module LedgerProofs.
Import storageService Validation Ledger.

Lemma insert_desc_perm r l : insert_desc r l ≡ₚ r :: l.
Proof.
  induction l as [|x l IH]; [reflexivity|]. cbn.
  destruct (rec_score x <=? rec_score r); [reflexivity|].
  rewrite IH. apply Permutation_swap.
Qed.

Lemma sort_desc_cons x l : sort_desc (x :: l) = insert_desc x (sort_desc l).
Proof. reflexivity. Qed.

Lemma sort_desc_perm l : sort_desc l ≡ₚ l.
Proof.
  induction l as [|x l IH]; [reflexivity|].
  rewrite sort_desc_cons, insert_desc_perm, IH. reflexivity.
Qed.

Lemma insert_desc_sorted r l :
  StronglySorted desc l -> StronglySorted desc (insert_desc r l).
Proof.
  induction 1 as [|x l Hs IH Hx]; cbn.
  - repeat constructor.
  - destruct (Z.leb_spec (rec_score x) (rec_score r)) as [Hle|Hlt].
    + constructor; [constructor; assumption|].
      constructor; [exact Hle|].
      eapply Forall_impl; [exact Hx|]. intros y Hy. unfold desc in *. lia.
    + constructor; [exact IH|].
      rewrite insert_desc_perm. constructor; [unfold desc; lia | exact Hx].
Qed.

Lemma sort_desc_sorted l : StronglySorted desc (sort_desc l).
Proof.
  induction l as [|x l IH]; [constructor|].
  rewrite sort_desc_cons. apply insert_desc_sorted, IH.
Qed.

Lemma insert_desc_head r l :
  StronglySorted desc (r :: l) -> insert_desc r l = r :: l.
Proof.
  intros Hs. destruct l as [|x l]; [reflexivity|]. cbn.
  apply StronglySorted_inv in Hs as [_ Hr]. apply Forall_cons in Hr as [Hx _].
  unfold desc in Hx. apply Z.leb_le in Hx. rewrite Hx. reflexivity.
Qed.

Lemma sort_desc_fixed l : StronglySorted desc l -> sort_desc l = l.
Proof.
  induction 1 as [|x l Hs IH Hx]; [reflexivity|]. rewrite sort_desc_cons, IH.
  apply insert_desc_head. constructor; assumption.
Qed.

Lemma take_sorted k l : StronglySorted desc l -> StronglySorted desc (take k l).
Proof.
  intros Hs. revert k. induction Hs as [|x l Hs IH Hx]; intros [|k]; cbn;
    try constructor; [apply IH|].
  eapply Forall_forall. intros y Hy. eapply Forall_forall in Hx; [exact Hx|].
  eapply subseteq_take, Hy.
Qed.

(** Cutting the list before an insertion loses nothing that the cut after
    it would keep. *)
Lemma take_insert_desc r k : forall l,
  take k (insert_desc r (take k l)) = take k (insert_desc r l).
Proof.
  induction k as [|k IH]; intros l; [reflexivity|].
  destruct l as [|x l]; [reflexivity|]. cbn.
  destruct (rec_score x <=? rec_score r); cbn.
  - f_equal. destruct k; [reflexivity|]. cbn. f_equal.
    rewrite take_take. f_equal. lia.
  - f_equal. apply IH.
Qed.

(** The new record is kept unless as many as are kept score more. *)
Lemma take_insert_desc_kept r k : forall l,
  r ∈ take k (insert_desc r l)
  \/ (length (take k (insert_desc r l)) = k
      /\ Forall (fun x => rec_score r < rec_score x) (take k (insert_desc r l))).
Proof.
  induction k as [|k IH]; intros l; [right; split; [reflexivity | constructor]|].
  destruct l as [|x l]; cbn.
  - left. left.
  - destruct (Z.leb_spec (rec_score x) (rec_score r)) as [Hle|Hlt]; cbn.
    + left. left.
    + destruct (IH l) as [Hin|[Hlen Hall]]; [left; right; exact Hin|].
      right. split; [f_equal; exact Hlen | constructor; assumption].
Qed.

Lemma getStoredScores_length ls : (length (getStoredScores ls) <= 50)%nat.
Proof.
  unfold getStoredScores. destruct (scoresItem ls) as [| |[|l]]; cbn; try lia.
  rewrite length_take. lia.
Qed.

Lemma getStoredScores_saved record ls :
  getStoredScores (saveScore record true ls)
  = take 50 (sort_desc (record :: getStoredScores ls)).
Proof.
  unfold saveScore, getStoredScores at 1. cbn [scoresItem].
  rewrite take_take. f_equal.
Qed.

(** X1.  After a save that the store takes, the stored scores are read
    back as saved: best score first, at most 50 of them, one more than
    before when there was room; each is the new record or an old one, and
    a record that was dropped scores no more than any that was kept. *)
Theorem saveScore_keeps_the_best record ls :
  let current := getStoredScores ls in
  let saved := getStoredScores (saveScore record true ls) in
  StronglySorted desc saved
  /\ length saved = Nat.min 50 (S (length current))
  /\ (forall r, r ∈ saved -> r = record \/ r ∈ current)
  /\ ((length current < 50)%nat -> saved ≡ₚ record :: current)
  /\ (forall dropped kept,
        record :: current ≡ₚ saved ++ dropped -> kept ∈ saved ->
        Forall (fun r => rec_score r <= rec_score kept) dropped)
  /\ exists dropped, record :: current ≡ₚ saved ++ dropped.
Proof.
  intros current saved.
  assert (Hsaved : saved = take 50 (sort_desc (record :: current)))
    by apply getStoredScores_saved.
  pose proof (sort_desc_sorted (record :: current)) as Hsorted.
  pose proof (sort_desc_perm (record :: current)) as Hperm.
  assert (Hsplit : sort_desc (record :: current)
                   = saved ++ drop 50 (sort_desc (record :: current)))
    by (rewrite Hsaved; symmetry; apply take_drop).
  split; [rewrite Hsaved; apply take_sorted, Hsorted|].
  split; [rewrite Hsaved, length_take, Hperm; cbn [length]; lia|].
  split.
  { intros r Hr. rewrite Hsaved in Hr. apply subseteq_take in Hr.
    rewrite Hperm in Hr. apply elem_of_cons in Hr. exact Hr. }
  split.
  { intros Hlen. rewrite Hsaved, take_ge; [exact Hperm|].
    rewrite Hperm. cbn [length]. lia. }
  split.
  - intros dropped kept Hd Hk.
    assert (Hd' : drop 50 (sort_desc (record :: current)) ≡ₚ dropped).
    { eapply (Permutation_app_inv_l saved). rewrite <- Hsplit, Hperm. exact Hd. }
    rewrite <- Hd'. rewrite Hsplit in Hsorted.
    apply Forall_forall. intros r Hr.
    apply (StronglySorted_app_1_elem_of _ _ _ kept r Hsorted Hk Hr).
  - exists (drop 50 (sort_desc (record :: current))).
    rewrite <- Hsplit, Hperm. reflexivity.
Qed.

Lemma take_sort_desc_take pre : forall l,
  take 50 (sort_desc (pre ++ take 50 (sort_desc l)))
  = take 50 (sort_desc (pre ++ l)).
Proof.
  induction pre as [|p pre IH]; intros l.
  - cbn [app]. rewrite sort_desc_fixed by apply take_sorted, sort_desc_sorted.
    rewrite take_take. f_equal.
  - cbn [app]. rewrite !sort_desc_cons.
    rewrite <- take_insert_desc, IH, take_insert_desc. reflexivity.
Qed.

Lemma saved_all_stored rs : forall ls,
  StronglySorted desc (getStoredScores ls) ->
  getStoredScores (fold_left (fun ls' r => saveScore r true ls') rs ls)
  = take 50 (sort_desc (rev rs ++ getStoredScores ls)).
Proof.
  induction rs as [|r rs IH]; intros ls Hs.
  - cbn [fold_left rev app]. rewrite (sort_desc_fixed _ Hs). symmetry.
    apply take_ge, getStoredScores_length.
  - cbn [fold_left rev]. rewrite IH.
    + rewrite getStoredScores_saved, take_sort_desc_take, <- app_assoc. reflexivity.
    + rewrite getStoredScores_saved. apply take_sorted, sort_desc_sorted.
Qed.

(** X2.  Saving records one after another into a store that takes every
    write leaves the 50 best of all of them and of what was stored, best
    first, a later one ahead of an earlier one with the same score. *)
Theorem ledger_holds_the_top_fifty rs ls :
  StronglySorted desc (getStoredScores ls) ->
  let stored := getStoredScores (fold_left (fun ls' r => saveScore r true ls') rs ls) in
  stored = take 50 (sort_desc (rev rs ++ getStoredScores ls))
  /\ StronglySorted desc stored
  /\ length stored = Nat.min 50 (length rs + length (getStoredScores ls))
  /\ (forall r, r ∈ stored -> r ∈ rs \/ r ∈ getStoredScores ls).
Proof.
  intros Hs stored.
  assert (Heq : stored = take 50 (sort_desc (rev rs ++ getStoredScores ls)))
    by apply saved_all_stored, Hs.
  split; [exact Heq|]. rewrite Heq.
  split; [apply take_sorted, sort_desc_sorted|].
  split.
  - rewrite length_take, sort_desc_perm, length_app, length_rev. reflexivity.
  - intros r Hr. apply subseteq_take in Hr. rewrite sort_desc_perm in Hr.
    apply elem_of_app in Hr as [Hr|Hr]; [left | right; exact Hr].
    apply list_elem_of_In, in_rev, list_elem_of_In. exact Hr.
Qed.

(** ** The best streak *)

Lemma Math_max_le xs : forall x, x <= Math_max x xs.
Proof.
  unfold Math_max. induction xs as [|y xs IH]; intros x; cbn; [lia|].
  etransitivity; [|apply IH]. lia.
Qed.

Lemma Math_max_upper xs : forall x y, y ∈ xs -> y <= Math_max x xs.
Proof.
  induction xs as [|z xs IH]; intros x y Hy; [inversion Hy|].
  apply elem_of_cons in Hy as [->|Hy]; [|apply (IH (Z.max x z)), Hy].
  etransitivity; [|apply (Math_max_le xs (Z.max x z))]. lia.
Qed.

Lemma Math_max_attained xs : forall x, Math_max x xs ∈ x :: xs.
Proof.
  induction xs as [|z xs IH]; intros x; [left|].
  change (Math_max x (z :: xs)) with (Math_max (Z.max x z) xs).
  specialize (IH (Z.max x z)). apply elem_of_cons in IH as [IH|IH].
  - rewrite IH. destruct (Z.max_spec x z) as [[_ ->]|[_ ->]];
      [right; left | left].
  - right; right; exact IH.
Qed.

Lemma maxCombo_or_zero (l : list ScoreRecord) :
  map (fun s => if rec_maxCombo s =? 0 then 0 else rec_maxCombo s) l
  = map rec_maxCombo l.
Proof.
  apply map_ext. intros s. destruct (Z.eqb_spec (rec_maxCombo s) 0); congruence.
Qed.

(** X3.  The best streak is 0 when no score is stored; otherwise it is
    the [maxCombo] of one of the stored records (of the 50 that are read)
    and none of them has a larger one. *)
Theorem getBestStreak_is_the_largest ls :
  (getStoredScores ls = [] -> getBestStreak ls = 0)
  /\ (forall r, r ∈ getStoredScores ls -> rec_maxCombo r <= getBestStreak ls)
  /\ (getStoredScores ls <> [] ->
      exists r, r ∈ getStoredScores ls /\ getBestStreak ls = rec_maxCombo r).
Proof.
  unfold getBestStreak. rewrite maxCombo_or_zero.
  destruct (getStoredScores ls) as [|r0 l]; cbn [map].
  - split; [reflexivity|]. split; [intros r Hr; inversion Hr | congruence].
  - split; [discriminate|]. split.
    + intros r Hr. apply elem_of_cons in Hr as [->|Hr]; [apply Math_max_le|].
      apply Math_max_upper, list_elem_of_fmap. exists r. split; [reflexivity | exact Hr].
    + intros _. pose proof (Math_max_attained (map rec_maxCombo l) (rec_maxCombo r0)) as H.
      change (rec_maxCombo r0 :: map rec_maxCombo l)
        with (rec_maxCombo <$> (r0 :: l)) in H.
      apply list_elem_of_fmap in H as (r & Hr & Hin). exists r. split; assumption.
Qed.

(** ** The stored settings *)

(** X4.  The settings the component starts with are within the ranges
    whatever the store holds, and are the defaults when the item is
    missing or does not parse.  Settings within the ranges that were saved
    come back as they were; a write that the store refuses changes
    nothing. *)
Theorem stored_settings_come_back s ls :
  in_range (initialSettings ls)
  /\ (settingsItem ls = NoItem \/ settingsItem ls = NotJSON ->
      initialSettings ls = DEFAULT_SETTINGS)
  /\ (in_range s -> settings_eq (initialSettings (saveStoredSettings s true ls)) s)
  /\ initialSettings (saveStoredSettings s false ls) = initialSettings ls.
Proof.
  unfold initialSettings, getStoredSettings. split; [|split; [|split]].
  - destruct (settingsItem ls);
      [apply ValidationProofs.DEFAULT_SETTINGS_in_range ..
      | apply ValidationProofs.validateSettings_in_range].
  - intros [-> | ->]; reflexivity.
  - intros Hs. cbn. apply ValidationProofs.validateSettings_fixed, Hs.
  - reflexivity.
Qed.

(** ** Completed challenges *)

Lemma Set_add_elem s x y : y ∈ Set_add s x <-> y = x \/ y ∈ s.
Proof.
  unfold Set_add. case_bool_decide as Hx.
  - split; [auto | intros [->|H]; assumption].
  - rewrite elem_of_app, list_elem_of_singleton. tauto.
Qed.

Lemma Set_add_NoDup s x : NoDup s -> NoDup (Set_add s x).
Proof.
  intros Hs. unfold Set_add. case_bool_decide as Hx; [exact Hs|].
  apply NoDup_app. split; [exact Hs|]. split; [|apply NoDup_singleton].
  intros y Hy Hyx. apply list_elem_of_singleton in Hyx. subst. contradiction.
Qed.

Lemma fold_Set_add l : forall acc,
  NoDup acc ->
  NoDup (fold_left Set_add l acc)
  /\ (forall y, y ∈ fold_left Set_add l acc <-> y ∈ acc \/ y ∈ l)
  /\ (NoDup (acc ++ l) -> fold_left Set_add l acc = acc ++ l).
Proof.
  induction l as [|x l IH]; intros acc Hacc; cbn [fold_left].
  - split; [exact Hacc|]. split.
    + intros y. split; [auto | intros [H|H]; [exact H | inversion H]].
    + intros _. symmetry. apply app_nil_r.
  - destruct (IH (Set_add acc x) (Set_add_NoDup acc x Hacc)) as (Hn & He & Hf).
    split; [exact Hn|]. split.
    + intros y. rewrite He, Set_add_elem, elem_of_cons. tauto.
    + intros Hnd. assert (Hx : x ∉ acc).
      { apply NoDup_app in Hnd as (_ & Hd & _). intros Hin.
        apply (Hd x Hin). left. }
      unfold Set_add in *. rewrite (bool_decide_eq_false_2 _ Hx) in *.
      rewrite Hf; rewrite <- app_assoc; [reflexivity | exact Hnd].
Qed.

Lemma new_Set_spec l :
  NoDup (new_Set l) /\ (forall y, y ∈ new_Set l <-> y ∈ l)
  /\ (NoDup l -> new_Set l = l).
Proof.
  destruct (fold_Set_add l [] (NoDup_nil_2 (A:=string))) as (Hn & He & Hf).
  split; [exact Hn|]. split; [|exact Hf].
  intros y. unfold new_Set. rewrite He. split; [intros [H|H]; [inversion H | exact H] | auto].
Qed.

Lemma marked_members id ls :
  NoDup (getCompletedChallenges (markChallengeComplete id true ls))
  /\ forall x, x ∈ getCompletedChallenges (markChallengeComplete id true ls)
               <-> x = id \/ x ∈ getCompletedChallenges ls.
Proof.
  destruct (new_Set_spec (getCompletedChallenges ls)) as (Hn & He & _).
  cbn. split; [apply Set_add_NoDup, Hn|].
  intros x. rewrite Set_add_elem, He. reflexivity.
Qed.

(** X5.  Marking a challenge, when the store takes the write, leaves a
    list without repeats that holds the id and exactly the ids that were
    there; ids that were there keep their order when they had no repeats;
    marking the same id again changes nothing. *)
Theorem markChallengeComplete_is_a_set_union id ls :
  let before := getCompletedChallenges ls in
  let after := getCompletedChallenges (markChallengeComplete id true ls) in
  NoDup after
  /\ (forall x, x ∈ after <-> x = id \/ x ∈ before)
  /\ (NoDup before -> id ∈ before -> after = before)
  /\ (NoDup before -> id ∉ before -> after = before ++ [id])
  /\ markChallengeComplete id true (markChallengeComplete id true ls)
     = markChallengeComplete id true ls.
Proof.
  intros before after.
  destruct (new_Set_spec before) as (Hn & He & Hf).
  assert (Hafter : after = Set_add (new_Set before) id) by reflexivity.
  assert (Hnd : NoDup after) by (rewrite Hafter; apply Set_add_NoDup, Hn).
  assert (Hin : forall x, x ∈ after <-> x = id \/ x ∈ before).
  { intros x. rewrite Hafter, Set_add_elem, He. reflexivity. }
  split; [exact Hnd|]. split; [exact Hin|]. split; [|split].
  - intros Hb Hid. rewrite Hafter, (Hf Hb). unfold Set_add.
    rewrite (bool_decide_eq_true_2 _ Hid). reflexivity.
  - intros Hb Hid. rewrite Hafter, (Hf Hb). unfold Set_add.
    rewrite (bool_decide_eq_false_2 _ Hid). reflexivity.
  - unfold markChallengeComplete at 1 3. cbn [scoresItem settingsItem]. f_equal. f_equal.
    change (getCompletedChallenges (markChallengeComplete id true ls)) with after.
    destruct (new_Set_spec after) as (_ & _ & Hf'). rewrite (Hf' Hnd).
    unfold Set_add at 1. rewrite bool_decide_eq_true_2; [reflexivity|].
    apply Hin. left. reflexivity.
Qed.

End LedgerProofs.

(** * Challenges at the end of a game *)

Module ChallengeProofs.
Import App Session Ledger Challenges SessionProofs LedgerProofs.

Lemma marked_elem id w ls x :
  x ∈ getCompletedChallenges (markChallengeComplete id w ls)
  <-> x ∈ getCompletedChallenges ls \/ (w = true /\ x = id).
Proof.
  destruct w.
  - destruct (marked_members id ls) as [_ Hin].
    rewrite Hin. split; [intros [->|H]; auto | intros [H|[_ ->]]; auto].
  - cbn. split; [auto | intros [H|[H _]]; [exact H | discriminate]].
Qed.

Lemma marked_scores id w ls :
  scoresItem (markChallengeComplete id w ls) = scoresItem ls.
Proof. destruct w; reflexivity. Qed.

Section GameEnd.

Context (settings : GameSettings) (marks : string -> bool) (g : GameStats).

Lemma mark_fold (cs : list (string * (GameStats -> GameSettings -> bool))) :
  forall ls,
    let ls' :=
      fold_left
        (fun ls0 '(id, condition) =>
           if condition g settings : bool
           then markChallengeComplete id (marks id) ls0 else ls0) cs ls in
    scoresItem ls' = scoresItem ls
    /\ forall x,
         x ∈ getCompletedChallenges ls'
         <-> x ∈ getCompletedChallenges ls
             \/ exists condition,
                  (x, condition) ∈ cs /\ condition g settings = true
                  /\ marks x = true.
Proof.
  induction cs as [|[id condition] cs IH]; intros ls; cbn [fold_left].
  - split; [reflexivity|]. intros x. split; [auto|].
    intros [H|(c & Hc & _)]; [exact H | inversion Hc].
  - destruct (IH (if condition g settings
                  then markChallengeComplete id (marks id) ls else ls))
      as [Hs He].
    split.
    + rewrite Hs. destruct (condition g settings); [apply marked_scores | reflexivity].
    + intros x. rewrite He. destruct (condition g settings) eqn:Hc.
      * rewrite marked_elem. split.
        -- intros [[H|[Hm ->]]|(c & Hin & Hc' & Hm)]; [auto | |].
           ++ right. exists condition. split; [left | auto].
           ++ right. exists c. split; [right; exact Hin | auto].
        -- intros [H|(c & Hin & Hc' & Hm)]; [auto|].
           apply elem_of_cons in Hin as [[= -> ->]|Hin]; [auto|].
           right. exists c. auto.
      * split.
        -- intros [H|(c & Hin & Hc' & Hm)]; [auto|].
           right. exists c. split; [right; exact Hin | auto].
        -- intros [H|(c & Hin & Hc' & Hm)]; [auto|].
           apply elem_of_cons in Hin as [[= -> ->]|Hin]; [congruence|].
           right. exists c. auto.
Qed.

End GameEnd.

(** The stored scores after the end of a game are those that [saveScore]
    leaves. *)
Lemma onGameEnd_scores settings now writable marks g ls r :
  gameEndEffect settings now g = Some r ->
  getStoredScores (onGameEnd settings now writable marks g ls)
  = getStoredScores (saveScore r writable ls).
Proof.
  intros Hr. unfold onGameEnd. rewrite Hr.
  destruct (mark_fold settings marks g DEFINED_CHALLENGES (saveScore r writable ls))
    as [Hs _].
  unfold getStoredScores. rewrite Hs. reflexivity.
Qed.

Section Ending.

Context (settings : GameSettings) (boardRect : Rect) (isMobile : bool).

Local Open Scope Q_scope.

(** C6, as amended.  When a session has ended, the effect hands a record
    to [saveScore] exactly when the session had at least one hit; without
    a hit it leaves the store as it is.  The record has the accuracy
    hits / (hits + misses) * 100, the score and the longest streak of the
    session.  When the store refuses the write the stored scores stay as
    they were.  When it takes the write they are the 50 best of the record
    and those stored before; the record is among them when fewer than 50
    were stored, and otherwise unless 50 stored scores are higher than
    its own.  A session without any hit or miss saves nothing; the
    accuracy on display is 100 then. *)
Theorem score_saved_iff_a_hit st now writable marks ls :
  reachable settings boardRect isMobile st -> isPlaying (gameStats st) = false ->
  let g := gameStats st in
  let before := getStoredScores ls in
  let after := getStoredScores (onGameEnd settings now writable marks g ls) in
  (is_Some (gameEndEffect settings now g) <-> (0 < hits g)%Z)
  /\ (hits g = 0%Z -> onGameEnd settings now writable marks g ls = ls)
  /\ (forall r, gameEndEffect settings now g = Some r ->
        (rec_accuracy r = inject_Z (hits g) / inject_Z (hits g + misses g) * 100
         /\ rec_score r = score g /\ rec_maxCombo r = maxCombo g)
        /\ (writable = false -> after = before)
        /\ (writable = true ->
            after = take 50 (sort_desc (r :: before))
            /\ ((length before < 50)%nat -> r ∈ after)
            /\ (r ∈ after
                \/ (length after = 50%nat
                    /\ Forall (fun x => (rec_score r < rec_score x)%Z) after))))
  /\ ((hits g + misses g = 0)%Z ->
      gameEndEffect settings now g = None /\ accuracy g = 100).
Proof.
  intros Hr Hp g before after.
  destruct (record_handed_iff_a_hit settings boardRect isMobile st now Hr Hp)
    as (Hiff & Hrec & Hnone).
  split; [exact Hiff|]. split; [|split; [|exact Hnone]].
  - intros H0. unfold onGameEnd.
    destruct (gameEndEffect settings now g) as [r|] eqn:He; [|reflexivity].
    assert (0 < hits g)%Z by (apply Hiff; eexists; fold g; exact He). lia.
  - intros r He. split; [apply Hrec, He|].
    assert (Hafter : after = getStoredScores (saveScore r writable ls))
      by (apply onGameEnd_scores, He).
    split.
    + intros ->. rewrite Hafter. reflexivity.
    + intros ->. rewrite Hafter, getStoredScores_saved. fold before.
      split; [reflexivity|]. rewrite sort_desc_cons. split.
      * intros Hlen. rewrite take_ge.
        -- rewrite insert_desc_perm. left.
        -- rewrite insert_desc_perm, sort_desc_perm. cbn [length]. lia.
      * apply take_insert_desc_kept.
Qed.

Local Close Scope Q_scope.

End Ending.

(** X6.  The end of a game never takes a completed challenge away,
    whatever writes the store refuses.  It adds an id only when the game
    is over and had a hit, the id is that of a defined challenge whose
    condition holds of the final statistics, and the store took that
    write; when the store takes every write, each such id is added.  The
    scores item is the one [saveScore] leaves. *)
Theorem onGameEnd_marks_what_holds settings now writable marks g ls :
  let ls' := onGameEnd settings now writable marks g ls in
  let earned x :=
    exists condition,
      (x, condition) ∈ DEFINED_CHALLENGES /\ condition g settings = true in
  (forall x, x ∈ getCompletedChallenges ls -> x ∈ getCompletedChallenges ls')
  /\ (forall x, x ∈ getCompletedChallenges ls' ->
        x ∈ getCompletedChallenges ls
        \/ (earned x /\ marks x = true /\ isPlaying g = false /\ 0 < hits g))
  /\ ((forall x, marks x = true) -> isPlaying g = false -> 0 < hits g ->
      forall x, earned x -> x ∈ getCompletedChallenges ls')
  /\ scoresItem ls'
     = scoresItem (match gameEndEffect settings now g with
                   | Some record => saveScore record writable ls
                   | None => ls
                   end).
Proof.
  intros ls' earned. subst ls'. unfold onGameEnd.
  assert (Hgate : forall r, gameEndEffect settings now g = Some r ->
                            isPlaying g = false /\ 0 < hits g).
  { unfold gameEndEffect. intros r.
    destruct (isPlaying g); cbn [negb andb]; [discriminate|].
    destruct (Z.ltb_spec 0 (hits g)); [auto | discriminate]. }
  assert (Hopen : isPlaying g = false -> 0 < hits g ->
                  exists r, gameEndEffect settings now g = Some r).
  { unfold gameEndEffect. intros -> Hh. apply Z.ltb_lt in Hh. rewrite Hh.
    cbn. eexists. reflexivity. }
  destruct (gameEndEffect settings now g) as [record|] eqn:Heff.
  - destruct (Hgate record eq_refl) as [Hp Hh].
    destruct (mark_fold settings marks g DEFINED_CHALLENGES
                        (saveScore record writable ls)) as [Hs He].
    assert (Hsame : getCompletedChallenges (saveScore record writable ls)
                    = getCompletedChallenges ls) by (destruct writable; reflexivity).
    rewrite Hsame in He.
    split; [intros x Hx; apply He; left; exact Hx|].
    split; [|split; [|exact Hs]].
    + intros x Hx. apply He in Hx as [Hx|(c & Hin & Hc & Hm)]; [left; exact Hx|].
      right. split; [exists c; auto | auto].
    + intros Hall _ _ x (c & Hin & Hc). apply He. right. exists c. auto.
  - split; [auto|]. split; [auto|]. split; [|reflexivity].
    intros _ Hp Hh. destruct (Hopen Hp Hh) as [r Hr]. discriminate.
Qed.

Local Open Scope Q_scope.

(** X7.  A saved record carries the tag that goes with a challenge the
    game earned: "Cirujano" with the precision challenge, "Ninja" with the
    combo challenge. *)
Theorem earned_challenge_has_its_tag settings now g record :
  gameEndEffect settings now g = Some record ->
  (precision_master g settings = true -> "Cirujano"%string ∈ rec_tags record)
  /\ (combo_king g settings = true -> "Ninja"%string ∈ rec_tags record).
Proof.
  unfold gameEndEffect. destruct (negb (isPlaying g) && (0 <? hits g))%Z; [|discriminate].
  intros [= <-]. cbn [rec_tags]. unfold tags_of. split.
  - unfold precision_master. intros H. apply andb_true_iff in H as [Ht Ha].
    apply Z.ltb_lt in Ht.
    assert (Hpos : (0 <? hits g + misses g)%Z = true) by (apply Z.ltb_lt; lia).
    rewrite Hpos. apply Qle_bool_iff in Ha.
    assert (Hacc : Qle_bool 95 (accuracy_of g) = true).
    { apply Qle_bool_iff. unfold accuracy_of. lra. }
    rewrite Hacc. apply elem_of_app. left. left.
  - unfold combo_king. intros H. apply Z.leb_le in H.
    assert (Hn : (30 <=? maxCombo g)%Z = true) by (apply Z.leb_le; lia).
    rewrite Hn. apply elem_of_app. right. apply elem_of_app. left. left.
Qed.

Local Close Scope Q_scope.

End ChallengeProofs.

(** * More of the session *)

Module CoverageProofs.
Import App Session Counting Challenges SessionProofs.

Section Proofs.

Context (settings : GameSettings) (boardRect : Rect) (isMobile : bool).

Local Abbreviation step := (App.step settings boardRect isMobile).
Local Abbreviation handle := (App.handle settings boardRect isMobile).
Local Abbreviation reachable := (App.reachable settings boardRect isMobile).
Local Abbreviation run := (App.run settings boardRect isMobile).
Local Abbreviation stats_change := (Session.stats_change settings).
Local Abbreviation control_inv := (Session.control_inv settings).
Local Abbreviation stats_inv := (Session.stats_inv settings).
Local Abbreviation counts_inv := (Counting.counts_inv settings).

(** ** Counters *)

Lemma startGame_counts : counts_inv (startGame_stats settings).
Proof.
  split; [apply startGame_stats_inv|]. cbn. repeat split; try lia; reflexivity.
Qed.

Lemma stats_change_counts g g' : stats_change g g' -> counts_inv g -> counts_inv g'.
Proof.
  intros Hch (Hs & Hlm & Hmh & Hlv & Htt).
  split; [eapply stats_change_inv; eassumption|].
  pose proof Hs as (_ & Hsv & Hco & _).
  destruct Hch as [|points Hp|Hp|Hp Hsf|].
  - repeat split; assumption.
  - unfold hit_update. cbn [lives misses maxCombo hits level combo].
    split; [exact Hlm|]. split; [lia|]. split.
    + intros Hsu. specialize (Hlv Hsu). rewrite Hsu. cbn [andb].
      rewrite Z.rem_mod_nonneg by lia.
      destruct (Z.eqb_spec ((combo g + 1) mod 10) 0) as [E|E];
        Z.div_mod_to_equations; lia.
    + intros Hsu. rewrite Hsu. cbn [andb]. apply Htt, Hsu.
  - unfold miss_update, miss_ends.
    destruct (survival settings) eqn:Hsu; cbn [andb].
    + destruct (Hsv eq_refl) as [_ Hl1]. specialize (Hl1 Hp). specialize (Hlv eq_refl).
      destruct (Z.leb_spec (lives g - 1) 0);
        cbn [lives misses maxCombo hits level combo];
        (split; [lia|]); (split; [lia|]);
        (split; [intros _; Z.div_mod_to_equations; lia | discriminate]).
    + cbn [lives misses maxCombo hits level combo].
      split; [lia|]. split; [lia|]. split; [discriminate | exact Htt].
  - unfold timer_update.
    destruct (timer_ends g); cbn [lives misses maxCombo hits level combo];
      repeat split; assumption.
  - cbn. repeat split; assumption.
Qed.

Lemma reachable_counts st : reachable st -> counts_inv (gameStats st).
Proof.
  apply reachable_stats_invariant;
    [apply startGame_counts | apply stats_change_counts].
Qed.

(** X8.  In a session lives and misses always add up to 3.  So a
    Survival session that runs has had at most two misses, and a miss ends
    it exactly when it is the third. *)
Theorem three_misses_end_survival st :
  reachable st ->
  lives (gameStats st) + misses (gameStats st) = 3
  /\ (gameMode settings = SURVIVAL ->
      misses (gameStats st) <= 3
      /\ (isPlaying (gameStats st) = true ->
          misses (gameStats st) <= 2
          /\ (isPlaying (miss_update settings (gameStats st)) = false
              <-> misses (miss_update settings (gameStats st)) = 3))).
Proof.
  intros Hr. destruct (reachable_counts st Hr) as (Hs & Hlm & _).
  destruct Hs as (_ & Hsv & _).
  split; [exact Hlm|]. intros Hm. apply survival_true in Hm.
  destruct (Hsv Hm) as [Hl0 Hl1]. split; [lia|]. intros Hp. specialize (Hl1 Hp).
  split; [lia|].
  unfold miss_update, miss_ends. rewrite Hm. cbn [andb].
  destruct (Z.leb_spec (lives (gameStats st) - 1) 0); cbn [isPlaying misses].
  - split; [lia | reflexivity].
  - rewrite Hp. split; [discriminate | lia].
Qed.

(** X9.  In a session the longest streak is no longer than the number of
    hits.  A time trial stays at level 1; in Survival each level past the
    first took ten hits.  So the Survival challenge (level 5) needs at
    least 40 hits and the combo challenge at least 50. *)
Theorem levels_and_streaks_take_hits st :
  reachable st ->
  let g := gameStats st in
  combo g <= maxCombo g <= hits g
  /\ (gameMode settings = TIME_TRIAL -> level g = 1)
  /\ (gameMode settings = SURVIVAL -> 10 * (level g - 1) <= hits g)
  /\ (novice_survivor g settings = true ->
      gameMode settings = SURVIVAL /\ 40 <= hits g)
  /\ (combo_king g settings = true -> 50 <= hits g).
Proof.
  intros Hr g. destruct (reachable_counts st Hr) as (Hs & _ & Hmh & Hlv & Htt).
  destruct Hs as (_ & _ & Hco & _). fold g in Hmh, Hlv, Htt, Hco.
  assert (Hsurv : gameMode settings = SURVIVAL -> 10 * (level g - 1) <= hits g).
  { intros Hm. apply survival_true in Hm. specialize (Hlv Hm).
    pose proof (Z.mod_pos_bound (combo g) 10). lia. }
  split; [lia|]. split; [intros Hm; apply Htt, survival_false, Hm|].
  split; [exact Hsurv|]. split.
  - unfold novice_survivor. intros H. apply andb_true_iff in H as [Hm Hl].
    apply bool_decide_eq_true in Hm. apply Z.leb_le in Hl.
    split; [exact Hm|]. specialize (Hsurv Hm). lia.
  - unfold combo_king. intros H. apply Z.leb_le in H. lia.
Qed.

(** ** Points and the score *)

Local Open Scope Q_scope.

Lemma Math_round_mono a b : a <= b -> (Math_round a <= Math_round b)%Z.
Proof. intros H. unfold Math_round. apply Qfloor_resp_le. lra. Qed.

Lemma Math_round_nonneg a : 0 <= a -> (0 <= Math_round a)%Z.
Proof. intros H. apply (Math_round_mono 0 a H). Qed.

Lemma sizeMultiplier_nonneg : 0 <= bubbleSize settings -> 0 <= 150 / bubbleSize settings.
Proof.
  intros H. unfold Qdiv. apply Qmult_le_0_compat; [lra|].
  apply Qinv_le_0_compat, H.
Qed.

Lemma comboMultiplier_nonneg c : (-10 <= c)%Z -> 0 <= 1 + inject_Z c * (1 # 10).
Proof.
  intros H. rewrite Zle_Qle in H. change (inject_Z (-10)) with (-10 # 1) in H. lra.
Qed.

Lemma speedBonus_mono rt1 rt2 :
  (rt1 <= rt2)%Z ->
  inject_Z (100 + Z.max 0 (100 - rt2 / 10)) <= inject_Z (100 + Z.max 0 (100 - rt1 / 10)).
Proof.
  intros H. rewrite <- Zle_Qle.
  pose proof (Z.div_le_mono rt1 rt2 10 ltac:(lia) H). lia.
Qed.

(** X10.  With a bubble size that is not negative the points of a hit
    are never negative, a quicker hit never gives fewer points than a
    slower one, a longer combo never gives fewer than a shorter one, and
    from one second on the reaction time no longer matters. *)
Theorem hitPoints_reward_speed_and_combo view view' rt rt' :
  0 <= bubbleSize settings -> (0 <= combo view)%Z ->
  (0 <= hitPoints settings view rt)%Z
  /\ ((rt <= rt')%Z -> (hitPoints settings view rt' <= hitPoints settings view rt)%Z)
  /\ ((combo view <= combo view')%Z ->
      (hitPoints settings view rt <= hitPoints settings view' rt)%Z)
  /\ ((1000 <= rt)%Z -> hitPoints settings view rt = hitPoints settings view 1000).
Proof.
  intros Hb Hc. pose proof (sizeMultiplier_nonneg Hb) as Hsm.
  pose proof (comboMultiplier_nonneg (combo view) ltac:(lia)) as Hcm.
  assert (Hsb : forall r, 0 <= inject_Z (100 + Z.max 0 (100 - r / 10))).
  { intros r. change 0 with (inject_Z 0). rewrite <- Zle_Qle. lia. }
  unfold hitPoints. split; [|split; [|split]].
  - apply Math_round_nonneg.
    apply Qmult_le_0_compat; [apply Qmult_le_0_compat|]; auto.
  - intros Hrt. apply Math_round_mono.
    rewrite <- !Qmult_assoc. apply Qmult_le_compat_r; [apply speedBonus_mono, Hrt|].
    apply Qmult_le_0_compat; assumption.
  - intros Hcc. apply Math_round_mono.
    assert (HP : 0 <= inject_Z (100 + Z.max 0 (100 - rt / 10)) * (150 / bubbleSize settings))
      by (apply Qmult_le_0_compat; auto).
    rewrite Zle_Qle in Hcc.
    set (P := inject_Z (100 + Z.max 0 (100 - rt / 10)) * (150 / bubbleSize settings)) in *.
    nra.
  - intros Hrt. do 2 f_equal.
    assert (Hq : (100 <= rt / 10)%Z) by (apply Z.div_le_lower_bound; lia).
    assert (H1000 : (1000 / 10 = 100)%Z) by reflexivity.
    rewrite H1000. f_equal. f_equal. lia.
Qed.

Local Close Scope Q_scope.

Lemma hitPoints_nonneg view rt :
  (0 <= bubbleSize settings)%Q -> 0 <= combo view -> 0 <= hitPoints settings view rt.
Proof.
  intros Hb Hc. unfold hitPoints. apply Math_round_nonneg.
  apply Qmult_le_0_compat; [apply Qmult_le_0_compat|].
  - change 0%Q with (inject_Z 0). rewrite <- Zle_Qle. lia.
  - apply sizeMultiplier_nonneg, Hb.
  - apply comboMultiplier_nonneg. lia.
Qed.

Lemma handleHit_score view now rx ry st :
  (0 <= bubbleSize settings)%Q -> 0 <= combo view -> 0 <= score (gameStats st) ->
  0 <= score (gameStats (handleHit settings boardRect view now rx ry st)).
Proof.
  intros Hb Hc Hs.
  pose proof (hitPoints_nonneg view (now - lastClickTime st) Hb Hc).
  assert (Heq : score (gameStats (handleHit settings boardRect view now rx ry st))
                = score (gameStats st) + hitPoints settings view (now - lastClickTime st))
    by (unfold handleHit; destruct (Qlt_bool 0 (nextDelay settings view)); reflexivity).
  rewrite Heq. lia.
Qed.

Lemma handleMiss_score st :
  0 <= score (gameStats st) -> 0 <= score (gameStats (handleMiss settings st)).
Proof.
  intros Hs. unfold handleMiss, miss_update.
  destruct (miss_ends settings (gameStats st)); cbn; lia.
Qed.

Lemma handle_score e st :
  (0 <= bubbleSize settings)%Q ->
  0 <= combo (clickStats st) -> 0 <= combo (gameStats st) ->
  0 <= score (gameStats st) -> 0 <= score (gameStats (handle e st)).
Proof.
  intros Hb Hcc Hcg Hs. destruct e; cbn [App.handle].
  - destruct (isPlaying (gameStats st)); [exact Hs | cbn; lia].
  - destruct (respawns st); [exact Hs | cbn; exact Hs].
  - unfold handleGlobalClick.
    destruct (negb (isPlaying (gameStats st)) || isPaused st || isMobile); [exact Hs|].
    destruct (bubblePos st) as [p|]; [|apply handleMiss_score, Hs].
    destruct (hitTest settings cx cy p (level (gameStats st)));
      [apply handleHit_score; assumption | apply handleMiss_score, Hs].
  - destruct (isMobile && isPlaying (gameStats st) && bool_decide (bubblePos st <> None));
      [|exact Hs].
    unfold handleMobileBubbleInteract.
    destruct (negb (isPlaying (gameStats st)) || isPaused st);
      [exact Hs | apply handleHit_score; assumption].
  - unfold handleMobileBackgroundClick.
    destruct (negb (isPlaying (gameStats st)) || isPaused st || negb isMobile);
      [exact Hs | apply handleMiss_score, Hs].
  - unfold tick. destruct (timerRef st); [|exact Hs].
    unfold timer_update. destruct (timer_ends (gameStats st)); cbn; exact Hs.
  - unfold expiryPoll. destruct (expiry_watch settings st); [|exact Hs].
    destruct (maxLifespan (level (gameStats st)) <? now - bubbleSpawnTime st); [|exact Hs].
    apply (handleMiss_score
             (doSpawn settings boardRect (level (gameStats st)) now rx ry st)), Hs.
  - destruct (isPlaying (gameStats st) || isPaused st); [cbn|]; exact Hs.
  - unfold togglePause. destruct (negb (isPlaying (gameStats st))); [exact Hs|].
    destruct (isPaused st); cbn; exact Hs.
  - unfold handleLockChange.
    destruct (isPlaying (gameStats st) && negb (isPaused st) && negb isMobile);
      [cbn|]; exact Hs.
  - destruct (respawns st !! k); [cbn|]; exact Hs.
Qed.

(** No handler touches the memoised click handler; only a render
    replaces it, by one made from the current statistics. *)
Lemma handle_clickStats e st : clickStats (handle e st) = clickStats st.
Proof.
  destruct e; cbn [App.handle].
  - destruct (isPlaying (gameStats st)); reflexivity.
  - destruct (respawns st); reflexivity.
  - unfold handleGlobalClick, handleHit, handleMiss.
    destruct (negb (isPlaying (gameStats st)) || isPaused st || isMobile); [reflexivity|].
    destruct (bubblePos st) as [p|];
      [destruct (hitTest settings cx cy p (level (gameStats st)))|];
      try (destruct (Qlt_bool 0 (nextDelay settings (clickStats st))); reflexivity);
      destruct (miss_ends settings (gameStats st)); reflexivity.
  - destruct (isMobile && isPlaying (gameStats st) && bool_decide (bubblePos st <> None));
      [|reflexivity].
    unfold handleMobileBubbleInteract, handleHit.
    destruct (negb (isPlaying (gameStats st)) || isPaused st); [reflexivity|].
    destruct (Qlt_bool 0 (nextDelay settings (gameStats st))); reflexivity.
  - unfold handleMobileBackgroundClick, handleMiss.
    destruct (negb (isPlaying (gameStats st)) || isPaused st || negb isMobile);
      [reflexivity|].
    destruct (miss_ends settings (gameStats st)); reflexivity.
  - unfold tick. destruct (timerRef st); [|reflexivity].
    destruct (timer_ends (gameStats st)); reflexivity.
  - unfold expiryPoll, handleMiss. destruct (expiry_watch settings st); [|reflexivity].
    destruct (maxLifespan (level (gameStats st)) <? now - bubbleSpawnTime st);
      [|reflexivity].
    cbn [doSpawn set_spawnTimes set_bubblePos gameStats].
    destruct (miss_ends settings (gameStats st)); reflexivity.
  - destruct (isPlaying (gameStats st) || isPaused st); reflexivity.
  - unfold togglePause. destruct (negb (isPlaying (gameStats st))); [reflexivity|].
    destruct (isPaused st); reflexivity.
  - unfold handleLockChange.
    destruct (isPlaying (gameStats st) && negb (isPaused st) && negb isMobile);
      reflexivity.
  - destruct (respawns st !! k); reflexivity.
Qed.

Lemma step_clickStats st e :
  clickStats (step st e) = clickStats st
  \/ clickStats (step st e) = gameStats (step st e).
Proof.
  unfold App.step, render. case_decide.
  - left. apply handle_clickStats.
  - right. reflexivity.
Qed.

Lemma start_clickStats st0 :
  isPlaying (gameStats st0) = false ->
  clickStats (step st0 StartGame) = startGame_stats settings.
Proof.
  intros H0. unfold App.step, render. rewrite (handle_StartGame _ _ _ _ H0).
  case_decide as Hd; [|reflexivity].
  unfold clickDeps in Hd. cbn in Hd. rewrite H0 in Hd. discriminate.
Qed.

(** X11.  With a bubble size that is not negative the score is never
    negative in a session, on either input path. *)
Theorem score_is_never_negative st :
  (0 <= bubbleSize settings)%Q -> reachable st -> 0 <= score (gameStats st).
Proof.
  intros Hb Hr.
  enough (0 <= score (gameStats st) /\ 0 <= combo (clickStats st)) by tauto.
  induction Hr as [st0 H0 | st e Hr [IHs IHc]].
  - rewrite (start_clickStats _ H0), step_gameStats, (handle_StartGame _ _ _ _ H0).
    cbn. lia.
  - destruct (reachable_inv _ _ _ st Hr) as [_ (_ & _ & Hco & _)].
    split.
    + rewrite step_gameStats. apply handle_score; try assumption. lia.
    + destruct (step_clickStats st e) as [-> | ->]; [exact IHc|].
      destruct (reachable_inv _ _ _ _ (reach_step _ _ _ st e Hr))
        as [_ (_ & _ & Hco' & _)]. lia.
Qed.

(** ** Events that find the session ended or paused *)

Lemma control_timer_off st :
  control_inv st ->
  isPlaying (gameStats st) = false \/ isPaused st = true -> timerRef st = false.
Proof.
  intros [_ Ht] [H|H]; rewrite Ht, H; [reflexivity|].
  destruct (isPlaying (gameStats st)); reflexivity.
Qed.

Lemma handle_idle e st :
  control_inv st ->
  (isPlaying (gameStats st) = false /\ e <> StartGame)
  \/ (isPaused st = true /\ e <> Surrender) ->
  gameStats (handle e st) = gameStats st.
Proof.
  intros Hc Hidle.
  assert (Hoff : timerRef st = false)
    by (apply (control_timer_off st Hc); tauto).
  assert (Hor : negb (isPlaying (gameStats st)) || isPaused st = true).
  { destruct Hidle as [[-> _]|[-> _]]; [reflexivity | apply orb_true_r]. }
  assert (Hpp : isPaused st = true -> isPlaying (gameStats st) = true) by apply Hc.
  destruct e; cbn [App.handle].
  - destruct (isPlaying (gameStats st)) eqn:Hp; [reflexivity|].
    destruct Hidle as [[_ He]|[Hpa _]]; [congruence|]. discriminate (Hpp Hpa).
  - destruct (respawns st); reflexivity.
  - unfold handleGlobalClick. rewrite Hor. reflexivity.
  - destruct (isMobile && isPlaying (gameStats st) && bool_decide (bubblePos st <> None));
      [|reflexivity].
    unfold handleMobileBubbleInteract. rewrite Hor. reflexivity.
  - unfold handleMobileBackgroundClick. rewrite Hor. reflexivity.
  - unfold tick. rewrite Hoff. reflexivity.
  - unfold expiryPoll, expiry_watch.
    destruct Hidle as [[Hp _]|[Hpa _]]; [rewrite Hp | rewrite Hpa];
      rewrite ?andb_false_r; cbn [andb negb]; rewrite ?andb_false_r; reflexivity.
  - destruct Hidle as [[Hp _]|[_ He]]; [|congruence].
    destruct (isPaused st) eqn:Hpa; [rewrite (Hpp eq_refl) in Hp; discriminate|].
    rewrite Hp. reflexivity.
  - unfold togglePause. destruct (negb (isPlaying (gameStats st))); [reflexivity|].
    destruct (isPaused st); reflexivity.
  - unfold handleLockChange.
    destruct (isPlaying (gameStats st) && negb (isPaused st) && negb isMobile);
      reflexivity.
  - destruct (respawns st !! k); reflexivity.
Qed.

(** X12.  Once a session has ended, no click, tap, tick, poll, pending
    respawn, pause key or surrender changes the statistics: only a new
    start does.  The countdown is off and the pause flag is down. *)
Theorem ended_session_keeps_its_statistics st e :
  reachable st -> isPlaying (gameStats st) = false -> e <> StartGame ->
  gameStats (step st e) = gameStats st
  /\ timerRef st = false /\ isPaused st = false.
Proof.
  intros Hr Hp He. destruct (reachable_inv _ _ _ st Hr) as [Hc _].
  split; [rewrite step_gameStats; apply handle_idle; auto|].
  split; [apply (control_timer_off st Hc); auto|].
  destruct Hc as [Hpa _]. destruct (isPaused st); [|reflexivity].
  rewrite (Hpa eq_refl) in Hp. discriminate.
Qed.

Lemma step_TogglePause st :
  isPlaying (gameStats st) = true ->
  gameStats (step st TogglePause) = gameStats st
  /\ isPaused (step st TogglePause) = negb (isPaused st)
  /\ timerRef (step st TogglePause)
     = if isPaused st then negb (survival settings) else false.
Proof.
  intros Hp. unfold App.step.
  rewrite render_gameStats, render_isPaused, render_timerRef.
  cbn [App.handle]. unfold togglePause. rewrite Hp. cbn [negb].
  destruct (isPaused st); cbn; auto.
Qed.

(** X13.  While a session is paused the countdown is off and nothing but
    a surrender changes the statistics.  Pausing a running session and
    resuming it leaves the statistics as they were and the countdown
    running again in a time trial. *)
Theorem paused_session_keeps_its_statistics st e :
  reachable st ->
  (isPaused st = true -> e <> Surrender ->
   gameStats (step st e) = gameStats st /\ timerRef st = false)
  /\ (isPlaying (gameStats st) = true -> isPaused st = false ->
      let paused := step st TogglePause in
      let resumed := step paused TogglePause in
      isPaused paused = true /\ timerRef paused = false
      /\ gameStats resumed = gameStats st /\ isPaused resumed = false
      /\ timerRef resumed = timerRef st).
Proof.
  intros Hr. destruct (reachable_inv _ _ _ st Hr) as [Hc _]. split.
  - intros Hpa He. split; [rewrite step_gameStats; apply handle_idle; auto|].
    apply (control_timer_off st Hc). auto.
  - intros Hp Hpa paused resumed.
    destruct (step_TogglePause st Hp) as (Hg1 & Hp1 & Ht1). fold paused in Hg1, Hp1, Ht1.
    rewrite Hpa in Hp1, Ht1. cbn in Hp1.
    assert (Hpl : isPlaying (gameStats paused) = true) by (rewrite Hg1; exact Hp).
    destruct (step_TogglePause paused Hpl) as (Hg2 & Hp2 & Ht2).
    fold resumed in Hg2, Hp2, Ht2. rewrite Hp1 in Hp2, Ht2. cbn in Hp2.
    destruct Hc as [_ Htm]. rewrite Hp, Hpa in Htm. cbn in Htm.
    repeat split; try assumption; congruence.
Qed.

(** ** The accuracy on display *)

Local Open Scope Q_scope.

(** X14.  In a session the accuracy on display is between 0 and 100; it
    is 100 before the first click and whenever there was no miss, and 0
    when there were only misses. *)
Theorem accuracy_is_a_percentage st :
  reachable st ->
  let g := gameStats st in
  0 <= accuracy g <= 100
  /\ (misses g = 0%Z -> accuracy g == 100)
  /\ (hits g = 0%Z -> (0 < misses g)%Z -> accuracy g == 0).
Proof.
  intros Hr g. destruct (reachable_inv _ _ _ st Hr) as [_ (_ & _ & _ & _ & Hh & Hm)].
  fold g in Hh, Hm. unfold accuracy, accuracy_of.
  destruct (Z.eqb_spec (hits g + misses g) 0) as [E|E].
  - split; [split; [lra | apply Qle_refl]|]. split; [reflexivity|]. lia.
  - assert (Ht : 0 < inject_Z (hits g + misses g)).
    { change 0 with (inject_Z 0). rewrite <- Zlt_Qlt. lia. }
    assert (Hh' : 0 <= inject_Z (hits g)).
    { change 0 with (inject_Z 0). rewrite <- Zle_Qle. exact Hh. }
    assert (Hm' : inject_Z (hits g) <= inject_Z (hits g + misses g)).
    { rewrite <- Zle_Qle. lia. }
    assert (Hlo : 0 <= inject_Z (hits g) / inject_Z (hits g + misses g)).
    { apply Qle_shift_div_l; [exact Ht | lra]. }
    assert (Hhi : inject_Z (hits g) / inject_Z (hits g + misses g) <= 1).
    { apply Qle_shift_div_r; [exact Ht | lra]. }
    split; [split; lra|]. split.
    + intros Hz. rewrite Hz, Z.add_0_r.
      rewrite Hz, Z.add_0_r in Ht. field. lra.
    + intros Hz _. rewrite Hz. unfold Qdiv. change (inject_Z 0) with 0. lra.
Qed.

Local Close Scope Q_scope.

(** ** Respawn and expiry in Survival *)

Lemma nextDelay_survival view :
  survival settings = true ->
  Qlt_bool 0 (nextDelay settings view) = (level view <? 10).
Proof.
  intros Hs. unfold nextDelay, Qlt_bool. rewrite Hs.
  destruct (Z.ltb_spec (level view) 10) as [Hl|Hl].
  - apply negb_true_iff. apply not_true_iff_false. rewrite Qle_bool_iff.
    intros Hle. assert (H50 : (0 < 500 - inject_Z (level view * 50))%Q).
    { assert (Hz : level view * 50 < 500) by lia.
      rewrite Zlt_Qlt in Hz. change (inject_Z 500) with 500%Q in Hz. lra. }
    pose proof (Q.le_max_r 0 (500 - inject_Z (level view * 50))%Q). lra.
  - apply negb_false_iff, Qle_bool_iff. apply Q.max_lub; [lra|].
    assert (Hz : 500 <= level view * 50) by lia.
    rewrite Zle_Qle in Hz. change (inject_Z 500) with 500%Q in Hz. lra.
Qed.

(** X15.  In Survival a hit below level 10 clears the target and leaves
    one more respawn pending; from level 10 on the delay is 0 and the hit
    puts the next target up at once, with nothing pending. *)
Theorem survival_respawn_is_immediate_from_level_10 view now rx ry st :
  gameMode settings = SURVIVAL ->
  let st' := handleHit settings boardRect view now rx ry st in
  (level view < 10 ->
   bubblePos st' = None /\ respawns st' = respawns st ++ [level view])
  /\ (10 <= level view ->
      bubblePos st' = Some (spawnBubble settings boardRect (level view) rx ry)
      /\ respawns st' = respawns st
      /\ bubbleSpawnTime st' = now /\ lastClickTime st' = now).
Proof.
  intros Hm st'. apply survival_true in Hm. subst st'. unfold handleHit.
  rewrite (nextDelay_survival view Hm). split; intros Hl.
  - apply Z.ltb_lt in Hl. rewrite Hl. split; reflexivity.
  - apply Z.ltb_ge in Hl. rewrite Hl. repeat split.
Qed.

(** X16.  While the expiry poll watches a target, it leaves the state
    alone up to 600 ms after the spawn whatever the level, and from level
    0 up it counts a miss once more than 3000 ms have passed. *)
Theorem target_lives_between_600_and_3000_ms now rx ry st :
  expiry_watch settings st = true ->
  (now - bubbleSpawnTime st <= 600 ->
   expiryPoll settings boardRect now rx ry st = st)
  /\ (0 <= level (gameStats st) -> 3000 < now - bubbleSpawnTime st ->
      gameStats (expiryPoll settings boardRect now rx ry st)
      = miss_update settings (gameStats st)).
Proof.
  intros Hw. unfold expiryPoll, maxLifespan. rewrite Hw. split.
  - intros Hn.
    destruct (Z.ltb_spec (Z.max 600 (3000 - level (gameStats st) * 150))
                         (now - bubbleSpawnTime st)); [lia | reflexivity].
  - intros Hl Hn.
    destruct (Z.ltb_spec (Z.max 600 (3000 - level (gameStats st) * 150))
                         (now - bubbleSpawnTime st)); [|lia].
    rewrite handleMiss_stats. reflexivity.
Qed.

(** ** The size of the target *)

Local Open Scope Q_scope.

Lemma spawnSize_mono l1 l2 :
  (l1 <= l2)%Z -> spawnSize settings l2 <= spawnSize settings l1.
Proof.
  intros Hl. unfold spawnSize. destruct (survival settings); [|apply Qle_refl].
  apply Q.max_le_compat_l. rewrite Zle_Qle in Hl.
  rewrite !inject_Z_mult. change (inject_Z 2) with 2. lra.
Qed.

(** X17.  The target never grows with the level, and in Survival it is
    never smaller than 30.  So a target that was placed for one level and
    is drawn at a later one still lies on the board, when it fitted. *)
Theorem target_placed_earlier_stays_on_board level level' rx ry :
  (level <= level')%Z -> 0 <= rx < 1 -> 0 <= ry < 1 ->
  let p := spawnBubble settings boardRect level rx ry in
  let drawn := currentSize settings level' in
  drawn <= spawnSize settings level
  /\ (gameMode settings = SURVIVAL -> 30 <= drawn)
  /\ (spawnSize settings level <= width boardRect ->
      rect_x boardRect <= pos_x p
      /\ pos_x p + drawn <= rect_x boardRect + width boardRect)
  /\ (spawnSize settings level <= height boardRect ->
      rect_y boardRect <= pos_y p
      /\ pos_y p + drawn <= rect_y boardRect + height boardRect).
Proof.
  intros Hl Hrx Hry p drawn.
  assert (Hd : drawn <= spawnSize settings level) by apply spawnSize_mono, Hl.
  split; [exact Hd|]. split.
  { intros Hm. apply survival_true in Hm. subst drawn. unfold currentSize.
    rewrite Hm. apply Q.le_max_l. }
  destruct (spawn_coordinate (rect_x boardRect) (width boardRect)
              (spawnSize settings level) rx Hrx) as [Hx _].
  destruct (spawn_coordinate (rect_y boardRect) (height boardRect)
              (spawnSize settings level) ry Hry) as [Hy _].
  split; intros Hfit.
  - assert (Hin : rect_x boardRect
                  <= rect_x boardRect + width boardRect - spawnSize settings level) by lra.
    specialize (Hx Hin). cbn in Hx. subst p. cbn [spawnBubble pos_x]. lra.
  - assert (Hin : rect_y boardRect
                  <= rect_y boardRect + height boardRect - spawnSize settings level) by lra.
    specialize (Hy Hin). cbn in Hy. subst p. cbn [spawnBubble pos_y]. lra.
Qed.

Local Close Scope Q_scope.

(** ** How long a time trial lasts *)

Local Open Scope Q_scope.

Lemma Qmax_0_r x y : 0 <= y -> x == y -> x == Qmax 0 y.
Proof. intros Hy Hx. destruct (Q.max_spec 0 y) as [[_ ->]|[H ->]]; lra. Qed.

Lemma Qmax_0_twice t a n :
  0 <= n -> 0 <= a -> Qmax 0 (Qmax 0 (t - a) - n) == Qmax 0 (t - (a + n)).
Proof.
  intros Hn Ha.
  destruct (Q.max_spec 0 (t - a)) as [[H1 E1]|[H1 E1]];
    destruct (Q.max_spec 0 (Qmax 0 (t - a) - n)) as [[H2 E2]|[H2 E2]];
    destruct (Q.max_spec 0 (t - (a + n))) as [[H3 E3]|[H3 E3]];
    rewrite E2, E3; lra.
Qed.

Lemma reachable_countdown st :
  survival settings = false -> 0 < duration settings -> reachable st ->
  countdown_inv (gameStats st).
Proof.
  intros Hs Hd. apply (reachable_stats_invariant _ _ _ Session.countdown_inv).
  - apply startGame_countdown, Hd.
  - intros g g'. apply stats_change_countdown, Hs.
Qed.

Lemma handleHit_keeps view now rx ry st :
  timeLeft (gameStats (handleHit settings boardRect view now rx ry st))
  = timeLeft (gameStats st)
  /\ isPaused (handleHit settings boardRect view now rx ry st) = isPaused st.
Proof.
  unfold handleHit. destruct (Qlt_bool 0 (nextDelay settings view)); split; reflexivity.
Qed.

Lemma handleMiss_keeps st :
  survival settings = false ->
  timeLeft (gameStats (handleMiss settings st)) = timeLeft (gameStats st)
  /\ isPaused (handleMiss settings st) = isPaused st.
Proof.
  intros Hs. unfold handleMiss, miss_update, miss_ends. rewrite Hs.
  split; reflexivity.
Qed.

Lemma plays_on_keeps e st :
  survival settings = false -> plays_on e -> is_tick e = false ->
  timeLeft (gameStats (handle e st)) = timeLeft (gameStats st)
  /\ isPaused (handle e st) = isPaused st.
Proof.
  intros Hs Hon Hnt. destruct e; cbn in Hon, Hnt; try contradiction;
    try discriminate; cbn [App.handle].
  - destruct (respawns st); split; reflexivity.
  - unfold handleGlobalClick.
    destruct (negb (isPlaying (gameStats st)) || isPaused st || isMobile); [auto|].
    destruct (bubblePos st) as [p|]; [|apply handleMiss_keeps, Hs].
    destruct (hitTest settings cx cy p (level (gameStats st)));
      [apply handleHit_keeps | apply handleMiss_keeps, Hs].
  - destruct (isMobile && isPlaying (gameStats st) && bool_decide (bubblePos st <> None));
      [|auto].
    unfold handleMobileBubbleInteract.
    destruct (negb (isPlaying (gameStats st)) || isPaused st);
      [auto | apply handleHit_keeps].
  - unfold handleMobileBackgroundClick.
    destruct (negb (isPlaying (gameStats st)) || isPaused st || negb isMobile);
      [auto | apply handleMiss_keeps, Hs].
  - unfold expiryPoll, expiry_watch. rewrite Hs. auto.
  - destruct (respawns st !! k); split; reflexivity.
Qed.

Lemma step_counts_down e st :
  survival settings = false -> 0 < duration settings ->
  reachable st -> isPaused st = false -> plays_on e ->
  timeLeft (gameStats (step st e))
  == Qmax 0 (timeLeft (gameStats st) - (if is_tick e then 1 else 0))
  /\ isPaused (step st e) = false.
Proof.
  intros Hs Hd Hr Hpa Hon.
  destruct (reachable_countdown st Hs Hd Hr) as [H0 Hp0].
  destruct (reachable_inv _ _ _ st Hr) as [[_ Htm] _].
  rewrite Hpa, Hs in Htm. cbn in Htm. rewrite !andb_true_r in Htm.
  unfold App.step. rewrite render_gameStats, render_isPaused.
  destruct (is_tick e) eqn:Ht.
  - destruct e; try discriminate. cbn [App.handle]. unfold tick. rewrite Htm.
    destruct (isPlaying (gameStats st)) eqn:Hp.
    + assert (Hpos : 0 < timeLeft (gameStats st)) by (apply Hp0; reflexivity).
      unfold timer_update.
      destruct (timer_ends (gameStats st)) eqn:E; cbn.
      * apply timer_ends_true in E. split; [|reflexivity].
        symmetry. apply Q.max_l. lra.
      * apply timer_ends_false in E. split; [|exact Hpa].
        symmetry. apply Q.max_r. lra.
    + split; [|exact Hpa].
      assert (Hz : ~ 0 < timeLeft (gameStats st)).
      { intros Hlt. apply Hp0 in Hlt. discriminate. }
      apply Qnot_lt_le in Hz.
      assert (Ez : timeLeft (gameStats st) == 0) by lra.
      rewrite Ez. symmetry. apply Q.max_l. lra.
  - destruct (plays_on_keeps e st Hs Hon Ht) as [-> ->].
    split; [|exact Hpa]. apply Qmax_0_r; lra.
Qed.

Lemma ticks_cons e es :
  inject_Z (ticks (e :: es)) == (if is_tick e then 1 else 0) + inject_Z (ticks es).
Proof.
  unfold ticks. cbn [List.filter]. destruct (is_tick e); [|lra].
  cbn [length]. rewrite Nat2Z.inj_succ, <- Z.add_1_l, inject_Z_plus. reflexivity.
Qed.

Lemma ticks_nonneg es : 0 <= inject_Z (ticks es).
Proof. change 0 with (inject_Z 0). rewrite <- Zle_Qle. unfold ticks. lia. Qed.

Lemma run_counts_down es : forall st,
  survival settings = false -> 0 < duration settings ->
  reachable st -> isPaused st = false -> Forall plays_on es ->
  timeLeft (gameStats (run st es))
  == Qmax 0 (timeLeft (gameStats st) - inject_Z (ticks es)).
Proof.
  induction es as [|e es IH]; intros st Hs Hd Hr Hpa Hes.
  - destruct (reachable_countdown st Hs Hd Hr) as [H0 _].
    change (timeLeft (gameStats st) == Qmax 0 (timeLeft (gameStats st) - 0)).
    apply Qmax_0_r; lra.
  - apply Forall_cons in Hes as [He Hes].
    destruct (step_counts_down e st Hs Hd Hr Hpa He) as [Ht Hpa'].
    cbn [App.run fold_left]. change (fold_left _ es ?x) with (run x es).
    rewrite (IH _ Hs Hd (reach_step _ _ _ st e Hr) Hpa' Hes), Ht, ticks_cons.
    pose proof (ticks_nonneg es).
    assert (Hb : 0 <= (if is_tick e then 1 else 0)) by (destruct (is_tick e); lra).
    apply Qmax_0_twice; assumption.
Qed.

(** X18.  A time trial counts its duration down by the ticks alone: after
    any clicks, taps, polls and respawns in between, [timeLeft] is the
    duration less the number of ticks, or 0 when there were more, and the
    session runs exactly while there were fewer ticks than seconds. *)
Theorem time_trial_lasts_its_duration st0 es :
  gameMode settings = TIME_TRIAL -> 0 < duration settings ->
  isPlaying (gameStats st0) = false -> Forall plays_on es ->
  let st := run (step st0 StartGame) es in
  timeLeft (gameStats st) == Qmax 0 (duration settings - inject_Z (ticks es))
  /\ (isPlaying (gameStats st) = true <-> inject_Z (ticks es) < duration settings).
Proof.
  intros Hm Hd H0 Hes st. apply survival_false in Hm.
  assert (Hr : reachable (step st0 StartGame)) by (apply reach_start, H0).
  assert (Hpa : isPaused (step st0 StartGame) = false).
  { unfold App.step. rewrite render_isPaused, (handle_StartGame _ _ _ _ H0). reflexivity. }
  assert (Ht : timeLeft (gameStats st)
               == Qmax 0 (duration settings - inject_Z (ticks es))).
  { subst st. rewrite (run_counts_down es _ Hm Hd Hr Hpa Hes).
    rewrite step_gameStats, (handle_StartGame _ _ _ _ H0). reflexivity. }
  split; [exact Ht|].
  destruct (reachable_countdown st Hm Hd (reachable_run _ _ _ es _ Hr)) as [_ Hp].
  rewrite Hp, Ht.
  destruct (Q.max_spec 0 (duration settings - inject_Z (ticks es))) as [[H1 ->]|[H1 ->]];
    split; intros; lra.
Qed.

Local Close Scope Q_scope.

End Proofs.

End CoverageProofs.

(** * The board, the cursor and the sidebar *)

Module ViewportProofs.
Import App Viewport SessionProofs.
Local Open Scope Q_scope.

Lemma centred_span (w cap f : Q) :
  0 <= w -> 0 <= f <= 1 -> 0 <= cap ->
  let width := Qmin (w * f) cap in
  let x := (w - width) / 2 in
  0 <= x /\ 0 <= width /\ x + width <= w /\ x + width / 2 == w / 2 /\ width <= cap.
Proof.
  intros Hw [Hf0 Hf1] Hcap width x. subst x.
  assert (Hwf : 0 <= w * f) by (apply Qmult_le_0_compat; assumption).
  assert (Hwf1 : w * f <= w) by nra.
  assert (Hmin : 0 <= width <= w /\ width <= cap).
  { subst width. destruct (Q.min_spec (w * f) cap) as [[H ->]|[H ->]]; lra. }
  repeat split; try lra; unfold Qdiv; change (/ 2) with (1 # 2); lra.
Qed.

(** X21.  In a window that is not of negative size the board lies within
    the window and is centred in it; it is at most 800 by 600 in board
    mode and 500 by 400 in compact mode, and the whole window in full
    mode. *)
Theorem board_lies_in_the_window w h mode :
  0 <= w -> 0 <= h ->
  let b := updateBoardDimensions w h mode in
  (0 <= rect_x b /\ 0 <= width b /\ rect_x b + width b <= w)
  /\ (0 <= rect_y b /\ 0 <= height b /\ rect_y b + height b <= h)
  /\ (rect_x b + width b / 2 == w / 2 /\ rect_y b + height b / 2 == h / 2)
  /\ (mode = BOARD -> width b <= 800 /\ height b <= 600)
  /\ (mode = COMPACT -> width b <= 500 /\ height b <= 400)
  /\ (mode = FULL -> width b = w /\ height b = h).
Proof.
  intros Hw Hh b. subst b. destruct mode; cbn [updateBoardDimensions rect_x rect_y width height].
  - repeat split; try discriminate; try lra; unfold Qdiv; change (/ 2) with (1 # 2); lra.
  - destruct (centred_span w 800 (9 # 10) Hw ltac:(lra) ltac:(lra)) as (? & ? & ? & ? & ?).
    destruct (centred_span h 600 (8 # 10) Hh ltac:(lra) ltac:(lra)) as (? & ? & ? & ? & ?).
    repeat split; try discriminate; assumption.
  - destruct (centred_span w 500 (8 # 10) Hw ltac:(lra) ltac:(lra)) as (? & ? & ? & ? & ?).
    destruct (centred_span h 400 (6 # 10) Hh ltac:(lra) ltac:(lra)) as (? & ? & ? & ? & ?).
    repeat split; try discriminate; assumption.
Qed.

(** X22.  A target that fits on the board of the current window is
    placed with its whole square inside the window. *)
Theorem target_lies_in_the_window settings w h level rx ry :
  0 <= w -> 0 <= h -> 0 <= rx < 1 -> 0 <= ry < 1 ->
  let b := updateBoardDimensions w h (screenMode settings) in
  let size := spawnSize settings level in
  let p := spawnBubble settings b level rx ry in
  size <= width b -> size <= height b ->
  (0 <= pos_x p /\ pos_x p + size <= w) /\ (0 <= pos_y p /\ pos_y p + size <= h).
Proof.
  intros Hw Hh Hrx Hry b size p Hfx Hfy.
  assert (Hb : (0 <= rect_x b /\ rect_x b + width b <= w)
               /\ (0 <= rect_y b /\ rect_y b + height b <= h)).
  { subst b. destruct (screenMode settings);
      cbn [updateBoardDimensions rect_x rect_y width height].
    - lra.
    - destruct (centred_span w 800 (9 # 10) Hw ltac:(lra) ltac:(lra)) as (? & ? & ? & ? & ?).
      destruct (centred_span h 600 (8 # 10) Hh ltac:(lra) ltac:(lra)) as (? & ? & ? & ? & ?).
      repeat split; assumption.
    - destruct (centred_span w 500 (8 # 10) Hw ltac:(lra) ltac:(lra)) as (? & ? & ? & ? & ?).
      destruct (centred_span h 400 (6 # 10) Hh ltac:(lra) ltac:(lra)) as (? & ? & ? & ? & ?).
      repeat split; assumption. }
  destruct Hb as [[Hx0 Hx1] [Hy0 Hy1]].
  destruct (spawn_coordinate (rect_x b) (width b) size rx Hrx) as [Hx _].
  destruct (spawn_coordinate (rect_y b) (height b) size ry Hry) as [Hy _].
  assert (Hix : rect_x b <= rect_x b + width b - size) by lra.
  assert (Hiy : rect_y b <= rect_y b + height b - size) by lra.
  specialize (Hx Hix). specialize (Hy Hiy). cbn in Hx, Hy.
  subst p. cbn [spawnBubble pos_x pos_y]. fold size. split; split; lra.
Qed.

(** X23.  While the game runs with the pointer locked, the cursor stays
    within the window however far the mouse moves; while the game does
    not run or is paused a mouse move leaves it where it is. *)
Theorem cursor_stays_in_the_window settings g paused locked mx my cx cy w h pos :
  0 <= w -> 0 <= h ->
  let pos' := handleMouseMove settings g paused locked mx my cx cy w h pos in
  (isPlaying g = true -> paused = false -> locked = true ->
   0 <= pos_x pos' <= w /\ 0 <= pos_y pos' <= h)
  /\ (isPlaying g = false \/ paused = true -> pos' = pos).
Proof.
  intros Hw Hh pos'. subst pos'. unfold handleMouseMove. split.
  - intros -> -> ->. cbn.
    pose proof (Q.le_max_l 0 (pos_x pos + mx * sensitivity settings)).
    pose proof (Q.le_max_l 0 (pos_y pos + my * sensitivity settings)).
    repeat split; try apply Q.le_min_r; apply Q.min_glb; assumption.
  - intros [-> | ->]; [reflexivity | rewrite orb_true_r; reflexivity].
Qed.

End ViewportProofs.

Module SidebarProofs.
Import storageService Validation Sidebar.
Local Open Scope Q_scope.

Lemma Z_within lo hi v (a b : Q) :
  (lo <= v <= hi)%Z -> a <= inject_Z lo -> inject_Z hi <= b -> a <= inject_Z v <= b.
Proof.
  intros [H1 H2] Ha Hb. rewrite Zle_Qle in H1, H2. lra.
Qed.

(** X24.  From settings within the ranges, a difficulty preset and a
    slider moved within its own bounds give settings within the ranges
    again, which validation leaves as they are; a slider sets the
    difficulty to Custom. *)
Theorem sidebar_settings_pass_validation s :
  in_range s ->
  (forall diff, in_range (handleDifficultyChange diff s)
                /\ settings_eq (validateSettings (toJS (handleDifficultyChange diff s)))
                               (handleDifficultyChange diff s))
  /\ (forall key value,
        (fst (slider_range key) <= value <= snd (slider_range key))%Z ->
        in_range (handleSliderChange key value s)
        /\ difficulty (handleSliderChange key value s) = CUSTOM
        /\ settings_eq (validateSettings (toJS (handleSliderChange key value s)))
                       (handleSliderChange key value s)).
Proof.
  intros Hs.
  assert (Hd : forall diff, in_range (handleDifficultyChange diff s)).
  { intros diff. destruct Hs as (Hb & Hsp & Hdu & Hse & Hrest).
    destruct diff; unfold in_range; cbn;
      (split; [try exact Hb; split; apply Qle_bool_iff; reflexivity|]);
      (split; [try exact Hsp; split; apply Qle_bool_iff; reflexivity|]);
      (split; [exact Hdu|]); (split; [exact Hse | exact Hrest]). }
  assert (Hk : forall key value,
             (fst (slider_range key) <= value <= snd (slider_range key))%Z ->
             in_range (handleSliderChange key value s)).
  { intros key value Hv. destruct Hs as (Hb & Hsp & Hdu & Hse & Hrest).
    destruct key; unfold in_range; cbn in *.
    - split; [|auto].
      apply (Z_within 20 150); [exact Hv | | ]; apply Qle_bool_iff; reflexivity.
    - split; [exact Hb|]. split; [|auto].
      apply (Z_within 0 1000); [exact Hv | | ]; apply Qle_bool_iff; reflexivity.
    - split; [exact Hb|]. split; [exact Hsp|]. split; [|auto].
      apply (Z_within 10 120); [exact Hv | | ]; apply Qle_bool_iff; reflexivity. }
  split.
  - intros diff. split; [apply Hd|]. apply ValidationProofs.validateSettings_fixed, Hd.
  - intros key value Hv. split; [apply Hk, Hv|]. split; [destruct key; reflexivity|].
    apply ValidationProofs.validateSettings_fixed, Hk, Hv.
Qed.

End SidebarProofs.

(** * The target stays on the board *)

Module PlacementProofs.
Import App Session Placement SessionProofs.

Section Proofs.

Context (settings : GameSettings) (boardRect : Rect) (isMobile : bool).

Local Abbreviation step := (App.step settings boardRect isMobile).
Local Abbreviation handle := (App.handle settings boardRect isMobile).
Local Abbreviation reachable := (App.reachable settings boardRect isMobile).
Local Abbreviation run := (App.run settings boardRect isMobile).
Local Abbreviation spawnBubble := (App.spawnBubble settings boardRect).
Local Abbreviation target_on_board := (Placement.target_on_board settings boardRect).

Lemma render_respawns old new : respawns (render old new) = respawns new.
Proof. unfold render. case_decide; reflexivity. Qed.

Local Open Scope Q_scope.

Lemma spawn_on_board lvl rx ry size :
  0 <= rx < 1 -> 0 <= ry < 1 ->
  size <= spawnSize settings lvl ->
  spawnSize settings lvl <= width boardRect ->
  spawnSize settings lvl <= height boardRect ->
  on_board boardRect (spawnBubble lvl rx ry) size.
Proof.
  intros Hrx Hry Hsize Hw Hh.
  destruct (spawn_coordinate (rect_x boardRect) (width boardRect)
              (spawnSize settings lvl) rx Hrx) as [Hx _].
  destruct (spawn_coordinate (rect_y boardRect) (height boardRect)
              (spawnSize settings lvl) ry Hry) as [Hy _].
  assert (Hix : rect_x boardRect
                <= rect_x boardRect + width boardRect - spawnSize settings lvl) by lra.
  assert (Hiy : rect_y boardRect
                <= rect_y boardRect + height boardRect - spawnSize settings lvl) by lra.
  specialize (Hx Hix). specialize (Hy Hiy). cbn in Hx, Hy.
  unfold on_board. cbn [App.spawnBubble pos_x pos_y]. repeat split; lra.
Qed.

Local Close Scope Q_scope.

(** What an event can do to the target: leave it, clear it, or put one
    up with the level of a pending respawn or of a handler. *)
Lemma handle_target e st :
  draws_in_range e ->
  bubblePos (handle e st) = bubblePos st
  \/ bubblePos (handle e st) = None
  \/ exists lvl rx ry,
       (0 <= rx < 1 /\ 0 <= ry < 1)%Q
       /\ bubblePos (handle e st) = Some (spawnBubble lvl rx ry)
       /\ (lvl ∈ respawns st \/ lvl = level (gameStats st)
           \/ lvl = level (clickStats st)).
Proof.
  assert (Hmiss : forall st', bubblePos (handleMiss settings st') = bubblePos st'
                              \/ bubblePos (handleMiss settings st') = None).
  { intros st'. unfold handleMiss.
    destruct (miss_ends settings (gameStats st')); [right | left]; reflexivity. }
  assert (Hhit : forall view now rx ry,
             (0 <= rx < 1 /\ 0 <= ry < 1)%Q ->
             bubblePos (handleHit settings boardRect view now rx ry st) = None
             \/ bubblePos (handleHit settings boardRect view now rx ry st)
                = Some (spawnBubble (level view) rx ry)).
  { intros view now rx ry _. unfold handleHit.
    destruct (Qlt_bool 0 (nextDelay settings view)); [left | right]; reflexivity. }
  intros Hd. destruct e; cbn [draws_in_range] in Hd; cbn [App.handle].
  - left. destruct (isPlaying (gameStats st)); reflexivity.
  - destruct (respawns st) as [|lvl rest] eqn:Hr; [left; reflexivity|].
    right. right. exists lvl, rx, ry. split; [exact Hd|]. split; [reflexivity|].
    left. left.
  - unfold handleGlobalClick.
    destruct (negb (isPlaying (gameStats st)) || isPaused st || isMobile);
      [left; reflexivity|].
    destruct (bubblePos st) as [p|] eqn:Hb.
    + destruct (hitTest settings cx cy p (level (gameStats st))).
      * destruct (Hhit (clickStats st) now rx ry Hd) as [H|H]; [right; left; exact H|].
        right. right. exists (level (clickStats st)), rx, ry. auto.
      * destruct (Hmiss st) as [H|H]; [left; rewrite H; exact Hb | right; left; exact H].
    + destruct (Hmiss st) as [H|H]; [left; rewrite H; exact Hb | right; left; exact H].
  - destruct (isMobile && isPlaying (gameStats st) && bool_decide (bubblePos st <> None));
      [|left; reflexivity].
    unfold handleMobileBubbleInteract.
    destruct (negb (isPlaying (gameStats st)) || isPaused st); [left; reflexivity|].
    destruct (Hhit (gameStats st) now rx ry Hd) as [H|H]; [right; left; exact H|].
    right. right. exists (level (gameStats st)), rx, ry. auto.
  - unfold handleMobileBackgroundClick.
    destruct (negb (isPlaying (gameStats st)) || isPaused st || negb isMobile);
      [left; reflexivity|].
    destruct (Hmiss st) as [H|H]; [left; exact H | right; left; exact H].
  - unfold tick. destruct (timerRef st); [|left; reflexivity].
    destruct (timer_ends (gameStats st)); [right; left | left]; reflexivity.
  - unfold expiryPoll. destruct (expiry_watch settings st); [|left; reflexivity].
    destruct (maxLifespan (level (gameStats st)) <? now - bubbleSpawnTime st)%Z;
      [|left; reflexivity].
    destruct (Hmiss (doSpawn settings boardRect (level (gameStats st)) now rx ry st))
      as [H|H]; [|right; left; exact H].
    right. right. exists (level (gameStats st)), rx, ry.
    split; [exact Hd|]. split; [rewrite H; reflexivity | auto].
  - destruct (isPlaying (gameStats st) || isPaused st); [right; left | left]; reflexivity.
  - left. unfold togglePause. destruct (negb (isPlaying (gameStats st))); [reflexivity|].
    destruct (isPaused st); reflexivity.
  - left. unfold handleLockChange.
    destruct (isPlaying (gameStats st) && negb (isPaused st) && negb isMobile);
      reflexivity.
  - destruct (respawns st !! k) as [lvl|] eqn:Hk; [|left; reflexivity].
    right. right. exists lvl, rx, ry. split; [exact Hd|]. split; [reflexivity|].
    left. eapply list_elem_of_lookup_2, Hk.
Qed.

(** A pending respawn was pending before, or holds the level of a
    handler or of the start that set it. *)
Lemma handle_respawns e st lvl :
  lvl ∈ respawns (handle e st) ->
  lvl ∈ respawns st \/ lvl = level (gameStats st) \/ lvl = level (clickStats st).
Proof.
  assert (Hmiss : forall st', respawns (handleMiss settings st') = respawns st').
  { intros st'. unfold handleMiss.
    destruct (miss_ends settings (gameStats st')); reflexivity. }
  assert (Hhit : forall view now rx ry,
             lvl ∈ respawns (handleHit settings boardRect view now rx ry st) ->
             lvl ∈ respawns st \/ lvl = level view).
  { intros view now rx ry. unfold handleHit.
    destruct (Qlt_bool 0 (nextDelay settings view)); cbn; [|auto].
    rewrite elem_of_app, list_elem_of_singleton. auto. }
  destruct e; cbn [App.handle].
  - destruct (isPlaying (gameStats st)); [auto|]. cbn.
    rewrite elem_of_app, list_elem_of_singleton. tauto.
  - destruct (respawns st) as [|l rest] eqn:Hr; [rewrite Hr; auto|]. cbn.
    intros H. left. right. exact H.
  - unfold handleGlobalClick.
    destruct (negb (isPlaying (gameStats st)) || isPaused st || isMobile); [auto|].
    destruct (bubblePos st) as [p|];
      [destruct (hitTest settings cx cy p (level (gameStats st)))|];
      rewrite ?Hmiss; auto.
    intros H. destruct (Hhit _ _ _ _ H); auto.
  - destruct (isMobile && isPlaying (gameStats st) && bool_decide (bubblePos st <> None));
      [|auto].
    unfold handleMobileBubbleInteract.
    destruct (negb (isPlaying (gameStats st)) || isPaused st); [auto|].
    intros H. destruct (Hhit _ _ _ _ H); auto.
  - unfold handleMobileBackgroundClick.
    destruct (negb (isPlaying (gameStats st)) || isPaused st || negb isMobile);
      rewrite ?Hmiss; auto.
  - unfold tick. destruct (timerRef st); [|auto].
    destruct (timer_ends (gameStats st)); cbn; auto.
  - unfold expiryPoll. destruct (expiry_watch settings st); [|auto].
    destruct (maxLifespan (level (gameStats st)) <? now - bubbleSpawnTime st); [|auto].
    rewrite Hmiss. cbn. auto.
  - destruct (isPlaying (gameStats st) || isPaused st); cbn; auto.
  - unfold togglePause. destruct (negb (isPlaying (gameStats st))); [auto|].
    destruct (isPaused st); cbn; auto.
  - unfold handleLockChange.
    destruct (isPlaying (gameStats st) && negb (isPaused st) && negb isMobile);
      cbn; auto.
  - destruct (respawns st !! k) as [l|]; [|auto]. cbn.
    intros H. left. eapply list_elem_of_delete_inv, H.
Qed.

Local Open Scope Q_scope.


Lemma spawnSize_le_max lvl :
  (0 <= lvl)%Z -> spawnSize settings lvl <= Qmax 30 (bubbleSize settings).
Proof.
  intros Hl. unfold spawnSize. destruct (survival settings); [|apply Q.le_max_r].
  apply Q.max_le_compat_l. rewrite Zle_Qle in Hl.
  rewrite inject_Z_mult in *. change (inject_Z 2) with 2. change (inject_Z 0) with 0 in Hl.
  lra.
Qed.

(** What holds of the levels in a session that is the first: a pending
    respawn and the click handler hold a level between 1 and the current
    one, and the target is on the board. *)
Lemma first_session_step st e :
  Qmax 30 (bubbleSize settings) <= width boardRect ->
  Qmax 30 (bubbleSize settings) <= height boardRect ->
  reachable st -> e <> StartGame -> draws_in_range e ->
  (Forall (fun l => 1 <= l <= level (gameStats st))%Z (respawns st)
   /\ (1 <= level (clickStats st) <= level (gameStats st))%Z
   /\ target_on_board st) ->
  Forall (fun l => 1 <= l <= level (gameStats (step st e)))%Z (respawns (step st e))
  /\ (1 <= level (clickStats (step st e)) <= level (gameStats (step st e)))%Z
  /\ target_on_board (step st e).
Proof.
  intros Hw Hh Hr He Hd (Hres & Hclick & Hon).
  destruct (reachable_inv _ _ _ st Hr) as [Hc (_ & _ & _ & Hl1 & _)].
  assert (Hup : (level (gameStats st) <= level (gameStats (step st e)))%Z).
  { rewrite step_gameStats.
    apply (stats_change_level settings), handle_change; assumption. }
  assert (Hlvl : forall lvl,
             lvl ∈ respawns st \/ lvl = level (gameStats st)
             \/ lvl = level (clickStats st) ->
             (1 <= lvl <= level (gameStats (step st e)))%Z).
  { intros lvl [H|[->| ->]]; [|lia|lia].
    eapply Forall_forall in Hres; [|exact H]. cbn in Hres. lia. }
  split; [|split].
  - apply Forall_forall. intros lvl Hin. unfold App.step in Hin.
    rewrite render_respawns in Hin. apply Hlvl, (handle_respawns e), Hin.
  - destruct (CoverageProofs.step_clickStats settings boardRect isMobile st e) as [E|E];
      rewrite E; lia.
  - intros p Hp. unfold App.step in Hp. rewrite render_bubblePos in Hp.
    destruct (handle_target e st Hd) as [H|[H|(lvl & rx & ry & [Hrx Hry] & H & Hfrom)]];
      rewrite H in Hp.
    + specialize (Hon p Hp). unfold on_board in *.
      pose proof (CoverageProofs.spawnSize_mono settings _ _ Hup) as Hmono.
      unfold spawnSize in Hmono. unfold currentSize in *. lra.
    + discriminate.
    + injection Hp as <-. specialize (Hlvl lvl Hfrom).
      assert (Hmax : spawnSize settings lvl <= Qmax 30 (bubbleSize settings))
        by (apply spawnSize_le_max; lia).
      apply spawn_on_board; try assumption; try lra.
      apply (CoverageProofs.spawnSize_mono settings lvl). lia.
Qed.

(** X27.  In a session that starts with nothing pending, no target up
    and level 1, as the first one does, a target is on the board whenever
    one is up, in Survival too and whatever the level: a spawn places it
    for the level of a handler or a pending respawn, which is not above
    the current one, and the target only shrinks as the level rises. *)
Theorem first_session_target_is_on_board st0 es :
  Qmax 30 (bubbleSize settings) <= width boardRect ->
  Qmax 30 (bubbleSize settings) <= height boardRect ->
  isPlaying (gameStats st0) = false -> level (gameStats st0) = 1%Z ->
  respawns st0 = [] -> bubblePos st0 = None ->
  Forall draws_in_range es -> Forall (fun e => e <> StartGame) es ->
  target_on_board (run (step st0 StartGame) es).
Proof.
  intros Hw Hh Hp0 Hl0 Hr0 Hb0 Hdraws Hes.
  assert (Hstart : Forall (fun l => 1 <= l <= level (gameStats (step st0 StartGame)))%Z
                          (respawns (step st0 StartGame))
                   /\ (1 <= level (clickStats (step st0 StartGame))
                       <= level (gameStats (step st0 StartGame)))%Z
                   /\ target_on_board (step st0 StartGame)).
  { rewrite (CoverageProofs.start_clickStats settings boardRect isMobile st0 Hp0).
    unfold App.step. rewrite render_respawns, render_gameStats.
    rewrite (handle_StartGame _ _ _ _ Hp0). cbn. rewrite Hr0, Hl0.
    split; [repeat constructor; lia|]. split; [lia|].
    intros p Hp. rewrite render_bubblePos in Hp. cbn in Hp. congruence. }
  assert (Hreach : reachable (step st0 StartGame)) by (apply reach_start, Hp0).
  revert Hstart Hreach. generalize (step st0 StartGame). clear Hp0 Hl0 Hr0 Hb0.
  induction es as [|e es IH]; intros st Hinv Hreach; [apply Hinv|].
  apply Forall_cons in Hdraws as [Hd Hdraws]. apply Forall_cons in Hes as [He Hes].
  cbn [App.run fold_left]. apply IH; try assumption.
  - apply first_session_step; assumption.
  - apply reach_step, Hreach.
Qed.

Local Close Scope Q_scope.

End Proofs.
End PlacementProofs.

(** * The further theorems at work *)

Module CoverageAtWork.
Import App storageService Validation Session Scenarios SessionProofs ScenarioProofs.
Import Ledger Challenges Viewport Sidebar Counting.
Import Placement.
Import LedgerProofs ChallengeProofs CoverageProofs ViewportProofs SidebarProofs.
Import PlacementProofs.

Lemma score_saved_iff_a_hit_witness :
  let g := gameStats gave_up in
  let record := mkRecord 1200 475 1 100 NORMAL TIME_TRIAL ["Cirujano"]%string in
  reachable timeTrial board false gave_up
  /\ isPlaying g = false
  /\ (is_Some (gameEndEffect timeTrial 1200 g) <-> 0 < hits g)
  /\ gameEndEffect timeTrial 1200 g = Some record
  /\ record ∈ getStoredScores
                (onGameEnd timeTrial 1200 true (fun _ => true) g emptyStorage).
Proof.
  intros g record.
  assert (Hr : reachable timeTrial board false gave_up) by apply desktop_reachable.
  assert (He : gameEndEffect timeTrial 1200 g = Some record) by reflexivity.
  destruct (score_saved_iff_a_hit timeTrial board false gave_up 1200 true
              (fun _ => true) emptyStorage Hr eq_refl) as (Hiff & _ & Hrec & _).
  destruct (Hrec record He) as (_ & _ & Hw).
  destruct (Hw eq_refl) as (_ & Hroom & _).
  split; [exact Hr|]. split; [reflexivity|]. split; [exact Hiff|].
  split; [exact He|]. apply Hroom. cbn. lia.
Defined.

(** With 50 higher scores stored, the record of a session with a hit is
    handed over and dropped: the stored scores stay as they were. *)
Lemma full_ledger_drops_the_record :
  let g := gameStats gave_up in
  let after :=
    getStoredScores
      (onGameEnd timeTrial 1200 true (fun _ => true) g LedgerScenarios.full_ledger) in
  0 < hits g
  /\ is_Some (gameEndEffect timeTrial 1200 g)
  /\ after = getStoredScores LedgerScenarios.full_ledger
  /\ Forall (fun x => rec_score x = 1000) after.
Proof.
  intros g after. split; [reflexivity|]. split; [eexists; reflexivity|].
  split; [reflexivity|]. vm_compute. repeat constructor.
Qed.

Lemma ledger_holds_the_top_fifty_witness :
  let r1 := mkRecord 1 100 3 50 NORMAL TIME_TRIAL [] in
  let r2 := mkRecord 2 300 5 80 NORMAL TIME_TRIAL [] in
  StronglySorted desc (getStoredScores emptyStorage)
  /\ getStoredScores (fold_left (fun ls' r => saveScore r true ls') [r1; r2] emptyStorage)
     = [r2; r1].
Proof.
  intros r1 r2.
  assert (Hs : StronglySorted desc (getStoredScores emptyStorage)) by constructor.
  destruct (ledger_holds_the_top_fifty [r1; r2] emptyStorage Hs) as (He & _).
  split; [exact Hs | exact He].
Defined.

Lemma earned_challenge_has_its_tag_witness :
  let g := mkStats 5000 0 25 25 0 0 3 1 false in
  let record := mkRecord 7 5000 25 (2500 # 25) NORMAL TIME_TRIAL ["Cirujano"]%string in
  gameEndEffect timeTrial 7 g = Some record
  /\ precision_master g timeTrial = true
  /\ "Cirujano"%string ∈ rec_tags record.
Proof.
  intros g record.
  assert (He : gameEndEffect timeTrial 7 g = Some record) by reflexivity.
  destruct (earned_challenge_has_its_tag timeTrial 7 g record He) as (Hp & _).
  split; [exact He|]. split; [reflexivity | exact (Hp eq_refl)].
Defined.

Lemma three_misses_end_survival_witness :
  reachable survivalGame board false last_life_waiting
  /\ misses (gameStats last_life_waiting) <= 2
  /\ (isPlaying (miss_update survivalGame (gameStats last_life_waiting)) = false
      <-> misses (miss_update survivalGame (gameStats last_life_waiting)) = 3).
Proof.
  assert (Hr : reachable survivalGame board false last_life_waiting)
    by apply desktop_reachable.
  destruct (three_misses_end_survival survivalGame board false last_life_waiting Hr)
    as (_ & Hs).
  destruct (Hs eq_refl) as (_ & Hp). destruct (Hp eq_refl) as (H2 & Hiff).
  split; [exact Hr|]. split; [exact H2 | exact Hiff].
Defined.

Lemma levels_and_streaks_take_hits_witness :
  reachable survivalGame board false last_life
  /\ combo (gameStats last_life) <= maxCombo (gameStats last_life) <= hits (gameStats last_life)
  /\ 10 * (level (gameStats last_life) - 1) <= hits (gameStats last_life).
Proof.
  assert (Hr : reachable survivalGame board false last_life) by apply desktop_reachable.
  destruct (levels_and_streaks_take_hits survivalGame board false last_life Hr)
    as (Hc & _ & Hl & _).
  split; [exact Hr|]. split; [exact Hc | exact (Hl eq_refl)].
Defined.

Lemma hitPoints_reward_speed_and_combo_witness :
  let view := startGame_stats timeTrial in
  let view' := hit_update timeTrial 475 view in
  (0 <= bubbleSize timeTrial)%Q /\ 0 <= combo view
  /\ hitPoints timeTrial view 500 <= hitPoints timeTrial view 100
  /\ hitPoints timeTrial view 100 <= hitPoints timeTrial view' 100.
Proof.
  intros view view'.
  assert (Hb : (0 <= bubbleSize timeTrial)%Q) by (apply Qle_bool_iff; reflexivity).
  assert (Hc : 0 <= combo view) by (cbn; lia).
  destruct (hitPoints_reward_speed_and_combo timeTrial view view' 100 500 Hb Hc)
    as (_ & Hrt & Hco & _).
  split; [exact Hb|]. split; [exact Hc|]. split.
  - apply Hrt. lia.
  - apply Hco. cbn. lia.
Defined.

Lemma score_is_never_negative_witness :
  (0 <= bubbleSize timeTrial)%Q
  /\ reachable timeTrial board false after_a_miss
  /\ 0 <= score (gameStats after_a_miss).
Proof.
  assert (Hb : (0 <= bubbleSize timeTrial)%Q) by (apply Qle_bool_iff; reflexivity).
  assert (Hr : reachable timeTrial board false after_a_miss) by apply desktop_reachable.
  split; [exact Hb|]. split; [exact Hr|].
  exact (score_is_never_negative timeTrial board false after_a_miss Hb Hr).
Defined.

Lemma ended_session_keeps_its_statistics_witness :
  reachable timeTrial board false gave_up
  /\ isPlaying (gameStats gave_up) = false
  /\ onTarget 1300 <> StartGame
  /\ gameStats (step timeTrial board false gave_up (onTarget 1300)) = gameStats gave_up.
Proof.
  assert (Hr : reachable timeTrial board false gave_up) by apply desktop_reachable.
  assert (He : onTarget 1300 <> StartGame) by discriminate.
  destruct (ended_session_keeps_its_statistics timeTrial board false gave_up
              (onTarget 1300) Hr eq_refl He) as (Hg & _).
  split; [exact Hr|]. split; [reflexivity|]. split; [exact He | exact Hg].
Defined.

Lemma paused_session_keeps_its_statistics_witness :
  let st := desktop timeTrial [StartGame; firstSpawn] in
  let resumed :=
    step timeTrial board false (step timeTrial board false st TogglePause) TogglePause in
  reachable timeTrial board false st
  /\ isPlaying (gameStats st) = true /\ isPaused st = false
  /\ gameStats resumed = gameStats st /\ timerRef resumed = timerRef st.
Proof.
  intros st resumed.
  assert (Hr : reachable timeTrial board false st) by apply desktop_reachable.
  destruct (paused_session_keeps_its_statistics timeTrial board false st Tick Hr)
    as (_ & Hp).
  destruct (Hp eq_refl eq_refl) as (_ & _ & Hg & _ & Ht).
  split; [exact Hr|]. split; [reflexivity|]. split; [reflexivity|].
  split; [exact Hg | exact Ht].
Defined.

Lemma accuracy_is_a_percentage_witness :
  reachable timeTrial board false after_a_miss
  /\ (0 <= accuracy (gameStats after_a_miss) <= 100)%Q.
Proof.
  assert (Hr : reachable timeTrial board false after_a_miss) by apply desktop_reachable.
  destruct (accuracy_is_a_percentage timeTrial board false after_a_miss Hr) as (Ha & _).
  split; [exact Hr | exact Ha].
Defined.

Lemma survival_respawn_is_immediate_from_level_10_witness :
  let st := desktop survivalGame [StartGame; firstSpawn] in
  let st' := handleHit survivalGame board (gameStats st) 1100 0 0 st in
  gameMode survivalGame = SURVIVAL
  /\ level (gameStats st) < 10
  /\ bubblePos st' = None /\ respawns st' = respawns st ++ [level (gameStats st)].
Proof.
  intros st st'.
  destruct (survival_respawn_is_immediate_from_level_10 survivalGame board
              (gameStats st) 1100 0 0 st eq_refl) as (Hlow & _).
  assert (Hl : level (gameStats st) < 10) by (vm_compute; reflexivity).
  split; [reflexivity|]. split; [exact Hl | exact (Hlow Hl)].
Defined.

Lemma target_lives_between_600_and_3000_ms_witness :
  let st := desktop survivalGame [StartGame; firstSpawn] in
  expiry_watch survivalGame st = true
  /\ 1500 - bubbleSpawnTime st <= 600
  /\ expiryPoll survivalGame board 1500 0 0 st = st.
Proof.
  intros st.
  assert (Hw : expiry_watch survivalGame st = true) by reflexivity.
  assert (Hn : 1500 - bubbleSpawnTime st <= 600) by (vm_compute; discriminate).
  destruct (target_lives_between_600_and_3000_ms survivalGame board 1500 0 0 st Hw)
    as (Hearly & _).
  split; [exact Hw|]. split; [exact Hn | exact (Hearly Hn)].
Defined.

Lemma target_placed_earlier_stays_on_board_witness :
  let p := spawnBubble survivalGame board 1 (1 # 2) (1 # 4) in
  let drawn := currentSize survivalGame 3 in
  (1 <= 3) /\ (0 <= 1 # 2 < 1)%Q /\ (0 <= 1 # 4 < 1)%Q
  /\ (drawn <= spawnSize survivalGame 1)%Q
  /\ (rect_x board <= pos_x p)%Q
  /\ (pos_x p + drawn <= rect_x board + width board)%Q.
Proof.
  intros p drawn.
  assert (Hl : 1 <= 3) by lia.
  assert (Hx : (0 <= 1 # 2 < 1)%Q) by (split; [apply Qle_bool_iff | apply Qlt_alt]; reflexivity).
  assert (Hy : (0 <= 1 # 4 < 1)%Q) by (split; [apply Qle_bool_iff | apply Qlt_alt]; reflexivity).
  destruct (target_placed_earlier_stays_on_board survivalGame board 1 3 (1 # 2) (1 # 4)
              Hl Hx Hy) as (Hd & _ & Hfx & _).
  assert (Hfit : (spawnSize survivalGame 1 <= width board)%Q)
    by (apply Qle_bool_iff; reflexivity).
  destruct (Hfx Hfit) as [H1 H2].
  split; [exact Hl|]. split; [exact Hx|]. split; [exact Hy|].
  split; [exact Hd|]. split; [exact H1 | exact H2].
Defined.

Lemma time_trial_lasts_its_duration_witness :
  let es := [firstSpawn; Tick; onTarget 1100; Tick] in
  let st := run timeTrial board false (step timeTrial board false initialApp StartGame) es in
  gameMode timeTrial = TIME_TRIAL /\ (0 < duration timeTrial)%Q
  /\ isPlaying (gameStats initialApp) = false /\ Forall plays_on es
  /\ (timeLeft (gameStats st) == Qmax 0 (duration timeTrial - inject_Z (ticks es)))%Q.
Proof.
  intros es st.
  assert (Hd : (0 < duration timeTrial)%Q) by reflexivity.
  assert (Hes : Forall plays_on es) by (repeat constructor).
  destruct (time_trial_lasts_its_duration timeTrial board false initialApp es
              eq_refl Hd eq_refl Hes) as (Ht & _).
  split; [reflexivity|]. split; [exact Hd|]. split; [reflexivity|].
  split; [exact Hes | exact Ht].
Defined.

Lemma maxCombo_in_session_witness :
  reachable timeTrial board false after_a_miss
  /\ offTarget <> StartGame
  /\ 0 <= combo (gameStats after_a_miss) <= maxCombo (gameStats after_a_miss)
  /\ maxCombo (gameStats after_a_miss)
     <= maxCombo (gameStats (step timeTrial board false after_a_miss offTarget)).
Proof.
  assert (Hr : reachable timeTrial board false after_a_miss) by apply desktop_reachable.
  assert (He : offTarget <> StartGame) by discriminate.
  destruct (maxCombo_in_session timeTrial board false after_a_miss offTarget Hr)
    as (Hc & Hm & _).
  split; [exact Hr|]. split; [exact He|]. split; [exact Hc | exact (Hm He)].
Defined.

Lemma maxCombo_is_best_combo_witness :
  let st := desktop timeTrial [StartGame; firstSpawn] in
  let es := [onTarget 1100; SpawnTimeout 2000 0 0; offTarget] in
  reachable timeTrial board false st
  /\ Forall (fun e => e <> StartGame) es
  /\ maxCombo (gameStats (run timeTrial board false st es))
     = Z.max (maxCombo (gameStats st)) (best_combo timeTrial board false st es).
Proof.
  intros st es.
  assert (Hr : reachable timeTrial board false st) by apply desktop_reachable.
  assert (Hes : Forall (fun e => e <> StartGame) es) by (repeat constructor; discriminate).
  split; [exact Hr|]. split; [exact Hes|].
  exact (maxCombo_is_best_combo timeTrial board false es st Hr Hes).
Defined.

Lemma board_lies_in_the_window_witness :
  let b := updateBoardDimensions 1000 500 BOARD in
  (0 <= 1000)%Q /\ (0 <= 500)%Q
  /\ (0 <= rect_x b /\ 0 <= width b /\ rect_x b + width b <= 1000)%Q
  /\ (width b <= 800 /\ height b <= 600)%Q.
Proof.
  intros b.
  assert (Hw : (0 <= 1000)%Q) by (apply Qle_bool_iff; reflexivity).
  assert (Hh : (0 <= 500)%Q) by (apply Qle_bool_iff; reflexivity).
  destruct (board_lies_in_the_window 1000 500 BOARD Hw Hh) as (Hx & _ & _ & Hb & _).
  split; [exact Hw|]. split; [exact Hh|]. split; [exact Hx | exact (Hb eq_refl)].
Defined.

Lemma target_lies_in_the_window_witness :
  let b := updateBoardDimensions 1000 800 (screenMode timeTrial) in
  let size := spawnSize timeTrial 1 in
  let p := spawnBubble timeTrial b 1 (1 # 2) (1 # 4) in
  (0 <= 1000)%Q /\ (0 <= 800)%Q /\ (0 <= 1 # 2 < 1)%Q /\ (0 <= 1 # 4 < 1)%Q
  /\ (size <= width b)%Q /\ (size <= height b)%Q
  /\ (0 <= pos_x p /\ pos_x p + size <= 1000)%Q
  /\ (0 <= pos_y p /\ pos_y p + size <= 800)%Q.
Proof.
  intros b size p.
  assert (Hw : (0 <= 1000)%Q) by (apply Qle_bool_iff; reflexivity).
  assert (Hh : (0 <= 800)%Q) by (apply Qle_bool_iff; reflexivity).
  assert (Hx : (0 <= 1 # 2 < 1)%Q) by (split; [apply Qle_bool_iff | apply Qlt_alt]; reflexivity).
  assert (Hy : (0 <= 1 # 4 < 1)%Q) by (split; [apply Qle_bool_iff | apply Qlt_alt]; reflexivity).
  assert (Hfx : (size <= width b)%Q) by (apply Qle_bool_iff; reflexivity).
  assert (Hfy : (size <= height b)%Q) by (apply Qle_bool_iff; reflexivity).
  destruct (target_lies_in_the_window timeTrial 1000 800 1 (1 # 2) (1 # 4)
              Hw Hh Hx Hy Hfx Hfy) as [Hpx Hpy].
  split; [exact Hw|]. split; [exact Hh|]. split; [exact Hx|]. split; [exact Hy|].
  split; [exact Hfx|]. split; [exact Hfy|]. split; [exact Hpx | exact Hpy].
Defined.

Lemma cursor_stays_in_the_window_witness :
  let g := startGame_stats timeTrial in
  let pos' := handleMouseMove timeTrial g false true 5000 (-5000) 0 0 1000 800
                              (mkPos 500 400) in
  (0 <= 1000)%Q /\ (0 <= 800)%Q
  /\ (0 <= pos_x pos' <= 1000)%Q /\ (0 <= pos_y pos' <= 800)%Q.
Proof.
  intros g pos'.
  assert (Hw : (0 <= 1000)%Q) by (apply Qle_bool_iff; reflexivity).
  assert (Hh : (0 <= 800)%Q) by (apply Qle_bool_iff; reflexivity).
  destruct (cursor_stays_in_the_window timeTrial g false true 5000 (-5000) 0 0
              1000 800 (mkPos 500 400) Hw Hh) as (Hin & _).
  destruct (Hin eq_refl eq_refl eq_refl) as [Hx Hy].
  split; [exact Hw|]. split; [exact Hh|]. split; [exact Hx | exact Hy].
Defined.

Lemma sidebar_settings_pass_validation_witness :
  in_range DEFAULT_SETTINGS
  /\ in_range (handleDifficultyChange HARD DEFAULT_SETTINGS)
  /\ (fst (slider_range durationSlider) <= 30 <= snd (slider_range durationSlider))
  /\ in_range (handleSliderChange durationSlider 30 DEFAULT_SETTINGS)
  /\ difficulty (handleSliderChange durationSlider 30 DEFAULT_SETTINGS) = CUSTOM.
Proof.
  assert (Hs : in_range DEFAULT_SETTINGS)
    by exact ValidationProofs.DEFAULT_SETTINGS_in_range.
  destruct (sidebar_settings_pass_validation DEFAULT_SETTINGS Hs) as (Hd & Hk).
  assert (Hv : fst (slider_range durationSlider) <= 30 <= snd (slider_range durationSlider))
    by (cbn; lia).
  destruct (Hd HARD) as (Hhard & _). destruct (Hk durationSlider 30 Hv) as (Hin & Hc & _).
  split; [exact Hs|]. split; [exact Hhard|]. split; [exact Hv|].
  split; [exact Hin | exact Hc].
Defined.


Lemma first_session_target_is_on_board_witness :
  let es :=
    firstSpawn :: hits_and_respawns 9
    ++ [onTarget 10100; SpawnTimeout 11000 (999 # 1000) (1 # 2)] in
  let st := run survivalGame board false
              (step survivalGame board false initialApp StartGame) es in
  (Qmax 30 (bubbleSize survivalGame) <= width board)%Q
  /\ (Qmax 30 (bubbleSize survivalGame) <= height board)%Q
  /\ Forall draws_in_range es
  /\ Forall (fun e => e <> StartGame) es
  /\ level (gameStats st) = 2
  /\ bubblePos st = Some (mkPos (741258 # 1000) (542 # 2))
  /\ on_board board (mkPos (741258 # 1000) (542 # 2)) (currentSize survivalGame 2).
Proof.
  intros es st.
  assert (Hw : (Qmax 30 (bubbleSize survivalGame) <= width board)%Q)
    by (apply Qle_bool_iff; reflexivity).
  assert (Hh : (Qmax 30 (bubbleSize survivalGame) <= height board)%Q)
    by (apply Qle_bool_iff; reflexivity).
  assert (Hd : Forall draws_in_range es).
  { repeat (constructor; [cbn; try exact I; try (split; split; lra)|]). constructor. }
  assert (Hes : Forall (fun e => e <> StartGame) es)
    by (repeat (constructor; [discriminate|]); constructor).
  assert (Hb : bubblePos st = Some (mkPos (741258 # 1000) (542 # 2)))
    by (vm_compute; reflexivity).
  split; [exact Hw|]. split; [exact Hh|]. split; [exact Hd|]. split; [exact Hes|].
  split; [vm_compute; reflexivity|]. split; [exact Hb|].
  exact (first_session_target_is_on_board survivalGame board false initialApp es
           Hw Hh eq_refl eq_refl eq_refl eq_refl Hd Hes _ Hb).
Defined.

End CoverageAtWork.
